(** * k8soperator: the pod healer and the NginxDeployment reconciler

    A shallow embedding of the two control loops of the repository:

    - [main.go]: the pod healer ([isPodStuck], [isPodReady], [healPod],
      [handlePod]);
    - the NginxDeployment controller ([Reconcile], [reconcileDeployment],
      [reconcileService], [updateStatus]) with the API types of
      [api/v1/nginxdeployment_types.go].

    The Kubernetes client is an external collaborator.  It is modelled as an
    object store with the usual get/create/update/delete semantics, a
    schedule of injected faults (transport errors, conflicts), and a record
    of every request issued, so that statements about "which calls are
    made" are statements about the request record. *)

From Stdlib Require Import ZArith String List Bool Lia.
From stdpp Require Import base option gmap strings list pretty.

Local Open Scope string_scope.
Local Open Scope list_scope.
Local Open Scope Z_scope.

(** ** Time ([time.Time], [time.Duration]) *)

Module time.

(** An instant, in nanoseconds on an absolute axis. *)
Definition Time := Z.
(** [time.Duration] is an int64 count of nanoseconds. *)
Definition Duration := Z.

Definition minDuration : Duration := - 2 ^ 63.
Definition maxDuration : Duration := 2 ^ 63 - 1.

Definition Nanosecond : Duration := 1.
Definition Second : Duration := 1000000000 * Nanosecond.
Definition Minute : Duration := 60 * Second.

(** [t.Sub(u)]: the difference, saturated to the range of a Duration. *)
Definition Sub (t u : Time) : Duration :=
  if t - u >? maxDuration then maxDuration
  else if t - u <? minDuration then minDuration
  else t - u.

(** [time.Since(t)] is [time.Now().Sub(t)]; the clock reading is passed
    explicitly. *)
Definition Since (now t : Time) : Duration := Sub now t.

End time.

(** ** Errors *)

(** A Go [error] value coming back from the client or from a helper.  The
    code only ever inspects it with [errors.IsNotFound]. *)
Inductive Error :=
| ErrNotFound
| ErrAlreadyExists
| ErrConflict
| ErrOther (msg : string).

(** The Go type [error]: [None] is [nil]. *)
Definition error := option Error.

Definition IsNotFound (e : Error) : bool :=
  match e with ErrNotFound => true | _ => false end.

(** ** Object metadata ([metav1.ObjectMeta]) *)

Record OwnerReference := {
  or_APIVersion : string;
  or_Kind : string;
  or_Name : string;
  or_UID : string;
  or_Controller : bool;
  or_BlockOwnerDeletion : bool;
}.

Record ObjectMeta := {
  Name : string;
  Namespace : string;
  UID : string;
  CreationTimestamp : time.Time;
  Labels : gmap string string;
  (** [Annotations] may be the nil map, which the healer tests for. *)
  Annotations : option (gmap string string);
  OwnerReferences : list OwnerReference;
}.

(** The zero value, extended field by field in composite literals. *)
Definition namedMeta (name namespace : string) : ObjectMeta :=
  {| Name := name; Namespace := namespace; UID := ""; CreationTimestamp := 0;
     Labels := ∅; Annotations := None; OwnerReferences := [] |}.

Definition labelledMeta (labels : gmap string string) : ObjectMeta :=
  {| Name := ""; Namespace := ""; UID := ""; CreationTimestamp := 0;
     Labels := labels; Annotations := None; OwnerReferences := [] |}.

Definition withOwnerReferences (m : ObjectMeta) (refs : list OwnerReference) : ObjectMeta :=
  {| Name := Name m; Namespace := Namespace m; UID := UID m;
     CreationTimestamp := CreationTimestamp m; Labels := Labels m;
     Annotations := Annotations m; OwnerReferences := refs |}.

Definition withAnnotations (m : ObjectMeta) (a : option (gmap string string)) : ObjectMeta :=
  {| Name := Name m; Namespace := Namespace m; UID := UID m;
     CreationTimestamp := CreationTimestamp m; Labels := Labels m;
     Annotations := a; OwnerReferences := OwnerReferences m |}.

(** [types.NamespacedName], as (namespace, name). *)
Abbreviation ObjectKey := (string * string)%type.

Definition keyOf (m : ObjectMeta) : ObjectKey := (Namespace m, Name m).

(** ** Pods ([corev1.Pod]), the part the healer reads *)

Definition PodPending : string := "Pending".
Definition PodRunning : string := "Running".
Definition PodReady : string := "Ready".
Definition ConditionTrue : string := "True".
Definition ConditionFalse : string := "False".

Record ContainerStateWaiting := {
  Reason : string;
  Message : string;
}.

Record ContainerState := {
  Waiting : option ContainerStateWaiting;
}.

Record ContainerStatus := {
  cs_Name : string;
  cs_State : ContainerState;
  (** int32 *)
  cs_RestartCount : Z;
}.

Record PodCondition := {
  cond_Type : string;
  cond_Status : string;
  cond_LastTransitionTime : time.Time;
}.

Record PodStatus := {
  Phase : string;
  Conditions : list PodCondition;
  ContainerStatuses : list ContainerStatus;
}.

Record Pod := {
  pod_Meta : ObjectMeta;
  pod_Status : PodStatus;
}.

(** ** The NginxDeployment custom resource ([api/v1]) *)

Record NginxDeploymentSpec := {
  (** int32 *)
  spec_Replicas : Z;
  (** int32 *)
  spec_Port : Z;
  spec_Image : string;
}.

Record NginxDeploymentStatus := {
  (** int32 *)
  st_AvailableReplicas : Z;
  st_Status : string;
}.

Record NginxDeployment := {
  nd_Meta : ObjectMeta;
  nd_Spec : NginxDeploymentSpec;
  nd_Status : NginxDeploymentStatus;
}.

(** ** Deployments and Services, the part the reconciler builds and reads *)

Inductive IntOrString :=
| IntVal (i : Z)
| StrVal (s : string).

(** [intstr.FromInt] *)
Definition FromInt (i : Z) : IntOrString := IntVal i.

Record HTTPGetAction := {
  http_Path : string;
  http_Port : IntOrString;
}.

Record Probe := {
  HTTPGet : option HTTPGetAction;
  InitialDelaySeconds : Z;
  TimeoutSeconds : Z;
}.

Record ContainerPort := {
  cp_ContainerPort : Z;
}.

Record Container := {
  c_Name : string;
  c_Image : string;
  c_Ports : list ContainerPort;
  LivenessProbe : option Probe;
  ReadinessProbe : option Probe;
}.

Record PodSpec := {
  Containers : list Container;
}.

Record PodTemplateSpec := {
  tmpl_Meta : ObjectMeta;
  tmpl_Spec : PodSpec;
}.

Record LabelSelector := {
  MatchLabels : gmap string string;
}.

Record DeploymentSpec := {
  (** [*int32]: may be nil *)
  Replicas : option Z;
  Selector : option LabelSelector;
  Template : PodTemplateSpec;
}.

Record DeploymentStatus := {
  AvailableReplicas : Z;
}.

Record Deployment := {
  dep_Meta : ObjectMeta;
  dep_Spec : DeploymentSpec;
  dep_Status : DeploymentStatus;
}.

Definition ServiceTypeClusterIP : string := "ClusterIP".

Record ServicePort := {
  sp_Port : Z;
  sp_TargetPort : IntOrString;
}.

Record ServiceSpec := {
  svc_Selector : gmap string string;
  svc_Ports : list ServicePort;
  svc_Type : string;
}.

Record Service := {
  svc_Meta : ObjectMeta;
  svc_Spec : ServiceSpec;
}.

(** ** The remote store, the request record and the log *)

Inductive Request :=
| ReqGetNginxDeployment (key : ObjectKey)
| ReqUpdateNginxDeploymentStatus (nd : NginxDeployment)
| ReqGetDeployment (key : ObjectKey)
| ReqCreateDeployment (d : Deployment)
| ReqUpdateDeployment (d : Deployment)
| ReqGetService (key : ObjectKey)
| ReqCreateService (s : Service)
| ReqDeletePod (namespace name : string).

(** The requests that write to the store: everything except a Get. *)
Definition mutating (r : Request) : bool :=
  match r with
  | ReqGetNginxDeployment _ | ReqGetDeployment _ | ReqGetService _ => false
  | _ => true
  end.

Inductive Severity := Info | Warning | Failure.

(** An argument of a log call, kept unformatted. *)
Inductive LogArg :=
| AStr (s : string)
| AInt (i : Z)
| ADuration (d : time.Duration)
| AErr (e : Error).

Record LogEntry := {
  log_Severity : Severity;
  log_Format : string;
  log_Args : list LogArg;
}.

Record World := {
  pods : gmap ObjectKey Pod;
  nginxDeployments : gmap ObjectKey NginxDeployment;
  deployments : gmap ObjectKey Deployment;
  services : gmap ObjectKey Service;
  (** Faults injected into the next requests, one entry per request:
      [Some e] makes the request fail with [e] without touching the store;
      [None], or an exhausted schedule, lets the store answer. *)
  faults : list error;
  (** Every request issued, oldest first. *)
  requests : list Request;
  (** Every log line written, oldest first. *)
  logs : list LogEntry;
}.

Definition setPods (f : gmap ObjectKey Pod -> gmap ObjectKey Pod) (w : World) : World :=
  {| pods := f (pods w); nginxDeployments := nginxDeployments w;
     deployments := deployments w; services := services w;
     faults := faults w; requests := requests w; logs := logs w |}.

Definition setNginxDeployments
    (f : gmap ObjectKey NginxDeployment -> gmap ObjectKey NginxDeployment) (w : World) : World :=
  {| pods := pods w; nginxDeployments := f (nginxDeployments w);
     deployments := deployments w; services := services w;
     faults := faults w; requests := requests w; logs := logs w |}.

Definition setDeployments
    (f : gmap ObjectKey Deployment -> gmap ObjectKey Deployment) (w : World) : World :=
  {| pods := pods w; nginxDeployments := nginxDeployments w;
     deployments := f (deployments w); services := services w;
     faults := faults w; requests := requests w; logs := logs w |}.

Definition setServices
    (f : gmap ObjectKey Service -> gmap ObjectKey Service) (w : World) : World :=
  {| pods := pods w; nginxDeployments := nginxDeployments w;
     deployments := deployments w; services := f (services w);
     faults := faults w; requests := requests w; logs := logs w |}.

Definition setFaults (fs : list error) (w : World) : World :=
  {| pods := pods w; nginxDeployments := nginxDeployments w;
     deployments := deployments w; services := services w;
     faults := fs; requests := requests w; logs := logs w |}.

Definition addRequest (r : Request) (w : World) : World :=
  {| pods := pods w; nginxDeployments := nginxDeployments w;
     deployments := deployments w; services := services w;
     faults := faults w; requests := requests w ++ [r]; logs := logs w |}.

Definition addLog (e : LogEntry) (w : World) : World :=
  {| pods := pods w; nginxDeployments := nginxDeployments w;
     deployments := deployments w; services := services w;
     faults := faults w; requests := requests w; logs := logs w ++ [e] |}.

(** A world holding nothing, with no fault scheduled. *)
Definition emptyWorld : World :=
  {| pods := ∅; nginxDeployments := ∅; deployments := ∅; services := ∅;
     faults := []; requests := []; logs := [] |}.

(** ** Programs: state passing over the world, with Go panics *)

Inductive Result (A : Type) :=
| Val (a : A)
| Panic (msg : string).
Arguments Val {A} a.
Arguments Panic {A} msg.

Definition Prog (A : Type) : Type := World -> Result A * World.

#[global] Instance Prog_ret : MRet Prog := λ A a w, (Val a, w).

#[global] Instance Prog_bind : MBind Prog := λ A B f m w,
  match m w with
  | (Val a, w') => f a w'
  | (Panic msg, w') => (Panic msg, w')
  end.

Definition panic {A} (msg : string) : Prog A := λ w, (Panic msg, w).

Definition getWorld : Prog World := λ w, (Val w, w).

Definition modifyWorld (f : World -> World) : Prog unit := λ w, (Val tt, f w).

(** [klog.Infof], [klog.Errorf] and the [logr] calls of the controller. *)
Definition logf (sev : Severity) (format : string) (args : list LogArg) : Prog unit :=
  modifyWorld (addLog {| log_Severity := sev; log_Format := format; log_Args := args |}).

(** ** The client *)

(** Every request is recorded and takes the next entry of the fault
    schedule. *)
Definition issue (r : Request) : Prog error := λ w,
  match faults w with
  | [] => (Val None, addRequest r w)
  | f :: fs => (Val f, setFaults fs (addRequest r w))
  end.

Definition getObject {A} (r : Request) (table : World -> gmap ObjectKey A) (key : ObjectKey)
    : Prog (Error + A) :=
  f ← issue r;
  match f with
  | Some e => mret (inl e)
  | None =>
      w ← getWorld;
      match table w !! key with
      | Some o => mret (inr o)
      | None => mret (inl ErrNotFound)
      end
  end.

Definition clientGetNginxDeployment (key : ObjectKey) : Prog (Error + NginxDeployment) :=
  getObject (ReqGetNginxDeployment key) nginxDeployments key.

Definition clientGetDeployment (key : ObjectKey) : Prog (Error + Deployment) :=
  getObject (ReqGetDeployment key) deployments key.

Definition clientGetService (key : ObjectKey) : Prog (Error + Service) :=
  getObject (ReqGetService key) services key.

(** Create fails with AlreadyExists on a taken name. *)
Definition clientCreateDeployment (d : Deployment) : Prog error :=
  f ← issue (ReqCreateDeployment d);
  match f with
  | Some e => mret (Some e)
  | None =>
      w ← getWorld;
      match deployments w !! keyOf (dep_Meta d) with
      | Some _ => mret (Some ErrAlreadyExists)
      | None => modifyWorld (setDeployments (insert (keyOf (dep_Meta d)) d)) ;; mret None
      end
  end.

Definition clientCreateService (s : Service) : Prog error :=
  f ← issue (ReqCreateService s);
  match f with
  | Some e => mret (Some e)
  | None =>
      w ← getWorld;
      match services w !! keyOf (svc_Meta s) with
      | Some _ => mret (Some ErrAlreadyExists)
      | None => modifyWorld (setServices (insert (keyOf (svc_Meta s)) s)) ;; mret None
      end
  end.

(** Update replaces metadata and spec of an existing object; the status
    is a sub-resource and keeps its stored value. *)
Definition clientUpdateDeployment (d : Deployment) : Prog error :=
  f ← issue (ReqUpdateDeployment d);
  match f with
  | Some e => mret (Some e)
  | None =>
      w ← getWorld;
      match deployments w !! keyOf (dep_Meta d) with
      | Some old =>
          modifyWorld (setDeployments (insert (keyOf (dep_Meta d))
            {| dep_Meta := dep_Meta d; dep_Spec := dep_Spec d;
               dep_Status := dep_Status old |})) ;;
          mret None
      | None => mret (Some ErrNotFound)
      end
  end.

(** [r.Status().Update]: writes the status sub-resource only. *)
Definition clientStatusUpdate (nd : NginxDeployment) : Prog error :=
  f ← issue (ReqUpdateNginxDeploymentStatus nd);
  match f with
  | Some e => mret (Some e)
  | None =>
      w ← getWorld;
      match nginxDeployments w !! keyOf (nd_Meta nd) with
      | Some old =>
          modifyWorld (setNginxDeployments (insert (keyOf (nd_Meta nd))
            {| nd_Meta := nd_Meta old; nd_Spec := nd_Spec old;
               nd_Status := nd_Status nd |})) ;;
          mret None
      | None => mret (Some ErrNotFound)
      end
  end.

(** [clientset.CoreV1().Pods(namespace).Delete(name)]: deleting an absent
    pod answers NotFound. *)
Definition clientDeletePod (namespace name : string) : Prog error :=
  f ← issue (ReqDeletePod namespace name);
  match f with
  | Some e => mret (Some e)
  | None =>
      w ← getWorld;
      match pods w !! (namespace, name) with
      | Some _ => modifyWorld (setPods (delete (namespace, name))) ;; mret None
      | None => mret (Some ErrNotFound)
      end
  end.

(** ** The pod healer ([main.go]) *)

Module Healer.

Import time.

(** The verdicts of the specification.  [isPodStuck] answers with a bool;
    each of its three [return true] sites writes its own log line, and the
    verdict names the site. *)
Inductive Verdict := Healthy | StuckPending | StuckCrashLoop | StuckNotReady.

#[global] Instance Verdict_eq_dec : EqDecision Verdict.
Proof. solve_decision. Defined.

Definition podArgs (pod : Pod) : list LogArg :=
  [AStr (Namespace (pod_Meta pod)); AStr (Name (pod_Meta pod))].

(** [isPodReady]: some condition has type Ready and status True. *)
Fixpoint anyReadyTrue (conditions : list PodCondition) : bool :=
  match conditions with
  | [] => false
  | condition :: rest =>
      if String.eqb (cond_Type condition) PodReady
         && String.eqb (cond_Status condition) ConditionTrue
      then true
      else anyReadyTrue rest
  end.

Definition isPodReady (pod : Pod) : bool :=
  anyReadyTrue (Conditions (pod_Status pod)).

(** The loop over the container statuses of a Running pod: the first
    container with more than 10 restarts, or waiting with reason
    CrashLoopBackOff, ends it; the result is the line logged there. *)
Fixpoint crashLoopScan (pod : Pod) (statuses : list ContainerStatus) : option LogEntry :=
  match statuses with
  | [] => None
  | containerStatus :: rest =>
      if cs_RestartCount containerStatus >? 10 then
        Some {| log_Severity := Info;
                log_Format := "Pod %s/%s in CrashLoopBackOff with %d restarts";
                log_Args := podArgs pod ++ [AInt (cs_RestartCount containerStatus)] |}
      else
        match Waiting (cs_State containerStatus) with
        | Some waiting =>
            if String.eqb (Reason waiting) "CrashLoopBackOff" then
              Some {| log_Severity := Info;
                      log_Format := "Pod %s/%s container %s in CrashLoopBackOff";
                      log_Args := podArgs pod ++ [AStr (cs_Name containerStatus)] |}
            else crashLoopScan pod rest
        | None => crashLoopScan pod rest
        end
  end.

(** The loop over the conditions of a pod that is not ready: the first
    Ready=False condition older than 10 minutes ends it. *)
Fixpoint notReadyScan (pod : Pod) (now : Time) (conditions : list PodCondition)
    : option LogEntry :=
  match conditions with
  | [] => None
  | condition :: rest =>
      if String.eqb (cond_Type condition) PodReady
         && String.eqb (cond_Status condition) ConditionFalse
      then
        if Since now (cond_LastTransitionTime condition) >? 10 * Minute then
          Some {| log_Severity := Info;
                  log_Format := "Pod %s/%s not ready for %v";
                  log_Args := podArgs pod
                    ++ [ADuration (Since now (cond_LastTransitionTime condition))] |}
        else notReadyScan pod now rest
      else notReadyScan pod now rest
  end.

(** The body of [isPodStuck]: the [return true] site that is reached, as
    its verdict and the line it logs, or [None] for the final
    [return false].  [now] is the reading of the clock. *)
Definition stuckSite (pod : Pod) (now : Time) : option (Verdict * LogEntry) :=
  let pendingDuration := Since now (CreationTimestamp (pod_Meta pod)) in
  if String.eqb (Phase (pod_Status pod)) PodPending && (pendingDuration >? 15 * Minute) then
    Some (StuckPending,
          {| log_Severity := Info;
             log_Format := "Pod %s/%s stuck in Pending for %v";
             log_Args := podArgs pod ++ [ADuration pendingDuration] |})
  else
    match
      (if String.eqb (Phase (pod_Status pod)) PodRunning
       then crashLoopScan pod (ContainerStatuses (pod_Status pod))
       else None)
    with
    | Some line => Some (StuckCrashLoop, line)
    | None =>
        if negb (isPodReady pod) then
          match notReadyScan pod now (Conditions (pod_Status pod)) with
          | Some line => Some (StuckNotReady, line)
          | None => None
          end
        else None
    end.

Definition isPodStuck (pod : Pod) (now : Time) : Prog bool :=
  match stuckSite pod now with
  | Some (_, line) => modifyWorld (addLog line) ;; mret true
  | None => mret false
  end.

Definition classify (pod : Pod) (now : Time) : Verdict :=
  match stuckSite pod now with
  | Some (verdict, _) => verdict
  | None => Healthy
  end.

Definition actionKey : string := "healing.kubernetes.io/action".
Definition ignoreKey : string := "healing.kubernetes.io/ignore".

(** The annotation switch of [healPod]: logs the custom action and tells
    whether the function returns nil right there. *)
Definition actionSwitch (pod : Pod) : Prog bool :=
  match Annotations (pod_Meta pod) with
  | Some annotations =>
      match annotations !! actionKey with
      | Some healingAction =>
          if String.eqb healingAction "restart" then
            logf Info "Performing custom restart action for pod %s/%s" (podArgs pod) ;;
            mret false
          else if String.eqb healingAction "delete" then
            logf Info "Performing custom delete action for pod %s/%s" (podArgs pod) ;;
            mret false
          else if String.eqb healingAction "ignore" then
            logf Info "Skipping healing for pod %s/%s due to ignore annotation" (podArgs pod) ;;
            mret true
          else mret false
      | None => mret false
      end
  | None => mret false
  end.

Definition healPod (pod : Pod) : Prog error :=
  logf Info "Attempting to heal pod %s/%s" (podArgs pod) ;;
  skip ← actionSwitch pod;
  if skip : bool then mret None
  else
    err ← clientDeletePod (Namespace (pod_Meta pod)) (Name (pod_Meta pod));
    match err with
    | Some e =>
        logf Failure "Failed to heal pod %s/%s: %v" (podArgs pod ++ [AErr e]) ;;
        mret (Some e)
    | None =>
        logf Info "Successfully healed pod %s/%s" (podArgs pod) ;;
        mret None
    end.

Definition hasIgnoreAnnotation (pod : Pod) : bool :=
  match Annotations (pod_Meta pod) with
  | Some annotations =>
      match annotations !! ignoreKey with
      | Some _ => true
      | None => false
      end
  | None => false
  end.

Definition handlePod (pod : Pod) (now : Time) : Prog unit :=
  if String.eqb (Namespace (pod_Meta pod)) "kube-system" then mret tt
  else if hasIgnoreAnnotation pod then mret tt
  else
    stuck ← isPodStuck pod now;
    if stuck : bool then
      err ← healPod pod;
      match err with
      | Some e => logf Failure "Error healing pod %s/%s: %v" (podArgs pod ++ [AErr e])
      | None => mret tt
      end
    else mret tt.

End Healer.

(** ** The NginxDeployment controller *)

Module Controller.

(** [runtime.Scheme], reduced to what [SetControllerReference] asks of it:
    the (apiVersion, kind) registered for the NginxDeployment type, if
    any. *)
Record Scheme := {
  nginxDeploymentKind : option (string * string);
}.

Record NginxDeploymentReconciler := {
  rScheme : Scheme;
}.

Definition sameOwner (a b : OwnerReference) : bool :=
  String.eqb (or_APIVersion a) (or_APIVersion b)
  && String.eqb (or_Kind a) (or_Kind b)
  && String.eqb (or_Name a) (or_Name b).

(** [ctrl.SetControllerReference] of controller-runtime, on the metadata
    of the controlled object: the owner must live in the namespace of the
    object, its type must be registered in the scheme, and the object must
    not already be controlled by somebody else. *)
Definition SetControllerReference
    (owner : NginxDeployment) (object : ObjectMeta) (scheme : Scheme) : Error + ObjectMeta :=
  if negb (String.eqb (Namespace (nd_Meta owner)) "")
     && negb (String.eqb (Namespace (nd_Meta owner)) (Namespace object))
  then inl (ErrOther "cross-namespace owner references are disallowed")
  else
    match nginxDeploymentKind scheme with
    | None => inl (ErrOther "no kind is registered for the owner type")
    | Some (apiVersion, kind) =>
        let ref := {| or_APIVersion := apiVersion; or_Kind := kind;
                      or_Name := Name (nd_Meta owner); or_UID := UID (nd_Meta owner);
                      or_Controller := true; or_BlockOwnerDeletion := true |} in
        if existsb (λ r, or_Controller r && negb (sameOwner r ref)) (OwnerReferences object)
        then inl (ErrOther "object is already owned by another controller")
        else if existsb (λ r, sameOwner r ref) (OwnerReferences object)
        then inr (withOwnerReferences object
                    (map (λ r, if sameOwner r ref then ref else r) (OwnerReferences object)))
        else inr (withOwnerReferences object (OwnerReferences object ++ [ref]))
    end.

Definition appLabels (nginxDeploy : NginxDeployment) : gmap string string :=
  {[ "app" := Name (nd_Meta nginxDeploy) ]}.

(** The Deployment literal of [reconcileDeployment]. *)
Definition desiredDeployment (nginxDeploy : NginxDeployment) : Deployment :=
  let targetPort := FromInt (spec_Port (nd_Spec nginxDeploy)) in
  {| dep_Meta := namedMeta (Name (nd_Meta nginxDeploy) +:+ "-deployment")
                           (Namespace (nd_Meta nginxDeploy));
     dep_Spec :=
       {| Replicas := Some (spec_Replicas (nd_Spec nginxDeploy));
          Selector := Some {| MatchLabels := appLabels nginxDeploy |};
          Template :=
            {| tmpl_Meta := labelledMeta (appLabels nginxDeploy);
               tmpl_Spec :=
                 {| Containers :=
                      [ {| c_Name := "nginx";
                           c_Image := spec_Image (nd_Spec nginxDeploy);
                           c_Ports := [ {| cp_ContainerPort := spec_Port (nd_Spec nginxDeploy) |} ];
                           LivenessProbe := Some
                             {| HTTPGet := Some {| http_Path := "/"; http_Port := targetPort |};
                                InitialDelaySeconds := 15;
                                TimeoutSeconds := 5 |};
                           ReadinessProbe := Some
                             {| HTTPGet := Some {| http_Path := "/"; http_Port := targetPort |};
                                InitialDelaySeconds := 5;
                                TimeoutSeconds := 5 |} |} ] |} |} |};
     dep_Status := {| AvailableReplicas := 0 |} |}.

(** The Service literal of [reconcileService]. *)
Definition desiredService (nginxDeploy : NginxDeployment) : Service :=
  let targetPort := FromInt (spec_Port (nd_Spec nginxDeploy)) in
  {| svc_Meta := namedMeta (Name (nd_Meta nginxDeploy) +:+ "-service")
                           (Namespace (nd_Meta nginxDeploy));
     svc_Spec :=
       {| svc_Selector := appLabels nginxDeploy;
          svc_Ports := [ {| sp_Port := spec_Port (nd_Spec nginxDeploy);
                            sp_TargetPort := targetPort |} ];
          svc_Type := ServiceTypeClusterIP |} |}.

(** [*d.Spec.Replicas] *)
Definition derefReplicas (d : Deployment) : Prog Z :=
  match Replicas (dep_Spec d) with
  | Some n => mret n
  | None => panic "invalid memory address or nil pointer dereference"
  end.

(** [d.Spec.Template.Spec.Containers[0].Image] *)
Definition firstImage (d : Deployment) : Prog string :=
  match Containers (tmpl_Spec (Template (dep_Spec d))) with
  | c :: _ => mret (c_Image c)
  | [] => panic "index out of range [0] with length 0"
  end.

(** The condition of the "Update if needed" test; [||] does not evaluate
    its right operand when the left one holds. *)
Definition needsUpdate (foundDeploy deployment : Deployment) : Prog bool :=
  foundReplicas ← derefReplicas foundDeploy;
  replicas ← derefReplicas deployment;
  if negb (foundReplicas =? replicas) then mret true
  else
    foundImage ← firstImage foundDeploy;
    image ← firstImage deployment;
    mret (negb (String.eqb foundImage image)).

Definition reconcileDeployment
    (r : NginxDeploymentReconciler) (nginxDeploy : NginxDeployment) : Prog error :=
  let deployment := desiredDeployment nginxDeploy in
  match SetControllerReference nginxDeploy (dep_Meta deployment) (rScheme r) with
  | inl err => mret (Some err)
  | inr meta =>
      let deployment :=
        {| dep_Meta := meta; dep_Spec := dep_Spec deployment;
           dep_Status := dep_Status deployment |} in
      found ← clientGetDeployment (Namespace (dep_Meta deployment), Name (dep_Meta deployment));
      match found with
      | inl err =>
          if IsNotFound err then
            logf Info "Creating Deployment" [AStr "name"; AStr (Name (dep_Meta deployment))] ;;
            clientCreateDeployment deployment
          else mret (Some err)
      | inr foundDeploy =>
          update ← needsUpdate foundDeploy deployment;
          if update : bool then
            logf Info "Updating Deployment" [AStr "name"; AStr (Name (dep_Meta deployment))] ;;
            clientUpdateDeployment
              {| dep_Meta := dep_Meta foundDeploy; dep_Spec := dep_Spec deployment;
                 dep_Status := dep_Status foundDeploy |}
          else mret None
      end
  end.

Definition reconcileService
    (r : NginxDeploymentReconciler) (nginxDeploy : NginxDeployment) : Prog error :=
  let service := desiredService nginxDeploy in
  match SetControllerReference nginxDeploy (svc_Meta service) (rScheme r) with
  | inl err => mret (Some err)
  | inr meta =>
      let service := {| svc_Meta := meta; svc_Spec := svc_Spec service |} in
      found ← clientGetService (Namespace (svc_Meta service), Name (svc_Meta service));
      match found with
      | inl err =>
          if IsNotFound err then
            logf Info "Creating Service" [AStr "name"; AStr (Name (svc_Meta service))] ;;
            clientCreateService service
          else mret (Some err)
      | inr _ => mret None
      end
  end.

(** [fmt.Sprintf("Available: %d/%d", available, replicas)] *)
Definition availableMessage (available replicas : Z) : string :=
  "Available: " +:+ pretty available +:+ "/" +:+ pretty replicas.

(** The status [updateStatus] derives from the observed Deployment. *)
Definition projectedStatus (deployment : Deployment) (nginxDeploy : NginxDeployment)
    : NginxDeploymentStatus :=
  {| st_AvailableReplicas := AvailableReplicas (dep_Status deployment);
     st_Status :=
       if AvailableReplicas (dep_Status deployment) =? spec_Replicas (nd_Spec nginxDeploy)
       then "Ready"
       else availableMessage (AvailableReplicas (dep_Status deployment))
                             (spec_Replicas (nd_Spec nginxDeploy)) |}.

(** [updateStatus] works on the caller's object through a pointer; the
    object as it stands on return is part of the result. *)
Definition updateStatus
    (r : NginxDeploymentReconciler) (nginxDeploy : NginxDeployment)
    : Prog (NginxDeployment * error) :=
  got ← clientGetDeployment (Namespace (nd_Meta nginxDeploy),
                             Name (nd_Meta nginxDeploy) +:+ "-deployment");
  match got with
  | inl err => mret (nginxDeploy, Some err)
  | inr deployment =>
      let nginxDeploy :=
        {| nd_Meta := nd_Meta nginxDeploy; nd_Spec := nd_Spec nginxDeploy;
           nd_Status := projectedStatus deployment nginxDeploy |} in
      err ← clientStatusUpdate nginxDeploy;
      mret (nginxDeploy, err)
  end.

(** "Set defaults" of [Reconcile]. *)
Definition setDefaults (nginxDeploy : NginxDeployment) : NginxDeployment :=
  let image := if String.eqb (spec_Image (nd_Spec nginxDeploy)) "" then "nginx:latest"
               else spec_Image (nd_Spec nginxDeploy) in
  let port := if spec_Port (nd_Spec nginxDeploy) =? 0 then 80
              else spec_Port (nd_Spec nginxDeploy) in
  {| nd_Meta := nd_Meta nginxDeploy;
     nd_Spec := {| spec_Replicas := spec_Replicas (nd_Spec nginxDeploy);
                   spec_Port := port; spec_Image := image |};
     nd_Status := nd_Status nginxDeploy |}.

(** [Reconcile]; the [ctrl.Result] it returns is always the zero value,
    so only the error is kept. *)
Definition Reconcile (r : NginxDeploymentReconciler) (req : ObjectKey) : Prog error :=
  got ← clientGetNginxDeployment req;
  match got with
  | inl err =>
      if IsNotFound err then
        logf Info "NginxDeployment resource not found - deleted" [] ;;
        mret None
      else
        logf Failure "Failed to get NginxDeployment" [AErr err] ;;
        mret (Some err)
  | inr nginxDeploy =>
      let nginxDeploy := setDefaults nginxDeploy in
      err ← reconcileDeployment r nginxDeploy;
      match err with
      | Some e => logf Failure "Failed to reconcile Deployment" [AErr e] ;; mret (Some e)
      | None =>
          err ← reconcileService r nginxDeploy;
          match err with
          | Some e => logf Failure "Failed to reconcile Service" [AErr e] ;; mret (Some e)
          | None =>
              '(_, err) ← updateStatus r nginxDeploy;
              match err with
              | Some e => logf Failure "Failed to update status" [AErr e] ;; mret (Some e)
              | None =>
                  logf Info "Successfully reconciled NginxDeployment" [] ;;
                  mret None
              end
          end
      end
  end.

End Controller.

(** * Vocabulary of the statements *)

(** The store itself answers the next request. *)
Definition answered (w : World) : Prop := hd None (faults w) = None.

(** The world once request [r] has been recorded and has taken its entry
    of the fault schedule. *)
Definition served (r : Request) (w : World) : World :=
  match faults w with
  | [] => addRequest r w
  | _ :: fs => setFaults fs (addRequest r w)
  end.

(** ** The healer *)

Module HealerTerms.

Import Healer.

(** A Ready=False condition of the pod has been held for more than ten
    minutes at [now]. *)
Definition readyFalseTooLong (pod : Pod) (now : time.Time) : Prop :=
  ∃ c, c ∈ Conditions (pod_Status pod)
       ∧ cond_Type c = PodReady ∧ cond_Status c = ConditionFalse
       ∧ now - cond_LastTransitionTime c > 10 * time.Minute.

(** The pod has no condition of type Ready at all. *)
Definition noReadyCondition (pod : Pod) : Prop :=
  ∀ c, c ∈ Conditions (pod_Status pod) → cond_Type c ≠ PodReady.

(** The pod is excluded from healing: system namespace, or ignore key
    present with whatever value. *)
Definition excluded (pod : Pod) : Prop :=
  Namespace (pod_Meta pod) = "kube-system"
  ∨ ∃ annotations value,
      Annotations (pod_Meta pod) = Some annotations
      ∧ annotations !! ignoreKey = Some value.

(** The value of the action annotation, if the pod carries one. *)
Definition actionOf (pod : Pod) : option string :=
  match Annotations (pod_Meta pod) with
  | Some annotations => annotations !! actionKey
  | None => None
  end.

(** The pod with the action annotation taken away. *)
Definition withoutAction (pod : Pod) : Pod :=
  {| pod_Meta := withAnnotations (pod_Meta pod)
                   (delete actionKey <$> Annotations (pod_Meta pod));
     pod_Status := pod_Status pod |}.

Definition podKey (pod : Pod) : ObjectKey :=
  (Namespace (pod_Meta pod), Name (pod_Meta pod)).

Definition deleteRequest (pod : Pod) : Request :=
  ReqDeletePod (Namespace (pod_Meta pod)) (Name (pod_Meta pod)).

(** The log lines of [healPod]. *)
Definition infoLine (format : string) (pod : Pod) : LogEntry :=
  {| log_Severity := Info; log_Format := format; log_Args := podArgs pod |}.

Definition attemptLine : Pod -> LogEntry := infoLine "Attempting to heal pod %s/%s".

Definition customLine (action : string) : Pod -> LogEntry :=
  infoLine ("Performing custom " +:+ action +:+ " action for pod %s/%s").

Definition skipLine : Pod -> LogEntry :=
  infoLine "Skipping healing for pod %s/%s due to ignore annotation".

Definition healedLine : Pod -> LogEntry := infoLine "Successfully healed pod %s/%s".

Definition failedLine (pod : Pod) (e : Error) : LogEntry :=
  {| log_Severity := Failure; log_Format := "Failed to heal pod %s/%s: %v";
     log_Args := podArgs pod ++ [AErr e] |}.

(** The line that follows the delete call, by its answer. *)
Definition outcomeLine (pod : Pod) (err : error) : LogEntry :=
  match err with
  | Some e => failedLine pod e
  | None => healedLine pod
  end.

(** The lines logged before the delete call, or before the skip. *)
Definition switchLines (pod : Pod) : list LogEntry :=
  match actionOf pod with
  | Some action =>
      if String.eqb action "restart" then [customLine "restart" pod]
      else if String.eqb action "delete" then [customLine "delete" pod]
      else if String.eqb action "ignore" then [skipLine pod]
      else []
  | None => []
  end.

Definition skipsHealing (pod : Pod) : bool :=
  match actionOf pod with
  | Some action => String.eqb action "ignore"
  | None => false
  end.

Definition addLogs (lines : list LogEntry) (w : World) : World :=
  fold_left (λ w line, addLog line w) lines w.

(** *** Sample pods *)

Definition samplePod (namespace : string) (annotations : option (gmap string string))
    (phase : string) (conditions : list PodCondition) (statuses : list ContainerStatus) : Pod :=
  {| pod_Meta := withAnnotations (namedMeta "web-0" namespace) annotations;
     pod_Status := {| Phase := phase; Conditions := conditions;
                      ContainerStatuses := statuses |} |}.

Definition crashing : list ContainerStatus :=
  [ {| cs_Name := "app"; cs_State := {| Waiting := None |}; cs_RestartCount := 11 |} ].

(** Created at instant 0, still Pending, Ready=False since minute 1. *)
Definition lingeringPod : Pod :=
  samplePod "default" None PodPending
    [ {| cond_Type := PodReady; cond_Status := ConditionFalse;
         cond_LastTransitionTime := 1 * time.Minute |} ] [].

(** End-to-end scenario 3 of the specification. *)
Definition crashingPod : Pod := samplePod "default" None PodRunning [] crashing.

Definition systemPod : Pod := samplePod "kube-system" None PodRunning [] crashing.

Definition annotatedPod (key value : string) : Pod :=
  samplePod "default" (Some {[ key := value ]}) PodRunning [] crashing.

(** *** The rules of [isPodStuck], one by one *)

(** Pending for more than fifteen minutes at [now]. *)
Definition pendingTooLong (pod : Pod) (now : time.Time) : Prop :=
  Phase (pod_Status pod) = PodPending
  ∧ now - CreationTimestamp (pod_Meta pod) > 15 * time.Minute.

(** The container has restarted more than ten times, or waits with reason
    CrashLoopBackOff. *)
Definition crashLoopingContainer (cs : ContainerStatus) : Prop :=
  cs_RestartCount cs > 10
  ∨ ∃ waiting, Waiting (cs_State cs) = Some waiting ∧ Reason waiting = "CrashLoopBackOff".

(** Running, with some container crash-looping. *)
Definition crashLooping (pod : Pod) : Prop :=
  Phase (pod_Status pod) = PodRunning
  ∧ ∃ cs, cs ∈ ContainerStatuses (pod_Status pod) ∧ crashLoopingContainer cs.

(** No Ready=True condition, and a Ready=False condition held for more than
    ten minutes at [now]. *)
Definition notReadyTooLong (pod : Pod) (now : time.Time) : Prop :=
  isPodReady pod = false ∧ readyFalseTooLong pod now.

(** The line [handlePod] logs when [healPod] returns an error. *)
Definition errorLine (pod : Pod) (e : Error) : LogEntry :=
  {| log_Severity := Failure; log_Format := "Error healing pod %s/%s: %v";
     log_Args := podArgs pod ++ [AErr e] |}.

(** The world in which the store holds just [pod]. *)
Definition storedWorld (pod : Pod) : World :=
  setPods (insert (podKey pod) pod) emptyWorld.

End HealerTerms.

(** ** The controller *)

Module ControllerTerms.

Import Controller.

Definition deploymentKey (nginxDeploy : NginxDeployment) : ObjectKey :=
  (Namespace (nd_Meta nginxDeploy), Name (nd_Meta nginxDeploy) +:+ "-deployment").

Definition serviceKey (nginxDeploy : NginxDeployment) : ObjectKey :=
  (Namespace (nd_Meta nginxDeploy), Name (nd_Meta nginxDeploy) +:+ "-service").

(** The Deployment that [reconcileDeployment] submits when it updates
    [foundDeploy]: the object read, with the whole spec replaced. *)
Definition overwritten (foundDeploy : Deployment) (nginxDeploy : NginxDeployment) : Deployment :=
  {| dep_Meta := dep_Meta foundDeploy;
     dep_Spec := dep_Spec (desiredDeployment nginxDeploy);
     dep_Status := dep_Status foundDeploy |}.

(** The two fields the reconciler compares agree with the parent. *)
Definition ownedFieldsMatch (foundDeploy : Deployment) (nginxDeploy : NginxDeployment) : Prop :=
  Replicas (dep_Spec foundDeploy) = Some (spec_Replicas (nd_Spec nginxDeploy))
  ∧ c_Image <$> head (Containers (tmpl_Spec (Template (dep_Spec foundDeploy))))
    = Some (spec_Image (nd_Spec nginxDeploy)).

(** A Deployment as the API server stores it: the replica count is
    defaulted, and validation demands at least one container. *)
Definition admitted (d : Deployment) : Prop :=
  is_Some (Replicas (dep_Spec d))
  ∧ Containers (tmpl_Spec (Template (dep_Spec d))) ≠ [].

(** The parent [nginxDeploy] is stored and converged in [w]: both children
    exist, the workload agrees with the (defaulted) Spec on replica count
    and image, and all the replicas asked for are available. *)
Definition converged (r : NginxDeploymentReconciler) (w : World)
    (nginxDeploy : NginxDeployment) (d : Deployment) (s : Service) : Prop :=
  faults w = []
  ∧ is_Some (nginxDeploymentKind (rScheme r))
  ∧ nginxDeployments w !! keyOf (nd_Meta nginxDeploy) = Some nginxDeploy
  ∧ deployments w !! deploymentKey nginxDeploy = Some d
  ∧ services w !! serviceKey nginxDeploy = Some s
  ∧ ownedFieldsMatch d (setDefaults nginxDeploy)
  ∧ AvailableReplicas (dep_Status d) = spec_Replicas (nd_Spec nginxDeploy).

(** *** Sample objects (end-to-end scenarios 1 and 2 of the specification) *)

Definition operator : NginxDeploymentReconciler :=
  {| rScheme := {| nginxDeploymentKind := Some ("web.example.com/v1", "NginxDeployment") |} |}.

Definition site : NginxDeployment :=
  {| nd_Meta := namedMeta "site" "default";
     nd_Spec := {| spec_Replicas := 3; spec_Port := 8080; spec_Image := "app:v1" |};
     nd_Status := {| st_AvailableReplicas := 0; st_Status := "" |} |}.

Definition siteDeployment (available : Z) : Deployment :=
  {| dep_Meta := dep_Meta (desiredDeployment site);
     dep_Spec := dep_Spec (desiredDeployment site);
     dep_Status := {| AvailableReplicas := available |} |}.

(** The same Deployment scaled by hand to one replica. *)
Definition driftedDeployment : Deployment :=
  {| dep_Meta := dep_Meta (desiredDeployment site);
     dep_Spec := {| Replicas := Some 1;
                    Selector := Selector (dep_Spec (desiredDeployment site));
                    Template := Template (dep_Spec (desiredDeployment site)) |};
     dep_Status := {| AvailableReplicas := 1 |} |}.

Definition freshWorld : World :=
  setNginxDeployments (insert (keyOf (nd_Meta site)) site) emptyWorld.

Definition worldWith (d : Deployment) : World :=
  setServices (insert (serviceKey site) (desiredService site))
    (setDeployments (insert (deploymentKey site) d) freshWorld).

Definition convergedWorld : World := worldWith (siteDeployment 3).

(** The parent after its port was changed to 9090. *)
Definition retargeted : NginxDeployment :=
  {| nd_Meta := nd_Meta site;
     nd_Spec := {| spec_Replicas := 3; spec_Port := 9090; spec_Image := "app:v1" |};
     nd_Status := nd_Status site |}.

(** The parent as [updateStatus] leaves it after reading [d]. *)
Definition projected (d : Deployment) (nginxDeploy : NginxDeployment) : NginxDeployment :=
  {| nd_Meta := nd_Meta nginxDeploy; nd_Spec := nd_Spec nginxDeploy;
     nd_Status := projectedStatus d nginxDeploy |}.

(** The status of a parent all of whose replicas are available. *)
Definition readyStatus (nginxDeploy : NginxDeployment) : NginxDeploymentStatus :=
  {| st_AvailableReplicas := spec_Replicas (nd_Spec nginxDeploy); st_Status := "Ready" |}.

(** The owner reference [SetControllerReference] puts on a child. *)
Definition controllerRef (kind : string * string) (nginxDeploy : NginxDeployment)
    : OwnerReference :=
  {| or_APIVersion := kind.1; or_Kind := kind.2;
     or_Name := Name (nd_Meta nginxDeploy); or_UID := UID (nd_Meta nginxDeploy);
     or_Controller := true; or_BlockOwnerDeletion := true |}.

(** The Service submitted on creation: the literal, owned by the parent. *)
Definition ownedService (kind : string * string) (nginxDeploy : NginxDeployment) : Service :=
  {| svc_Meta := withOwnerReferences (svc_Meta (desiredService nginxDeploy))
                   [controllerRef kind nginxDeploy];
     svc_Spec := svc_Spec (desiredService nginxDeploy) |}.

(** The Deployment submitted on creation: the literal, owned by the parent. *)
Definition ownedDeployment (kind : string * string) (nginxDeploy : NginxDeployment)
    : Deployment :=
  {| dep_Meta := withOwnerReferences (dep_Meta (desiredDeployment nginxDeploy))
                   [controllerRef kind nginxDeploy];
     dep_Spec := dep_Spec (desiredDeployment nginxDeploy);
     dep_Status := dep_Status (desiredDeployment nginxDeploy) |}.

Definition withStatus (nginxDeploy : NginxDeployment) (status : NginxDeploymentStatus)
    : NginxDeployment :=
  {| nd_Meta := nd_Meta nginxDeploy; nd_Spec := nd_Spec nginxDeploy; nd_Status := status |}.

(** The log lines of [Reconcile]. *)
Definition noticeLine (message : string) : LogEntry :=
  {| log_Severity := Info; log_Format := message; log_Args := [] |}.

Definition failureLine (message : string) (e : Error) : LogEntry :=
  {| log_Severity := Failure; log_Format := message; log_Args := [AErr e] |}.

(** The request is a write to a child or a delete. *)
Definition writesChild (r : Request) : bool :=
  match r with
  | ReqCreateDeployment _ | ReqUpdateDeployment _ | ReqCreateService _ | ReqDeletePod _ _ => true
  | _ => false
  end.

(** From [w] to [w'] the requests [new] were issued and answered by the
    store, which now holds the given tables; the pods are as they were. *)
Definition after (w w' : World) (new : list Request)
    (parents : gmap (string * string) NginxDeployment)
    (workloads : gmap (string * string) Deployment)
    (endpoints : gmap (string * string) Service) : Prop :=
  faults w' = []
  ∧ requests w' = requests w ++ new
  ∧ nginxDeployments w' = parents
  ∧ deployments w' = workloads
  ∧ services w' = endpoints
  ∧ pods w' = pods w.

(** Nothing in the store differs between [w] and [w']. *)
Definition sameStore (w w' : World) : Prop :=
  pods w' = pods w
  ∧ nginxDeployments w' = nginxDeployments w
  ∧ deployments w' = deployments w
  ∧ services w' = services w.

Definition isDelete (r : Request) : bool :=
  match r with
  | ReqDeletePod _ _ => true
  | _ => false
  end.

(** The requests [new] hold no delete and at most [k] writes. *)
Definition atMostWrites (k : nat) (new : list Request) : Prop :=
  List.filter isDelete new = [] ∧ (length (List.filter mutating new) <= k)%nat.

End ControllerTerms.

(** * Properties *)

(** ** Time *)

Lemma Since_gt (now t bound : Z) :
  time.minDuration <= bound < time.maxDuration ->
  (time.Since now t >? bound) = (now - t >? bound).
Proof.
  intros Hb. unfold time.Since, time.Sub, time.minDuration, time.maxDuration in *.
  destruct (Z.gtb_spec (now - t) (2 ^ 63 - 1)) as [Hhi | Hhi].
  - destruct (Z.gtb_spec (2 ^ 63 - 1) bound), (Z.gtb_spec (now - t) bound); lia || reflexivity.
  - destruct (Z.ltb_spec (now - t) (- 2 ^ 63)) as [Hlo | Hlo].
    + destruct (Z.gtb_spec (- 2 ^ 63) bound), (Z.gtb_spec (now - t) bound); lia || reflexivity.
    + reflexivity.
Qed.

Lemma fifteen_minutes_in_range :
  time.minDuration <= 15 * time.Minute < time.maxDuration.
Proof. vm_compute. split; [discriminate | reflexivity]. Qed.

Lemma ten_minutes_in_range :
  time.minDuration <= 10 * time.Minute < time.maxDuration.
Proof. vm_compute. split; [discriminate | reflexivity]. Qed.

(** ** The healer *)

Section HealerFacts.

Import Healer HealerTerms.

Lemma anyReadyTrue_false_iff (conditions : list PodCondition) :
  anyReadyTrue conditions = false
  ↔ ∀ c, c ∈ conditions → ¬ (cond_Type c = PodReady ∧ cond_Status c = ConditionTrue).
Proof.
  induction conditions as [| c cs IH]; simpl.
  - split; [intros _ c Hc; inversion Hc | reflexivity].
  - destruct (String.eqb_spec (cond_Type c) PodReady) as [Ht | Ht];
      destruct (String.eqb_spec (cond_Status c) ConditionTrue) as [Hs | Hs]; simpl.
    + split; [discriminate |]. intros H. exfalso. eapply H; [left | auto].
    + rewrite IH. split.
      * intros H c' Hc'. apply elem_of_cons in Hc' as [-> | Hc']; [tauto | auto].
      * intros H c' Hc'. apply H. by right.
    + rewrite IH. split.
      * intros H c' Hc'. apply elem_of_cons in Hc' as [-> | Hc']; [tauto | auto].
      * intros H c' Hc'. apply H. by right.
    + rewrite IH. split.
      * intros H c' Hc'. apply elem_of_cons in Hc' as [-> | Hc']; [tauto | auto].
      * intros H c' Hc'. apply H. by right.
Qed.

Lemma notReadyScan_Some_iff (pod : Pod) (now : time.Time) (conditions : list PodCondition) :
  is_Some (notReadyScan pod now conditions)
  ↔ ∃ c, c ∈ conditions
         ∧ cond_Type c = PodReady ∧ cond_Status c = ConditionFalse
         ∧ now - cond_LastTransitionTime c > 10 * time.Minute.
Proof.
  induction conditions as [| c cs IH]; simpl.
  - split; [intros [? ?]; discriminate | intros (c & Hc & _); inversion Hc].
  - rewrite (Since_gt _ _ _ ten_minutes_in_range).
    destruct (String.eqb_spec (cond_Type c) PodReady) as [Ht | Ht];
      destruct (String.eqb_spec (cond_Status c) ConditionFalse) as [Hs | Hs]; simpl;
      try destruct (Z.gtb_spec (now - cond_LastTransitionTime c) (10 * time.Minute)) as [Hd | Hd].
    1: { split; [intros _ | eauto]. exists c. repeat split; [left | auto | auto | lia]. }
    all: rewrite IH; split;
      [ intros (c' & Hc' & H); exists c'; split; [by right | exact H]
      | intros (c' & Hc' & Ht' & Hs' & Hd');
        apply elem_of_cons in Hc' as [-> | Hc'];
        [ first [congruence | lia] | exists c'; auto ] ].
Qed.

(** The three sites, one by one. *)
Lemma classify_StuckPending_iff (pod : Pod) (now : time.Time) :
  classify pod now = StuckPending
  ↔ Phase (pod_Status pod) = PodPending
    ∧ now - CreationTimestamp (pod_Meta pod) > 15 * time.Minute.
Proof.
  unfold classify, stuckSite.
  rewrite (Since_gt _ _ _ fifteen_minutes_in_range).
  destruct (String.eqb_spec (Phase (pod_Status pod)) PodPending) as [Hp | Hp]; simpl.
  - destruct (Z.gtb_spec (now - CreationTimestamp (pod_Meta pod)) (15 * time.Minute)).
    + split; [intros _; split; [done | lia] | done].
    + split; [| intros [_ ?]; lia].
      destruct (if String.eqb _ _ then _ else _); [discriminate |].
      destruct (negb _); [| discriminate].
      destruct (notReadyScan _ _ _); discriminate.
  - split; [| tauto].
    destruct (if String.eqb _ _ then _ else _); [discriminate |].
    destruct (negb _); [| discriminate].
    destruct (notReadyScan _ _ _); discriminate.
Qed.

Lemma classify_StuckNotReady_inv (pod : Pod) (now : time.Time) :
  classify pod now = StuckNotReady →
  isPodReady pod = false ∧ readyFalseTooLong pod now.
Proof.
  unfold classify, stuckSite, readyFalseTooLong.
  destruct (_ && _); [discriminate |].
  destruct (if String.eqb _ _ then _ else _); [discriminate |].
  destruct (isPodReady pod); simpl; [discriminate |].
  destruct (notReadyScan pod now _) eqn:Hscan; [| discriminate].
  intros _. split; [done |].
  apply (proj1 (notReadyScan_Some_iff pod now _)). eauto.
Qed.

(** A Pending pod that is not past the pending threshold skips the two
    first rules and is judged by the not-ready rule alone. *)
Lemma classify_young_pending (pod : Pod) (now : time.Time) :
  Phase (pod_Status pod) = PodPending →
  now - CreationTimestamp (pod_Meta pod) <= 15 * time.Minute →
  classify pod now =
    match (if isPodReady pod then None
           else notReadyScan pod now (Conditions (pod_Status pod))) with
    | Some _ => StuckNotReady
    | None => Healthy
    end.
Proof.
  intros Hp Hage. unfold classify, stuckSite.
  rewrite (Since_gt _ _ _ fifteen_minutes_in_range), Hp. simpl.
  destruct (Z.gtb_spec (now - CreationTimestamp (pod_Meta pod)) (15 * time.Minute)); [lia |].
  destruct (isPodReady pod); simpl; [done |].
  by destruct (notReadyScan pod now _).
Qed.

(** What [isPodStuck] answers is whether the verdict is not Healthy. *)
Lemma isPodStuck_classify (pod : Pod) (now : time.Time) (w : World) :
  (isPodStuck pod now w).1 = Val (negb (bool_decide (classify pod now = Healthy))).
Proof.
  unfold isPodStuck, classify.
  destruct (stuckSite pod now) as [[v line] |] eqn:Hsite; [| done].
  assert (v ≠ Healthy) as Hv.
  { revert Hsite. unfold stuckSite.
    destruct (_ && _); [congruence |].
    destruct (if String.eqb _ _ then _ else _); [congruence |].
    destruct (negb _); [| congruence].
    destruct (notReadyScan _ _ _); congruence. }
  rewrite bool_decide_eq_false_2 by done. done.
Qed.

(** *** The executor *)

Lemma actionSwitch_spec (pod : Pod) (w : World) :
  actionSwitch pod w = (Val (skipsHealing pod), addLogs (switchLines pod) w).
Proof.
  unfold actionSwitch, skipsHealing, switchLines, actionOf.
  destruct (Annotations (pod_Meta pod)) as [annotations |]; [| done].
  destruct (annotations !! actionKey) as [action |]; [| done].
  destruct (String.eqb_spec action "restart") as [-> | _]; [done |].
  destruct (String.eqb_spec action "delete") as [-> | _]; [done |].
  destruct (String.eqb_spec action "ignore") as [-> | _]; done.
Qed.

(** The delete call always answers, is recorded once, and removes the pod
    exactly when it answers without error. *)
Lemma clientDeletePod_spec (namespace name : string) (w : World) :
  ∃ err w',
    clientDeletePod namespace name w = (Val err, w')
    ∧ requests w' = requests w ++ [ReqDeletePod namespace name]
    ∧ logs w' = logs w
    ∧ pods w' = match err with
                | Some _ => pods w
                | None => delete (namespace, name) (pods w)
                end
    ∧ err = match hd None (faults w) with
            | Some e => Some e
            | None => match pods w !! (namespace, name) with
                      | Some _ => None
                      | None => Some ErrNotFound
                      end
            end.
Proof.
  unfold clientDeletePod, issue, mbind, Prog_bind, mret, Prog_ret, getWorld, modifyWorld.
  destruct (faults w) as [| [e |] fs] eqn:Hf; simpl; rewrite ?Hf; simpl.
  - destruct (pods w !! (namespace, name)) eqn:Hp; simpl; rewrite ?Hp; eauto 10.
  - eauto 10.
  - destruct (pods w !! (namespace, name)) eqn:Hp; simpl; rewrite ?Hp; eauto 10.
Qed.

(** Logging before the delete call does not change its answer. *)
Lemma clientDeletePod_addLogs (namespace name : string) (lines : list LogEntry) (w : World) :
  (clientDeletePod namespace name (addLogs lines w)).1 = (clientDeletePod namespace name w).1.
Proof.
  revert w. induction lines as [| line lines IH]; intros w; [done |].
  simpl. rewrite IH.
  unfold clientDeletePod, issue, mbind, Prog_bind, mret, Prog_ret, getWorld, modifyWorld.
  simpl. destruct (faults w) as [| [e |] fs]; simpl; try done;
    destruct (pods w !! (namespace, name)); done.
Qed.

Lemma requests_addLogs (lines : list LogEntry) (w : World) :
  requests (addLogs lines w) = requests w.
Proof. revert w. induction lines as [| l ls IH]; intros w; [done | simpl; by rewrite IH]. Qed.

Lemma pods_addLogs (lines : list LogEntry) (w : World) :
  pods (addLogs lines w) = pods w.
Proof. revert w. induction lines as [| l ls IH]; intros w; [done | simpl; by rewrite IH]. Qed.

Lemma faults_addLogs (lines : list LogEntry) (w : World) :
  faults (addLogs lines w) = faults w.
Proof. revert w. induction lines as [| l ls IH]; intros w; [done | simpl; by rewrite IH]. Qed.

(** [healPod], path by path. *)
Lemma healPod_skip (pod : Pod) (w : World) :
  skipsHealing pod = true →
  healPod pod w = (Val None, addLogs (attemptLine pod :: switchLines pod) w).
Proof.
  intros Hskip. unfold healPod, logf, modifyWorld, mbind, Prog_bind at 1 2. simpl.
  rewrite actionSwitch_spec, Hskip. done.
Qed.

Lemma healPod_delete (pod : Pod) (w : World) :
  skipsHealing pod = false →
  ∃ err w1,
    clientDeletePod (Namespace (pod_Meta pod)) (Name (pod_Meta pod))
      (addLogs (attemptLine pod :: switchLines pod) w) = (Val err, w1)
    ∧ healPod pod w = (Val err, addLog (outcomeLine pod err) w1).
Proof.
  intros Hskip.
  destruct (clientDeletePod_spec (Namespace (pod_Meta pod)) (Name (pod_Meta pod))
              (addLogs (attemptLine pod :: switchLines pod) w)) as (err & w1 & Hdel & _).
  exists err, w1. split; [exact Hdel |].
  unfold healPod, logf, modifyWorld, mbind, Prog_bind at 1 2. simpl.
  rewrite actionSwitch_spec, Hskip. unfold mbind, Prog_bind at 1.
  match goal with
  | |- context [clientDeletePod ?a ?b ?c] =>
      change (clientDeletePod a b c)
        with (clientDeletePod a b (addLogs (attemptLine pod :: switchLines pod) w))
  end.
  rewrite Hdel. by destruct err.
Qed.

(** *** Classification *)

(** C3, as the code has it.  For every pod with Phase=Pending the verdict is
    StuckPending exactly when now − creationTimestamp is strictly greater
    than 15 minutes.  A Pending pod whose age is at most 15 minutes is
    Healthy unless the not-ready rule applies to it (no Ready=True condition
    and a Ready=False condition held for more than 10 minutes), in which
    case the verdict is StuckNotReady. *)
Theorem pending_classification (pod : Pod) (now : time.Time) :
  Phase (pod_Status pod) = PodPending →
  (classify pod now = StuckPending
   ↔ now - CreationTimestamp (pod_Meta pod) > 15 * time.Minute)
  ∧ (now - CreationTimestamp (pod_Meta pod) <= 15 * time.Minute →
     (classify pod now = StuckNotReady
      ↔ isPodReady pod = false ∧ readyFalseTooLong pod now)
     ∧ (classify pod now = Healthy
        ↔ ¬ (isPodReady pod = false ∧ readyFalseTooLong pod now))).
Proof.
  intros Hphase. split.
  - rewrite classify_StuckPending_iff. tauto.
  - intros Hage. rewrite (classify_young_pending pod now Hphase Hage).
    unfold readyFalseTooLong.
    rewrite <- (notReadyScan_Some_iff pod now (Conditions (pod_Status pod))).
    destruct (isPodReady pod); [| destruct (notReadyScan pod now _) as [line |]]; simpl.
    + split; split; [discriminate | intros [? _]; discriminate | | done].
      intros _ [? _]. discriminate.
    + split; split; [eauto | done | discriminate |].
      intros H. exfalso. apply H. eauto.
    + split; split; [discriminate | | | done].
      * intros [_ [? ?]]. discriminate.
      * intros _ [_ [? ?]]. discriminate.
Qed.

Lemma pending_classification_at_lingeringPod :
  Phase (pod_Status lingeringPod) = PodPending
  ∧ (classify lingeringPod (16 * time.Minute) = StuckPending
     ↔ 16 * time.Minute - CreationTimestamp (pod_Meta lingeringPod) > 15 * time.Minute).
Proof.
  split; [reflexivity |].
  apply (pending_classification lingeringPod (16 * time.Minute)). reflexivity.
Defined.

(** The claim C3 fails for the second half: twelve minutes after its
    creation, a Pending pod whose Ready condition has been False for eleven
    minutes is within the pending threshold and is not Healthy. *)
Lemma pending_within_threshold_not_healthy :
  Phase (pod_Status lingeringPod) = PodPending
  ∧ 12 * time.Minute - CreationTimestamp (pod_Meta lingeringPod) <= 15 * time.Minute
  ∧ classify lingeringPod (12 * time.Minute) = StuckNotReady
  ∧ (isPodStuck lingeringPod (12 * time.Minute) emptyWorld).1 = Val true.
Proof. repeat split. vm_compute. discriminate. Qed.

(** C8.  A pod with no condition of type Ready (an empty condition list in
    particular) is never StuckNotReady; that verdict is given only when the
    pod has no Ready=True condition and some Ready=False condition has been
    held for more than 10 minutes. *)
Theorem no_ready_condition_never_not_ready (pod : Pod) (now : time.Time) :
  (noReadyCondition pod → classify pod now ≠ StuckNotReady)
  ∧ (Conditions (pod_Status pod) = [] → classify pod now ≠ StuckNotReady)
  ∧ (classify pod now = StuckNotReady →
     isPodReady pod = false ∧ readyFalseTooLong pod now).
Proof.
  assert (noReadyCondition pod → classify pod now ≠ StuckNotReady) as Hnone.
  { intros Hno Hv. apply classify_StuckNotReady_inv in Hv as [_ (c & Hc & Ht & _)].
    exact (Hno c Hc Ht). }
  split; [exact Hnone | split].
  - intros Hnil. apply Hnone. intros c Hc. rewrite Hnil in Hc. inversion Hc.
  - apply classify_StuckNotReady_inv.
Qed.

Lemma no_ready_condition_at_crashingPod :
  Conditions (pod_Status crashingPod) = []
  ∧ classify crashingPod (20 * time.Minute) ≠ StuckNotReady.
Proof.
  split; [reflexivity |].
  apply (no_ready_condition_never_not_ready crashingPod (20 * time.Minute)). reflexivity.
Defined.

(** *** Exclusions *)

(** C5.  A pod in the namespace kube-system, or carrying the annotation key
    healing.kubernetes.io/ignore with any value, is dropped by [handlePod]
    before it is classified: whatever its state and the time, nothing is
    logged, no request (so no delete call) is issued and the store is left
    as it was. *)
Theorem excluded_pod_untouched (pod : Pod) (now : time.Time) (w : World) :
  excluded pod → handlePod pod now w = (Val tt, w).
Proof.
  intros [Hns | (annotations & value & Hann & Hkey)]; unfold handlePod.
  - rewrite Hns. reflexivity.
  - unfold hasIgnoreAnnotation. rewrite Hann, Hkey.
    by destruct (String.eqb _ _).
Qed.

Lemma excluded_pod_untouched_at_samples :
  (excluded systemPod ∧ excluded (annotatedPod ignoreKey "false"))
  ∧ classify systemPod 0 = StuckCrashLoop
  ∧ handlePod systemPod 0 emptyWorld = (Val tt, emptyWorld)
  ∧ handlePod (annotatedPod ignoreKey "false") 0 emptyWorld = (Val tt, emptyWorld).
Proof.
  assert (excluded systemPod) as H1 by (left; reflexivity).
  assert (excluded (annotatedPod ignoreKey "false")) as H2.
  { right. exists {[ ignoreKey := "false" ]}, "false". split; reflexivity. }
  split; [exact (conj H1 H2) | split; [reflexivity | split]].
  - exact (excluded_pod_untouched systemPod 0 emptyWorld H1).
  - exact (excluded_pod_untouched (annotatedPod ignoreKey "false") 0 emptyWorld H2).
Defined.

(** *** The action annotation *)

Lemma skipsHealing_of_action (pod : Pod) (annotations : gmap string string) (action : string) :
  Annotations (pod_Meta pod) = Some annotations →
  annotations !! actionKey = Some action →
  actionOf pod = Some action.
Proof. intros Hann Hact. unfold actionOf. by rewrite Hann. Qed.

(** C6.  On a pod carrying the annotation healing.kubernetes.io/action:
    the value "ignore" makes [healPod] log the skip and return nil with no
    request issued and the store untouched; the values "restart" and
    "delete" are logged as custom actions, after which the very same delete
    call is issued, once, and its answer is logged and returned.  That call
    deletes the object: the pod is removed from the store exactly when the
    call answers without error, which it does whenever the store answers
    and holds the pod, and no other pod is touched. *)
Theorem action_annotation_override
    (pod : Pod) (annotations : gmap string string) (action : string) (w : World) :
  Annotations (pod_Meta pod) = Some annotations →
  annotations !! actionKey = Some action →
  (action = "ignore" →
     healPod pod w = (Val None, addLogs [attemptLine pod; skipLine pod] w)
     ∧ requests (healPod pod w).2 = requests w
     ∧ pods (healPod pod w).2 = pods w)
  ∧ (action = "restart" ∨ action = "delete" →
     ∃ err w1,
       clientDeletePod (Namespace (pod_Meta pod)) (Name (pod_Meta pod))
         (addLogs [attemptLine pod; customLine action pod] w) = (Val err, w1)
       ∧ healPod pod w = (Val err, addLog (outcomeLine pod err) w1)
       ∧ requests (healPod pod w).2 = requests w ++ [deleteRequest pod]
       ∧ pods (healPod pod w).2 = match err with
                                  | Some _ => pods w
                                  | None => delete (podKey pod) (pods w)
                                  end
       ∧ (answered w → pods (healPod pod w).2 = delete (podKey pod) (pods w))
       ∧ (answered w → is_Some (pods w !! podKey pod) →
          err = None ∧ pods (healPod pod w).2 !! podKey pod = None)).
Proof.
  intros Hann Hact.
  pose proof (skipsHealing_of_action pod annotations action Hann Hact) as Hof.
  split.
  - intros ->.
    assert (healPod pod w = (Val None, addLogs [attemptLine pod; skipLine pod] w)) as Heq.
    { rewrite healPod_skip; unfold skipsHealing, switchLines; rewrite Hof; done. }
    rewrite Heq. done.
  - intros Hcustom.
    assert (skipsHealing pod = false ∧ switchLines pod = [customLine action pod]) as [Hskip Hlines].
    { unfold skipsHealing, switchLines. rewrite Hof. by destruct Hcustom as [-> | ->]. }
    destruct (healPod_delete pod w Hskip) as (err & w1 & Hdel & Heal).
    rewrite Hlines in Hdel. exists err, w1. split; [exact Hdel | split; [exact Heal |]].
    rewrite Heal. cbn [fst snd].
    destruct (clientDeletePod_spec (Namespace (pod_Meta pod)) (Name (pod_Meta pod))
                (addLogs [attemptLine pod; customLine action pod] w))
      as (err' & w1' & Hdel' & Hreq & _ & Hpods & Herr).
    rewrite Hdel in Hdel'. injection Hdel' as <- <-.
    rewrite requests_addLogs in Hreq. rewrite pods_addLogs in Hpods, Herr.
    rewrite faults_addLogs in Herr.
    change (pods (addLog (outcomeLine pod err) w1)) with (pods w1).
    change (requests (addLog (outcomeLine pod err) w1)) with (requests w1).
    unfold podKey, answered.
    split; [exact Hreq |]. split; [exact Hpods |]. split.
    + intros Hans. rewrite Hans in Herr. rewrite Hpods.
      destruct (pods w !! (Namespace (pod_Meta pod), Name (pod_Meta pod))) eqn:Hpresent;
        rewrite Herr; [done |].
      symmetry. by apply delete_id.
    + intros Hans [stored Hstored]. rewrite Hans, Hstored in Herr.
      split; [exact Herr |]. rewrite Hpods, Herr. apply lookup_delete_eq.
Qed.

Lemma action_annotation_override_at_restart :
  (Annotations (pod_Meta (annotatedPod actionKey "restart"))
     = Some {[ actionKey := "restart" ]}
   ∧ ({[ actionKey := "restart" ]} : gmap string string) !! actionKey = Some "restart"
   ∧ answered (storedWorld (annotatedPod actionKey "restart"))
   ∧ pods (storedWorld (annotatedPod actionKey "restart"))
       !! podKey (annotatedPod actionKey "restart")
     = Some (annotatedPod actionKey "restart"))
  ∧ requests (healPod (annotatedPod actionKey "restart")
                (storedWorld (annotatedPod actionKey "restart"))).2
    = [deleteRequest (annotatedPod actionKey "restart")]
  ∧ (healPod (annotatedPod actionKey "restart")
       (storedWorld (annotatedPod actionKey "restart"))).1 = Val None
  ∧ pods (healPod (annotatedPod actionKey "restart")
            (storedWorld (annotatedPod actionKey "restart"))).2
      !! podKey (annotatedPod actionKey "restart")
    = None.
Proof.
  split; [repeat split |].
  destruct (action_annotation_override (annotatedPod actionKey "restart")
              {[ actionKey := "restart" ]} "restart"
              (storedWorld (annotatedPod actionKey "restart")) eq_refl eq_refl)
    as [_ Hcustom].
  destruct (Hcustom (or_introl eq_refl)) as (err & w1 & _ & Heal & Hreq & _ & _ & Hgone).
  destruct (Hgone eq_refl (ex_intro _ _ eq_refl)) as [Herr Habsent].
  split; [exact Hreq |]. split; [| exact Habsent].
  rewrite Heal, Herr. reflexivity.
Defined.

(** C10.  A value of healing.kubernetes.io/action other than "restart",
    "delete" and "ignore" falls through the switch: [healPod] does exactly
    what it does on the same pod without the annotation, and issues the
    delete call. *)
Theorem unrecognised_action_falls_through
    (pod : Pod) (annotations : gmap string string) (action : string) (w : World) :
  Annotations (pod_Meta pod) = Some annotations →
  annotations !! actionKey = Some action →
  action ≠ "restart" → action ≠ "delete" → action ≠ "ignore" →
  healPod pod w = healPod (withoutAction pod) w
  ∧ requests (healPod pod w).2 = requests w ++ [deleteRequest pod].
Proof.
  intros Hann Hact Hr Hd Hi.
  pose proof (skipsHealing_of_action pod annotations action Hann Hact) as Hof.
  assert (actionOf (withoutAction pod) = None) as Hwithout.
  { unfold actionOf, withoutAction. simpl. rewrite Hann. simpl. apply lookup_delete_eq. }
  assert (skipsHealing pod = false ∧ switchLines pod = []) as [Hskip Hlines].
  { unfold skipsHealing, switchLines. rewrite Hof.
    destruct (String.eqb_spec action "restart"); [done |].
    destruct (String.eqb_spec action "delete"); [done |].
    destruct (String.eqb_spec action "ignore"); done. }
  assert (skipsHealing (withoutAction pod) = false ∧ switchLines (withoutAction pod) = [])
    as [Hskip' Hlines'].
  { unfold skipsHealing, switchLines. by rewrite Hwithout. }
  destruct (healPod_delete pod w Hskip) as (err & w1 & Hdel & Heal).
  destruct (healPod_delete (withoutAction pod) w Hskip') as (err' & w1' & Hdel' & Heal').
  rewrite Hlines in Hdel. rewrite Hlines' in Hdel'.
  change (clientDeletePod (Namespace (pod_Meta pod)) (Name (pod_Meta pod))
            (addLogs [attemptLine pod] w) = (Val err', w1')) in Hdel'.
  rewrite Hdel in Hdel'. injection Hdel' as <- <-.
  split; [rewrite Heal, Heal'; reflexivity |].
  rewrite Heal. simpl.
  destruct (clientDeletePod_spec (Namespace (pod_Meta pod)) (Name (pod_Meta pod))
              (addLogs [attemptLine pod] w)) as (err'' & w1'' & Hdel'' & Hreq & _).
  rewrite Hdel in Hdel''. injection Hdel'' as _ <-. exact Hreq.
Qed.

Lemma unrecognised_action_at_pause :
  (Annotations (pod_Meta (annotatedPod actionKey "pause")) = Some {[ actionKey := "pause" ]}
   ∧ ({[ actionKey := "pause" ]} : gmap string string) !! actionKey = Some "pause"
   ∧ "pause" ≠ "restart" ∧ "pause" ≠ "delete" ∧ "pause" ≠ "ignore")
  ∧ healPod (annotatedPod actionKey "pause") emptyWorld
    = healPod (withoutAction (annotatedPod actionKey "pause")) emptyWorld
  ∧ requests (healPod (annotatedPod actionKey "pause") emptyWorld).2
    = requests emptyWorld ++ [deleteRequest (annotatedPod actionKey "pause")].
Proof.
  assert ("pause" ≠ "restart") as H1 by discriminate.
  assert ("pause" ≠ "delete") as H2 by discriminate.
  assert ("pause" ≠ "ignore") as H3 by discriminate.
  split; [repeat split; assumption |].
  exact (unrecognised_action_falls_through (annotatedPod actionKey "pause")
           {[ actionKey := "pause" ]} "pause" emptyWorld eq_refl eq_refl H1 H2 H3).
Defined.

(** *** Deleting a pod that is already gone *)

(** C1, as the code has it.  Unless the action annotation says "ignore",
    [healPod] returns exactly what the delete call answers: every error of
    the delete call, not-found included, is logged and returned as a
    failure, and nil is returned only when the delete call succeeded.  In
    particular a pod absent from the store yields the not-found error. *)
Theorem healPod_returns_delete_answer (pod : Pod) (w : World) :
  skipsHealing pod = false →
  (healPod pod w).1
    = (clientDeletePod (Namespace (pod_Meta pod)) (Name (pod_Meta pod)) w).1
  ∧ (answered w → pods w !! podKey pod = None →
     (healPod pod w).1 = Val (Some ErrNotFound))
  ∧ (∀ e, (healPod pod w).1 = Val (Some e) →
     last (logs (healPod pod w).2) = Some (failedLine pod e))
  ∧ ((healPod pod w).1 = Val None →
     answered w ∧ is_Some (pods w !! podKey pod)).
Proof.
  intros Hskip.
  destruct (healPod_delete pod w Hskip) as (err & w1 & Hdel & Heal).
  pose proof (clientDeletePod_addLogs (Namespace (pod_Meta pod)) (Name (pod_Meta pod))
                (attemptLine pod :: switchLines pod) w) as Hsame.
  rewrite Hdel in Hsame. simpl in Hsame.
  destruct (clientDeletePod_spec (Namespace (pod_Meta pod)) (Name (pod_Meta pod)) w)
    as (err0 & w0 & Hdel0 & _ & _ & _ & Herr0).
  rewrite Hdel0 in Hsame. simpl in Hsame. injection Hsame as ->.
  rewrite Heal, Hdel0. simpl. unfold answered, podKey.
  split; [done | split; [| split]].
  - intros Hans Habsent. rewrite Herr0, Hans, Habsent. done.
  - intros e [= ->]. unfold addLog. simpl. by rewrite last_snoc.
  - intros [= Hnone]. rewrite Hnone in Herr0.
    destruct (hd None (faults w)); [discriminate |].
    destruct (pods w !! _); [eauto | discriminate].
Qed.

Lemma healPod_returns_delete_answer_at_crashingPod :
  skipsHealing crashingPod = false
  ∧ (healPod crashingPod emptyWorld).1
    = (clientDeletePod (Namespace (pod_Meta crashingPod)) (Name (pod_Meta crashingPod))
         emptyWorld).1.
Proof.
  split; [reflexivity |].
  exact (proj1 (healPod_returns_delete_answer crashingPod emptyWorld eq_refl)).
Defined.

(** The claim C1 fails: asked to delete a pod that the store no longer
    holds, the executor gets the not-found answer and returns it as an
    error, logged as a failure. *)
Lemma delete_of_absent_pod_is_reported :
  pods emptyWorld !! podKey crashingPod = None
  ∧ (clientDeletePod (Namespace (pod_Meta crashingPod)) (Name (pod_Meta crashingPod))
       emptyWorld).1 = Val (Some ErrNotFound)
  ∧ (healPod crashingPod emptyWorld).1 = Val (Some ErrNotFound)
  ∧ last (logs (healPod crashingPod emptyWorld).2) = Some (failedLine crashingPod ErrNotFound).
Proof. repeat split. Qed.

(** End-to-end scenario 3: a Running pod in the default namespace, one
    container restarted 11 times, no annotation, present in the store: the
    verdict is StuckCrashLoop and [handlePod] issues exactly one delete call,
    which removes the pod. *)
Example crashing_pod_is_deleted :
  let stored := setPods (insert (podKey crashingPod) crashingPod) emptyWorld in
  classify crashingPod 0 = StuckCrashLoop
  ∧ requests (handlePod crashingPod 0 stored).2 = [deleteRequest crashingPod]
  ∧ pods (handlePod crashingPod 0 stored).2 !! podKey crashingPod = None.
Proof. repeat split. Qed.

End HealerFacts.

(** ** The controller *)

Section ControllerFacts.

Import Controller ControllerTerms.

Lemma issue_spec (r : Request) (w : World) :
  issue r w = (Val (hd None (faults w)), served r w).
Proof. unfold issue, served. by destruct (faults w). Qed.

Lemma served_requests (r : Request) (w : World) :
  requests (served r w) = requests w ++ [r].
Proof. unfold served. by destruct (faults w). Qed.

Lemma served_faults (r : Request) (w : World) :
  faults (served r w) = tl (faults w).
Proof. unfold served. by destruct (faults w) eqn:E; simpl; rewrite ?E. Qed.

Lemma served_faultFree (r : Request) (w : World) :
  faults w = [] → served r w = addRequest r w.
Proof. unfold served. by intros ->. Qed.

Lemma served_store (r : Request) (w : World) :
  pods (served r w) = pods w
  ∧ nginxDeployments (served r w) = nginxDeployments w
  ∧ deployments (served r w) = deployments w
  ∧ services (served r w) = services w
  ∧ logs (served r w) = logs w.
Proof. unfold served. by destruct (faults w). Qed.

(** A Get, whatever the table. *)
Lemma getObject_spec {A} (r : Request) (table : World → gmap (string * string) A)
    (key : string * string) (w : World) :
  table (served r w) = table w →
  getObject r table key w =
    (Val match hd None (faults w) with
         | Some e => inl e
         | None => match table w !! key with
                   | Some o => inr o
                   | None => inl ErrNotFound
                   end
         end,
     served r w).
Proof.
  intros Htable. unfold getObject, mbind, Prog_bind. rewrite issue_spec.
  destruct (hd None (faults w)); [done |].
  unfold getWorld. rewrite Htable. by destruct (table w !! key).
Qed.

Lemma clientGetDeployment_spec (key : string * string) (w : World) :
  clientGetDeployment key w =
    (Val match hd None (faults w) with
         | Some e => inl e
         | None => match deployments w !! key with
                   | Some o => inr o
                   | None => inl ErrNotFound
                   end
         end,
     served (ReqGetDeployment key) w).
Proof. apply getObject_spec, served_store. Qed.

Lemma clientGetService_spec (key : string * string) (w : World) :
  clientGetService key w =
    (Val match hd None (faults w) with
         | Some e => inl e
         | None => match services w !! key with
                   | Some o => inr o
                   | None => inl ErrNotFound
                   end
         end,
     served (ReqGetService key) w).
Proof. apply getObject_spec, served_store. Qed.

Lemma clientGetNginxDeployment_spec (key : string * string) (w : World) :
  clientGetNginxDeployment key w =
    (Val match hd None (faults w) with
         | Some e => inl e
         | None => match nginxDeployments w !! key with
                   | Some o => inr o
                   | None => inl ErrNotFound
                   end
         end,
     served (ReqGetNginxDeployment key) w).
Proof. apply getObject_spec, served_store. Qed.

(** The writes: each answers, and is recorded once. *)
Lemma clientCreateService_spec (s : Service) (w : World) :
  ∃ err w',
    clientCreateService s w = (Val err, w')
    ∧ requests w' = requests w ++ [ReqCreateService s]
    ∧ logs w' = logs w.
Proof.
  unfold clientCreateService, mbind, Prog_bind. rewrite issue_spec.
  pose proof (served_requests (ReqCreateService s) w) as Hreq.
  destruct (served_store (ReqCreateService s) w) as (_ & _ & _ & _ & Hlog).
  destruct (hd None (faults w)); [by eauto |].
  unfold getWorld. destruct (services _ !! _); by eauto.
Qed.

Lemma clientCreateDeployment_spec (d : Deployment) (w : World) :
  ∃ err w',
    clientCreateDeployment d w = (Val err, w')
    ∧ requests w' = requests w ++ [ReqCreateDeployment d]
    ∧ logs w' = logs w.
Proof.
  unfold clientCreateDeployment, mbind, Prog_bind. rewrite issue_spec.
  pose proof (served_requests (ReqCreateDeployment d) w) as Hreq.
  destruct (served_store (ReqCreateDeployment d) w) as (_ & _ & _ & _ & Hlog).
  destruct (hd None (faults w)); [by eauto |].
  unfold getWorld. destruct (deployments _ !! _); by eauto.
Qed.

Lemma clientUpdateDeployment_spec (d : Deployment) (w : World) :
  ∃ err w',
    clientUpdateDeployment d w = (Val err, w')
    ∧ requests w' = requests w ++ [ReqUpdateDeployment d]
    ∧ logs w' = logs w
    ∧ (faults w = [] → ∀ old, deployments w !! keyOf (dep_Meta d) = Some old →
       err = None
       ∧ deployments w' = <[keyOf (dep_Meta d) :=
                             {| dep_Meta := dep_Meta d; dep_Spec := dep_Spec d;
                                dep_Status := dep_Status old |}]> (deployments w)).
Proof.
  unfold clientUpdateDeployment, mbind, Prog_bind. rewrite issue_spec.
  pose proof (served_requests (ReqUpdateDeployment d) w) as Hreq.
  destruct (served_store (ReqUpdateDeployment d) w) as (_ & _ & Hdep & _ & Hlog).
  destruct (hd None (faults w)) as [e |] eqn:Hhd.
  { eexists _, _. split; [reflexivity |]. split; [done |]. split; [done |].
    intros Hf. rewrite Hf in Hhd. discriminate. }
  unfold getWorld. rewrite Hdep.
  destruct (deployments w !! keyOf (dep_Meta d)) as [old |] eqn:Hold.
  - eexists _, _. split; [reflexivity |]. simpl. rewrite Hreq, Hlog, Hdep.
    split; [done |]. split; [done |]. intros _ old' [= <-]. done.
  - eexists _, _. split; [reflexivity |]. split; [done |]. split; [done |].
    intros _ old' [=].
Qed.

Lemma clientStatusUpdate_spec (nd : NginxDeployment) (w : World) :
  ∃ err w',
    clientStatusUpdate nd w = (Val err, w')
    ∧ requests w' = requests w ++ [ReqUpdateNginxDeploymentStatus nd]
    ∧ logs w' = logs w
    ∧ (deployments w' = deployments w ∧ services w' = services w ∧ pods w' = pods w)
    ∧ (err ≠ None → nginxDeployments w' = nginxDeployments w)
    ∧ (faults w = [] → ∀ old, nginxDeployments w !! keyOf (nd_Meta nd) = Some old →
       err = None
       ∧ nginxDeployments w' = <[keyOf (nd_Meta nd) :=
                                  {| nd_Meta := nd_Meta old; nd_Spec := nd_Spec old;
                                     nd_Status := nd_Status nd |}]> (nginxDeployments w)).
Proof.
  unfold clientStatusUpdate, mbind, Prog_bind. rewrite issue_spec.
  pose proof (served_requests (ReqUpdateNginxDeploymentStatus nd) w) as Hreq.
  destruct (served_store (ReqUpdateNginxDeploymentStatus nd) w)
    as (Hpod & Hnd & Hdep & Hsvc & Hlog).
  destruct (hd None (faults w)) as [e |] eqn:Hhd.
  { eexists _, _. split; [reflexivity |]. do 4 (split; [done |]).
    intros Hf. rewrite Hf in Hhd. discriminate. }
  unfold getWorld. rewrite Hnd.
  destruct (nginxDeployments w !! keyOf (nd_Meta nd)) as [old |] eqn:Hold.
  - eexists _, _. split; [reflexivity |]. simpl. rewrite Hreq, Hlog, Hdep, Hsvc, Hpod, Hnd.
    do 3 (split; [done |]). split; [done |]. intros _ old' [= <-]. done.
  - eexists _, _. split; [reflexivity |]. do 4 (split; [done |]).
    intros _ old' [=].
Qed.

(** The ownership link can always be put on a freshly built child, as soon
    as the scheme knows the parent's kind. *)
Lemma SetControllerReference_fresh
    (nginxDeploy : NginxDeployment) (name : string) (scheme : Scheme) (kind : string * string) :
  nginxDeploymentKind scheme = Some kind →
  SetControllerReference nginxDeploy (namedMeta name (Namespace (nd_Meta nginxDeploy))) scheme
  = inr (withOwnerReferences (namedMeta name (Namespace (nd_Meta nginxDeploy)))
           [controllerRef kind nginxDeploy]).
Proof.
  intros Hkind. unfold SetControllerReference. simpl.
  rewrite String.eqb_refl, andb_false_r, Hkind. by destruct kind.
Qed.

Lemma SetControllerReference_unregistered
    (nginxDeploy : NginxDeployment) (name : string) (scheme : Scheme) :
  nginxDeploymentKind scheme = None →
  ∃ e, SetControllerReference nginxDeploy
         (namedMeta name (Namespace (nd_Meta nginxDeploy))) scheme = inl e.
Proof.
  intros Hkind. unfold SetControllerReference. simpl.
  rewrite String.eqb_refl, andb_false_r, Hkind. eauto.
Qed.

(** *** The Service is created once and never updated *)

(** [reconcileService] once the ownership link is set. *)
Lemma reconcileService_registered
    (r : NginxDeploymentReconciler) (nginxDeploy : NginxDeployment) (kind : string * string)
    (w : World) :
  nginxDeploymentKind (rScheme r) = Some kind →
  reconcileService r nginxDeploy w =
    match hd None (faults w) with
    | Some e =>
        if IsNotFound e then
          (logf Info "Creating Service"
             [AStr "name"; AStr (Name (nd_Meta nginxDeploy) +:+ "-service")] ;;
           clientCreateService (ownedService kind nginxDeploy))
            (served (ReqGetService (serviceKey nginxDeploy)) w)
        else (Val (Some e), served (ReqGetService (serviceKey nginxDeploy)) w)
    | None =>
        match services w !! serviceKey nginxDeploy with
        | Some _ => (Val None, served (ReqGetService (serviceKey nginxDeploy)) w)
        | None =>
            (logf Info "Creating Service"
               [AStr "name"; AStr (Name (nd_Meta nginxDeploy) +:+ "-service")] ;;
             clientCreateService (ownedService kind nginxDeploy))
              (served (ReqGetService (serviceKey nginxDeploy)) w)
        end
    end.
Proof.
  intros Hkind. unfold reconcileService.
  change (svc_Meta (desiredService nginxDeploy))
    with (namedMeta (Name (nd_Meta nginxDeploy) +:+ "-service")
            (Namespace (nd_Meta nginxDeploy))).
  rewrite (SetControllerReference_fresh _ _ _ _ Hkind).
  unfold mbind at 1, Prog_bind at 1.
  change (clientGetService _ w) with (clientGetService (serviceKey nginxDeploy) w).
  rewrite clientGetService_spec.
  destruct (hd None (faults w)) as [e |]; [by destruct (IsNotFound e) |].
  by destruct (services w !! serviceKey nginxDeploy).
Qed.

Lemma create_after_log (s : Service) (format : string) (args : list LogArg) (w : World) :
  ∃ err w',
    (logf Info format args ;; clientCreateService s) w = (Val err, w')
    ∧ requests w' = requests w ++ [ReqCreateService s].
Proof.
  unfold logf, modifyWorld, mbind, Prog_bind at 1.
  destruct (clientCreateService_spec s
              (addLog {| log_Severity := Info; log_Format := format; log_Args := args |} w))
    as (err & w' & Hc & Hreq & _).
  exists err, w'. split; [exact Hc | exact Hreq].
Qed.

(** C7.  The Service is create-once and never updated.  Whatever the store
    holds and answers, [reconcileService] never issues an update: the only
    write it can make is one create.  When the Service exists, nothing is
    written and the stored Service stays as it is, whatever its fields and
    whatever the parent Spec (port included) have become.  When the Service
    is absent, exactly one create is issued, for the Service compiled from
    the parent and owned by it. *)
Theorem service_is_create_once
    (r : NginxDeploymentReconciler) (nginxDeploy : NginxDeployment) (w : World) :
  (∃ new,
     requests (reconcileService r nginxDeploy w).2 = requests w ++ new
     ∧ (List.filter mutating new = []
        ∨ ∃ s, List.filter mutating new = [ReqCreateService s]))
  ∧ (∀ found, answered w → services w !! serviceKey nginxDeploy = Some found →
     (∃ new,
        requests (reconcileService r nginxDeploy w).2 = requests w ++ new
        ∧ List.filter mutating new = [])
     ∧ services (reconcileService r nginxDeploy w).2 = services w)
  ∧ (∀ kind, answered w → services w !! serviceKey nginxDeploy = None →
     nginxDeploymentKind (rScheme r) = Some kind →
     requests (reconcileService r nginxDeploy w).2
     = requests w ++ [ReqGetService (serviceKey nginxDeploy);
                      ReqCreateService (ownedService kind nginxDeploy)]).
Proof.
  destruct (nginxDeploymentKind (rScheme r)) as [kind |] eqn:Hkind.
  - rewrite (reconcileService_registered r nginxDeploy kind w Hkind).
    pose proof (served_requests (ReqGetService (serviceKey nginxDeploy)) w) as Hget.
    destruct (served_store (ReqGetService (serviceKey nginxDeploy)) w)
      as (_ & _ & _ & Hsvc & _).
    destruct (create_after_log (ownedService kind nginxDeploy) "Creating Service"
                [AStr "name"; AStr (Name (nd_Meta nginxDeploy) +:+ "-service")]
                (served (ReqGetService (serviceKey nginxDeploy)) w))
      as (err & w' & Hcreate & Hreq).
    rewrite Hget in Hreq.
    split; [| split].
    + destruct (hd None (faults w)) as [e |]; [destruct (IsNotFound e) |
        destruct (services w !! serviceKey nginxDeploy)].
      * rewrite Hcreate. simpl.
        exists [ReqGetService (serviceKey nginxDeploy);
                ReqCreateService (ownedService kind nginxDeploy)].
        split; [by rewrite Hreq, <- app_assoc | right; eauto].
      * exists [ReqGetService (serviceKey nginxDeploy)]. split; [exact Hget | by left].
      * exists [ReqGetService (serviceKey nginxDeploy)]. split; [exact Hget | by left].
      * rewrite Hcreate. simpl.
        exists [ReqGetService (serviceKey nginxDeploy);
                ReqCreateService (ownedService kind nginxDeploy)].
        split; [by rewrite Hreq, <- app_assoc | right; eauto].
    + intros found Hans Hfound. unfold answered in Hans. rewrite Hans, Hfound.
      split; [| exact Hsvc].
      exists [ReqGetService (serviceKey nginxDeploy)]. split; [exact Hget | done].
    + intros kind' Hans Habsent [= <-]. unfold answered in Hans. rewrite Hans, Habsent.
      rewrite Hcreate. simpl. by rewrite Hreq, <- app_assoc.
  - destruct (SetControllerReference_unregistered nginxDeploy
                (Name (nd_Meta nginxDeploy) +:+ "-service") (rScheme r) Hkind) as [e He].
    assert (reconcileService r nginxDeploy w = (Val (Some e), w)) as Hrec.
    { unfold reconcileService.
      change (svc_Meta (desiredService nginxDeploy))
        with (namedMeta (Name (nd_Meta nginxDeploy) +:+ "-service")
                (Namespace (nd_Meta nginxDeploy))).
      by rewrite He. }
    rewrite Hrec. simpl.
    split; [| split].
    + exists []. split; [by rewrite app_nil_r | by left].
    + intros found _ _. split; [| done].
      exists []. split; [by rewrite app_nil_r | done].
    + intros kind _ _ [=].
Qed.

Lemma service_is_create_once_at_samples :
  (answered convergedWorld
   ∧ services convergedWorld !! serviceKey retargeted = Some (desiredService site)
   ∧ desiredService site ≠ desiredService retargeted)
  ∧ services (reconcileService operator retargeted convergedWorld).2
    = services convergedWorld.
Proof.
  split; [split; [reflexivity | split; [reflexivity | discriminate]] |].
  destruct (service_is_create_once operator retargeted convergedWorld) as (_ & Hpresent & _).
  exact (proj2 (Hpresent (desiredService site) eq_refl eq_refl)).
Defined.

(** *** The Deployment: compare two fields, overwrite the whole spec *)

(** The comparison of [reconcileDeployment], on a stored Deployment. *)
Lemma needsUpdate_admitted
    (foundDeploy deployment : Deployment) (nginxDeploy : NginxDeployment) (w : World) :
  dep_Spec deployment = dep_Spec (desiredDeployment nginxDeploy) →
  admitted foundDeploy →
  ∃ update,
    needsUpdate foundDeploy deployment w = (Val update, w)
    ∧ (update = false ↔ ownedFieldsMatch foundDeploy nginxDeploy).
Proof.
  intros Hspec [[replicas Hreplicas] Hcontainers].
  unfold needsUpdate, derefReplicas, firstImage, ownedFieldsMatch.
  rewrite Hspec, Hreplicas. simpl.
  destruct (Containers (tmpl_Spec (Template (dep_Spec foundDeploy)))) as [| c rest];
    [done |]. simpl.
  unfold mbind, Prog_bind, mret, Prog_ret. simpl.
  destruct (Z.eqb_spec replicas (spec_Replicas (nd_Spec nginxDeploy))) as [-> | Hne]; simpl.
  - destruct (String.eqb_spec (c_Image c) (spec_Image (nd_Spec nginxDeploy))) as [-> | Hne];
      simpl; eexists; (split; [reflexivity |]).
    + done.
    + split; [discriminate |]. intros [_ [= ?]]. done.
  - eexists; split; [reflexivity |]. split; [discriminate |]. intros [[= ?] _]. done.
Qed.

(** Why [admitted] is asked for: the comparison dereferences the replica
    count and indexes the first container of the object it read. *)
Lemma needsUpdate_not_admitted
    (foundDeploy : Deployment) (nginxDeploy : NginxDeployment) (w : World) :
  (Replicas (dep_Spec foundDeploy) = None →
   needsUpdate foundDeploy (desiredDeployment nginxDeploy) w
   = (Panic "invalid memory address or nil pointer dereference", w))
  ∧ (Replicas (dep_Spec foundDeploy) = Some (spec_Replicas (nd_Spec nginxDeploy)) →
     Containers (tmpl_Spec (Template (dep_Spec foundDeploy))) = [] →
     needsUpdate foundDeploy (desiredDeployment nginxDeploy) w
     = (Panic "index out of range [0] with length 0", w)).
Proof.
  unfold needsUpdate, derefReplicas, firstImage, mbind, Prog_bind, mret, Prog_ret, panic.
  split.
  - by intros ->.
  - intros -> ->. simpl. by rewrite Z.eqb_refl.
Qed.

(** [reconcileDeployment] once the ownership link is set and the Deployment
    has been read. *)
Lemma reconcileDeployment_found
    (r : NginxDeploymentReconciler) (nginxDeploy : NginxDeployment) (kind : string * string)
    (foundDeploy : Deployment) (w : World) :
  nginxDeploymentKind (rScheme r) = Some kind →
  answered w →
  deployments w !! deploymentKey nginxDeploy = Some foundDeploy →
  admitted foundDeploy →
  ∃ update,
    (update = false ↔ ownedFieldsMatch foundDeploy nginxDeploy)
    ∧ reconcileDeployment r nginxDeploy w =
        if update : bool then
          (logf Info "Updating Deployment"
             [AStr "name"; AStr (Name (nd_Meta nginxDeploy) +:+ "-deployment")] ;;
           clientUpdateDeployment (overwritten foundDeploy nginxDeploy))
            (served (ReqGetDeployment (deploymentKey nginxDeploy)) w)
        else (Val None, served (ReqGetDeployment (deploymentKey nginxDeploy)) w).
Proof.
  intros Hkind Hans Hfound Hadm. unfold reconcileDeployment.
  change (dep_Meta (desiredDeployment nginxDeploy))
    with (namedMeta (Name (nd_Meta nginxDeploy) +:+ "-deployment")
            (Namespace (nd_Meta nginxDeploy))).
  rewrite (SetControllerReference_fresh _ _ _ _ Hkind).
  unfold mbind at 1, Prog_bind at 1.
  change (clientGetDeployment _ w) with (clientGetDeployment (deploymentKey nginxDeploy) w).
  rewrite clientGetDeployment_spec. unfold answered in Hans. rewrite Hans, Hfound.
  unfold mbind at 1, Prog_bind at 1.
  match goal with
  | |- context [needsUpdate foundDeploy ?d ?w0] =>
      destruct (needsUpdate_admitted foundDeploy d nginxDeploy w0 eq_refl Hadm)
        as (update & Hneeds & Hiff);
      rewrite Hneeds
  end.
  exists update. split; [exact Hiff |]. by destruct update.
Qed.

Lemma update_after_log (d : Deployment) (format : string) (args : list LogArg) (w : World) :
  ∃ err w',
    (logf Info format args ;; clientUpdateDeployment d) w = (Val err, w')
    ∧ requests w' = requests w ++ [ReqUpdateDeployment d]
    ∧ (faults w = [] → ∀ old, deployments w !! keyOf (dep_Meta d) = Some old →
       err = None
       ∧ deployments w' = <[keyOf (dep_Meta d) :=
                             {| dep_Meta := dep_Meta d; dep_Spec := dep_Spec d;
                                dep_Status := dep_Status old |}]> (deployments w)).
Proof.
  unfold logf, modifyWorld, mbind, Prog_bind at 1.
  destruct (clientUpdateDeployment_spec d
              (addLog {| log_Severity := Info; log_Format := format; log_Args := args |} w))
    as (err & w' & Hupd & Hreq & _ & Hstore).
  exists err, w'. split; [exact Hupd | split; [exact Hreq | exact Hstore]].
Qed.

(** C4.  For a workload child that is present, the reconciler compares the
    replica count and the image of its first container with the parent's,
    and nothing else.  When both agree it writes nothing, whatever the other
    fields of the child are.  When one differs it submits exactly one
    update, of the object it read with the whole spec replaced by the
    compiled one; answered by the store, the update leaves the child with
    exactly that spec. *)
Theorem workload_drift_overwritten
    (r : NginxDeploymentReconciler) (nginxDeploy : NginxDeployment)
    (foundDeploy : Deployment) (w : World) :
  is_Some (nginxDeploymentKind (rScheme r)) →
  answered w →
  deployments w !! deploymentKey nginxDeploy = Some foundDeploy →
  admitted foundDeploy →
  (ownedFieldsMatch foundDeploy nginxDeploy →
     (reconcileDeployment r nginxDeploy w).1 = Val None
     ∧ requests (reconcileDeployment r nginxDeploy w).2
       = requests w ++ [ReqGetDeployment (deploymentKey nginxDeploy)]
     ∧ deployments (reconcileDeployment r nginxDeploy w).2 = deployments w)
  ∧ (¬ ownedFieldsMatch foundDeploy nginxDeploy →
     requests (reconcileDeployment r nginxDeploy w).2
       = requests w ++ [ReqGetDeployment (deploymentKey nginxDeploy);
                        ReqUpdateDeployment (overwritten foundDeploy nginxDeploy)]
     ∧ (faults w = [] → keyOf (dep_Meta foundDeploy) = deploymentKey nginxDeploy →
        (reconcileDeployment r nginxDeploy w).1 = Val None
        ∧ deployments (reconcileDeployment r nginxDeploy w).2 !! deploymentKey nginxDeploy
          = Some (overwritten foundDeploy nginxDeploy))).
Proof.
  intros [kind Hkind] Hans Hfound Hadm.
  destruct (reconcileDeployment_found r nginxDeploy kind foundDeploy w Hkind Hans Hfound Hadm)
    as (update & Hiff & Hrec).
  pose proof (served_requests (ReqGetDeployment (deploymentKey nginxDeploy)) w) as Hget.
  destruct (served_store (ReqGetDeployment (deploymentKey nginxDeploy)) w)
    as (_ & _ & Hdep & _ & _).
  rewrite Hrec. split.
  - intros Hmatch. apply Hiff in Hmatch as ->. simpl. done.
  - intros Hdrift. destruct update; [| exfalso; apply Hdrift, Hiff; reflexivity].
    destruct (update_after_log (overwritten foundDeploy nginxDeploy) "Updating Deployment"
                [AStr "name"; AStr (Name (nd_Meta nginxDeploy) +:+ "-deployment")]
                (served (ReqGetDeployment (deploymentKey nginxDeploy)) w))
      as (err & w' & Hupd & Hreq & Hstore).
    rewrite Hupd. simpl. rewrite Hreq, Hget, <- app_assoc.
    split; [done |].
    intros Hfree Hkey. rewrite Hdep in Hstore.
    destruct (Hstore (eq_trans (served_faults _ w) (f_equal tl Hfree)) foundDeploy)
      as [-> Hmap].
    { simpl. rewrite Hkey. exact Hfound. }
    split; [done |]. rewrite Hmap. simpl. rewrite Hkey. apply lookup_insert_eq.
Qed.

Lemma workload_drift_overwritten_at_samples :
  (is_Some (nginxDeploymentKind (rScheme operator))
   ∧ answered (worldWith driftedDeployment)
   ∧ deployments (worldWith driftedDeployment) !! deploymentKey site = Some driftedDeployment
   ∧ admitted driftedDeployment
   ∧ ¬ ownedFieldsMatch driftedDeployment site)
  ∧ requests (reconcileDeployment operator site (worldWith driftedDeployment)).2
    = requests (worldWith driftedDeployment)
      ++ [ReqGetDeployment (deploymentKey site);
          ReqUpdateDeployment (overwritten driftedDeployment site)].
Proof.
  assert (is_Some (nginxDeploymentKind (rScheme operator))) as H1 by (eexists; reflexivity).
  assert (admitted driftedDeployment) as H2.
  { split; [eexists; reflexivity | discriminate]. }
  assert (¬ ownedFieldsMatch driftedDeployment site) as H3.
  { intros [Hreplicas _]. discriminate Hreplicas. }
  split; [repeat split; first [assumption | reflexivity | apply H2] |].
  exact (proj1 (proj2 (workload_drift_overwritten operator site driftedDeployment
                         (worldWith driftedDeployment) H1 eq_refl eq_refl H2) H3)).
Defined.

(** *** The status written back on the parent *)

Lemma available_is_not_ready (available replicas : Z) :
  availableMessage available replicas ≠ "Ready".
Proof. unfold availableMessage. simpl. discriminate. Qed.

(** C9.  [updateStatus] reads the workload child.  If the read fails (in
    particular if the child is not found) the error goes back to the caller
    and no status is written.  Otherwise the parent gets the observed
    available-replica count, with the status string "Ready" exactly when
    that count equals Spec.replicas and "Available: X/Y" (X observed, Y
    desired) otherwise, and this status is submitted in one status update,
    whose answer is returned. *)
Theorem status_projection
    (r : NginxDeploymentReconciler) (nginxDeploy : NginxDeployment) (w : World) :
  (∀ e, (clientGetDeployment (deploymentKey nginxDeploy) w).1 = Val (inl e) →
     updateStatus r nginxDeploy w
     = (Val (nginxDeploy, Some e), served (ReqGetDeployment (deploymentKey nginxDeploy)) w))
  ∧ (answered w → deployments w !! deploymentKey nginxDeploy = None →
     (updateStatus r nginxDeploy w).1 = Val (nginxDeploy, Some ErrNotFound)
     ∧ requests (updateStatus r nginxDeploy w).2
       = requests w ++ [ReqGetDeployment (deploymentKey nginxDeploy)]
     ∧ nginxDeployments (updateStatus r nginxDeploy w).2 = nginxDeployments w)
  ∧ (∀ d, (clientGetDeployment (deploymentKey nginxDeploy) w).1 = Val (inr d) →
     let available := AvailableReplicas (dep_Status d) in
     let replicas := spec_Replicas (nd_Spec nginxDeploy) in
     let status := nd_Status (projected d nginxDeploy) in
     st_AvailableReplicas status = available
     ∧ (st_Status status = "Ready" ↔ available = replicas)
     ∧ (available ≠ replicas →
        st_Status status = "Available: " +:+ pretty available +:+ "/" +:+ pretty replicas)
     ∧ ∃ err,
         (updateStatus r nginxDeploy w).1 = Val (projected d nginxDeploy, err)
         ∧ requests (updateStatus r nginxDeploy w).2
           = requests w ++ [ReqGetDeployment (deploymentKey nginxDeploy);
                            ReqUpdateNginxDeploymentStatus (projected d nginxDeploy)]
         ∧ (faults w = [] →
            ∀ stored, nginxDeployments w !! keyOf (nd_Meta nginxDeploy) = Some stored →
            err = None
            ∧ nginxDeployments (updateStatus r nginxDeploy w).2 !! keyOf (nd_Meta nginxDeploy)
              = Some {| nd_Meta := nd_Meta stored; nd_Spec := nd_Spec stored;
                        nd_Status := status |})).
Proof.
  pose proof (served_requests (ReqGetDeployment (deploymentKey nginxDeploy)) w) as Hget.
  destruct (served_store (ReqGetDeployment (deploymentKey nginxDeploy)) w)
    as (_ & Hnd & _ & _ & _).
  assert (∀ res,
            (clientGetDeployment (deploymentKey nginxDeploy) w).1 = Val res →
            updateStatus r nginxDeploy w =
              match res with
              | inl e => (Val (nginxDeploy, Some e),
                          served (ReqGetDeployment (deploymentKey nginxDeploy)) w)
              | inr d =>
                  (err ← clientStatusUpdate (projected d nginxDeploy);
                   mret (projected d nginxDeploy, err))
                    (served (ReqGetDeployment (deploymentKey nginxDeploy)) w)
              end) as Hrun.
  { intros res. unfold updateStatus. unfold mbind at 1, Prog_bind at 1.
    change (clientGetDeployment _ w) with (clientGetDeployment (deploymentKey nginxDeploy) w).
    rewrite clientGetDeployment_spec. simpl. intros [= <-].
    destruct (hd None (faults w)); [done |].
    by destruct (deployments w !! deploymentKey nginxDeploy). }
  split; [| split].
  - intros e He. exact (Hrun (inl e) He).
  - intros Hans Habsent.
    rewrite (Hrun (inl ErrNotFound)).
    + simpl. done.
    + rewrite clientGetDeployment_spec. unfold answered in Hans. by rewrite Hans, Habsent.
  - intros d Hd available replicas status. subst available replicas status.
    unfold projected at 1 2 3. simpl.
    split; [done |]. split; [| split].
    + destruct (Z.eqb_spec (AvailableReplicas (dep_Status d))
                  (spec_Replicas (nd_Spec nginxDeploy))) as [Heq | Hne].
      * done.
      * split; [| done]. intros Habs. by apply available_is_not_ready in Habs.
    + intros Hne.
      by destruct (Z.eqb_spec (AvailableReplicas (dep_Status d))
                     (spec_Replicas (nd_Spec nginxDeploy))).
    + rewrite (Hrun (inr d) Hd).
      destruct (clientStatusUpdate_spec (projected d nginxDeploy)
                  (served (ReqGetDeployment (deploymentKey nginxDeploy)) w))
        as (err & w' & Hupd & Hreq & _ & _ & _ & Hstore).
      unfold mbind, Prog_bind. rewrite Hupd. simpl.
      exists err. split; [done |]. split; [by rewrite Hreq, Hget, <- app_assoc |].
      intros Hfree stored Hstored. rewrite Hnd in Hstore.
      destruct (Hstore (eq_trans (served_faults _ w) (f_equal tl Hfree)) stored Hstored)
        as [-> Hmap].
      split; [done |]. rewrite Hmap. apply lookup_insert_eq.
Qed.

(** [updateStatus] when the child is read: one status update follows. *)
Lemma status_read
    (nginxDeploy : NginxDeployment) (d : Deployment) (r : NginxDeploymentReconciler)
    (w : World) :
  answered w →
  deployments w !! deploymentKey nginxDeploy = Some d →
  ∃ err w',
    updateStatus r nginxDeploy w = (Val (projected d nginxDeploy, err), w')
    ∧ clientStatusUpdate (projected d nginxDeploy)
        (served (ReqGetDeployment (deploymentKey nginxDeploy)) w) = (Val err, w').
Proof.
  intros Hans Hd.
  destruct (clientStatusUpdate_spec (projected d nginxDeploy)
              (served (ReqGetDeployment (deploymentKey nginxDeploy)) w))
    as (err & w' & Hupd & _).
  exists err, w'. split; [| exact Hupd].
  unfold updateStatus. unfold mbind at 1, Prog_bind at 1.
  change (clientGetDeployment _ w) with (clientGetDeployment (deploymentKey nginxDeploy) w).
  rewrite clientGetDeployment_spec. unfold answered in Hans. rewrite Hans, Hd.
  unfold mbind, Prog_bind.
  change (clientStatusUpdate _ _)
    with (clientStatusUpdate (projected d nginxDeploy)
            (served (ReqGetDeployment (deploymentKey nginxDeploy)) w)).
  by rewrite Hupd.
Qed.

Lemma status_projection_at_samples :
  ((clientGetDeployment (deploymentKey site) (worldWith (siteDeployment 1))).1
     = Val (inr (siteDeployment 1))
   ∧ (answered freshWorld ∧ deployments freshWorld !! deploymentKey site = None))
  ∧ st_Status (nd_Status (projected (siteDeployment 1) site)) = "Available: 1/3"
  ∧ (updateStatus operator site freshWorld).1 = Val (site, Some ErrNotFound).
Proof.
  split; [split; [reflexivity | split; reflexivity] |].
  destruct (status_projection operator site (worldWith (siteDeployment 1)))
    as (_ & _ & Hread).
  destruct (Hread (siteDeployment 1) eq_refl) as (_ & _ & Hmessage & _).
  split; [apply Hmessage; discriminate |].
  destruct (status_projection operator site freshWorld) as (_ & Habsent & _).
  exact (proj1 (Habsent eq_refl eq_refl)).
Defined.

(** *** Reconciling a converged parent *)

Lemma converged_admitted (d : Deployment) (nginxDeploy : NginxDeployment) :
  ownedFieldsMatch d nginxDeploy → admitted d.
Proof.
  intros [Hreplicas Himage]. split; [eauto |].
  intros Hnil. rewrite Hnil in Himage. discriminate.
Qed.

(** C2, as the code has it.  Reconciling a parent whose two children exist
    and match (replica count and image equal to the Spec, all replicas
    available) creates, updates and deletes no child: both children are
    left as they are.  It still makes one mutating call, the status update
    of the parent, which writes the available count and "Ready"; the
    requests are four reads followed by that one write. *)
Theorem converged_reconcile_writes_status_only
    (r : NginxDeploymentReconciler) (w : World)
    (nginxDeploy : NginxDeployment) (d : Deployment) (s : Service) :
  converged r w nginxDeploy d s →
  let submitted :=
    {| nd_Meta := nd_Meta nginxDeploy; nd_Spec := nd_Spec (setDefaults nginxDeploy);
       nd_Status := readyStatus nginxDeploy |} in
  let w' := (Reconcile r (keyOf (nd_Meta nginxDeploy)) w).2 in
  (Reconcile r (keyOf (nd_Meta nginxDeploy)) w).1 = Val None
  ∧ requests w'
    = requests w ++ [ReqGetNginxDeployment (keyOf (nd_Meta nginxDeploy));
                     ReqGetDeployment (deploymentKey nginxDeploy);
                     ReqGetService (serviceKey nginxDeploy);
                     ReqGetDeployment (deploymentKey nginxDeploy);
                     ReqUpdateNginxDeploymentStatus submitted]
  ∧ deployments w' = deployments w
  ∧ services w' = services w
  ∧ pods w' = pods w
  ∧ nginxDeployments w'
    = <[keyOf (nd_Meta nginxDeploy) :=
          {| nd_Meta := nd_Meta nginxDeploy; nd_Spec := nd_Spec nginxDeploy;
             nd_Status := readyStatus nginxDeploy |}]> (nginxDeployments w).
Proof.
  intros (Hfree & [kind Hkind] & Hparent & Hd & Hs & Hmatch & Havail) submitted w'.
  assert (∃ w4,
            Reconcile r (keyOf (nd_Meta nginxDeploy)) w
            = (Val None,
               addLog {| log_Severity := Info;
                         log_Format := "Successfully reconciled NginxDeployment";
                         log_Args := [] |} w4)
            ∧ clientStatusUpdate (projected d (setDefaults nginxDeploy))
                (addRequest (ReqGetDeployment (deploymentKey nginxDeploy))
                   (addRequest (ReqGetService (serviceKey nginxDeploy))
                      (addRequest (ReqGetDeployment (deploymentKey nginxDeploy))
                         (addRequest (ReqGetNginxDeployment (keyOf (nd_Meta nginxDeploy))) w))))
              = (Val None, w4)) as (w4 & Hrun & Hupd).
  { unfold Reconcile.
    (* read the parent *)
    unfold mbind at 1, Prog_bind at 1.
    rewrite clientGetNginxDeployment_spec, Hfree. cbn [hd]. rewrite Hparent. cbv iota beta.
    rewrite (served_faultFree _ w Hfree).
    set (w1 := addRequest (ReqGetNginxDeployment (keyOf (nd_Meta nginxDeploy))) w).
    assert (faults w1 = []) as Hfree1 by exact Hfree.
    (* the workload child *)
    unfold mbind at 1, Prog_bind at 1.
    destruct (reconcileDeployment_found r (setDefaults nginxDeploy) kind d w1 Hkind)
      as (update & Hiff & Hrec).
    { unfold answered. by rewrite Hfree1. }
    { exact Hd. }
    { exact (converged_admitted d _ Hmatch). }
    apply Hiff in Hmatch. subst update. cbv zeta. rewrite Hrec.
    rewrite (served_faultFree _ w1 Hfree1).
    set (w2 := addRequest (ReqGetDeployment (deploymentKey (setDefaults nginxDeploy))) w1).
    assert (faults w2 = []) as Hfree2 by exact Hfree.
    (* the network endpoint *)
    unfold mbind at 1, Prog_bind at 1.
    rewrite (reconcileService_registered r (setDefaults nginxDeploy) kind w2 Hkind).
    rewrite Hfree2. cbn [hd].
    change (services w2 !! serviceKey (setDefaults nginxDeploy))
      with (services w !! serviceKey nginxDeploy).
    rewrite Hs. rewrite (served_faultFree _ w2 Hfree2).
    set (w3 := addRequest (ReqGetService (serviceKey (setDefaults nginxDeploy))) w2).
    assert (faults w3 = []) as Hfree3 by exact Hfree.
    (* the status *)
    unfold mbind at 1, Prog_bind at 1.
    destruct (status_read (setDefaults nginxDeploy) d r w3) as (err & w4 & Hrun & Hupd).
    { unfold answered. by rewrite Hfree3. }
    { exact Hd. }
    rewrite Hrun. rewrite (served_faultFree _ w3 Hfree3) in Hupd.
    destruct (clientStatusUpdate_spec (projected d (setDefaults nginxDeploy))
                (addRequest (ReqGetDeployment (deploymentKey (setDefaults nginxDeploy))) w3))
      as (err' & w4' & Hupd' & _ & _ & _ & _ & Hstore).
    rewrite Hupd in Hupd'. injection Hupd' as <- <-.
    destruct (Hstore Hfree nginxDeploy Hparent) as [-> _].
    exists w4. split; [reflexivity | exact Hupd]. }
  subst w'. rewrite Hrun. simpl.
  assert (projected d (setDefaults nginxDeploy) = submitted) as Hsub.
  { unfold projected, projectedStatus, submitted, readyStatus. simpl.
    rewrite Havail, Z.eqb_refl. reflexivity. }
  rewrite Hsub in Hupd.
  match type of Hupd with
  | clientStatusUpdate _ ?w3 = _ =>
      destruct (clientStatusUpdate_spec submitted w3)
        as (err' & w4' & Hupd' & Hreq & _ & (Hdep & Hsvc & Hpod) & _ & Hstore)
  end.
  rewrite Hupd in Hupd'. injection Hupd' as <- <-.
  destruct (Hstore Hfree nginxDeploy Hparent) as [_ Hmap].
  split; [reflexivity |]. split; [| split; [| split; [| split]]].
  - rewrite Hreq. simpl. by rewrite <- !app_assoc.
  - exact Hdep.
  - exact Hsvc.
  - exact Hpod.
  - exact Hmap.
Qed.

Lemma sample_converged :
  converged operator convergedWorld site (siteDeployment 3) (desiredService site).
Proof.
  split; [reflexivity |]. split; [eexists; reflexivity |].
  repeat split; reflexivity.
Defined.

Lemma converged_reconcile_at_sample :
  converged operator convergedWorld site (siteDeployment 3) (desiredService site)
  ∧ deployments (Reconcile operator (keyOf (nd_Meta site)) convergedWorld).2
    = deployments convergedWorld
  ∧ services (Reconcile operator (keyOf (nd_Meta site)) convergedWorld).2
    = services convergedWorld.
Proof.
  split; [exact sample_converged |].
  destruct (converged_reconcile_writes_status_only operator convergedWorld site
              (siteDeployment 3) (desiredService site) sample_converged)
    as (_ & _ & Hdep & Hsvc & _).
  exact (conj Hdep Hsvc).
Defined.

(** The claim C2 fails: the parent of scenario 2 is converged, no request
    has been made yet, and reconciling it makes a mutating call, the status
    update of the parent. *)
Lemma converged_reconcile_still_writes :
  converged operator convergedWorld site (siteDeployment 3) (desiredService site)
  ∧ requests convergedWorld = []
  ∧ List.filter mutating
      (requests (Reconcile operator (keyOf (nd_Meta site)) convergedWorld).2)
    = [ReqUpdateNginxDeploymentStatus
         {| nd_Meta := nd_Meta site; nd_Spec := nd_Spec site;
            nd_Status := {| st_AvailableReplicas := 3; st_Status := "Ready" |} |}].
Proof. split; [exact sample_converged | split; reflexivity]. Qed.

End ControllerFacts.

(** ** More on the healer *)

Section HealerRules.

Import Healer HealerTerms.

Lemma crashLoopScan_Some_iff (pod : Pod) (statuses : list ContainerStatus) :
  is_Some (crashLoopScan pod statuses)
  ↔ ∃ cs, cs ∈ statuses ∧ crashLoopingContainer cs.
Proof.
  unfold crashLoopingContainer.
  induction statuses as [| cs rest IH]; simpl.
  - split; [intros [? ?]; discriminate | intros (cs & Hcs & _); inversion Hcs].
  - destruct (Z.gtb_spec (cs_RestartCount cs) 10) as [Hgt | Hle].
    { split; [intros _ | eauto]. exists cs. split; [left | left; lia]. }
    destruct (Waiting (cs_State cs)) as [waiting |] eqn:Hwaiting.
    + destruct (String.eqb_spec (Reason waiting) "CrashLoopBackOff") as [Hreason | Hreason].
      { split; [intros _ | eauto]. exists cs. split; [left | right; eauto]. }
      rewrite IH. split.
      * intros (cs' & Hin & Hcs'). exists cs'. split; [by right | exact Hcs'].
      * intros (cs' & Hin & Hcs'). apply elem_of_cons in Hin as [-> | Hin]; [| eauto].
        destruct Hcs' as [Hgt | (waiting' & Hw & Hr)]; [lia |].
        rewrite Hwaiting in Hw. injection Hw as <-. done.
    + rewrite IH. split.
      * intros (cs' & Hin & Hcs'). exists cs'. split; [by right | exact Hcs'].
      * intros (cs' & Hin & Hcs'). apply elem_of_cons in Hin as [-> | Hin]; [| eauto].
        destruct Hcs' as [Hgt | (waiting' & Hw & Hr)]; [lia |].
        rewrite Hwaiting in Hw. discriminate.
Qed.

(** The rules are tried in order, and the first that applies decides. *)
Lemma classify_in_order (pod : Pod) (now : time.Time) :
  (pendingTooLong pod now ∧ classify pod now = StuckPending)
  ∨ (¬ pendingTooLong pod now ∧ crashLooping pod ∧ classify pod now = StuckCrashLoop)
  ∨ (¬ pendingTooLong pod now ∧ ¬ crashLooping pod ∧ notReadyTooLong pod now
     ∧ classify pod now = StuckNotReady)
  ∨ (¬ pendingTooLong pod now ∧ ¬ crashLooping pod ∧ ¬ notReadyTooLong pod now
     ∧ classify pod now = Healthy).
Proof.
  unfold classify, stuckSite, pendingTooLong, crashLooping, notReadyTooLong, readyFalseTooLong.
  rewrite (Since_gt _ _ _ fifteen_minutes_in_range).
  pose proof (crashLoopScan_Some_iff pod (ContainerStatuses (pod_Status pod))) as Hcrash.
  pose proof (notReadyScan_Some_iff pod now (Conditions (pod_Status pod))) as Hnot.
  destruct (String.eqb_spec (Phase (pod_Status pod)) PodPending) as [Hp | Hp];
    destruct (Z.gtb_spec (now - CreationTimestamp (pod_Meta pod)) (15 * time.Minute))
      as [Hold | Hyoung]; simpl.
  1: { left. split; [split; [done | lia] | done]. }
  all: right.
  all: assert (¬ (Phase (pod_Status pod) = PodPending
                  ∧ now - CreationTimestamp (pod_Meta pod) > 15 * time.Minute)) as Hnp
         by (intros [? ?]; first [contradiction | lia]).
  all: destruct (String.eqb_spec (Phase (pod_Status pod)) PodRunning) as [Hr | Hr].
  all: try (destruct (crashLoopScan pod (ContainerStatuses (pod_Status pod))) as [line |];
            [ left; split; [exact Hnp | split; [| done]];
              split; [exact Hr | apply Hcrash; eauto]
            | ]).
  all: right.
  all: assert (¬ (Phase (pod_Status pod) = PodRunning
                  ∧ ∃ cs, cs ∈ ContainerStatuses (pod_Status pod) ∧ crashLoopingContainer cs))
         as Hnc
         by (intros [? Hex]; first [contradiction | apply Hcrash in Hex as [? ?]; discriminate]).
  all: destruct (isPodReady pod); simpl;
         [ right; split; [exact Hnp | split; [exact Hnc | split; [| done]]];
           intros [? _]; discriminate
         | ].
  all: destruct (notReadyScan pod now (Conditions (pod_Status pod))) as [line |];
         [ left; split; [exact Hnp | split; [exact Hnc | split; [| done]]];
           split; [done | apply Hnot; eauto]
         | right; split; [exact Hnp | split; [exact Hnc | split; [| done]]];
           intros [_ Hex]; apply Hnot in Hex as [? ?]; discriminate ].
Qed.

Lemma running_is_not_pending (pod : Pod) (now : time.Time) :
  crashLooping pod → ¬ pendingTooLong pod now.
Proof. intros [Hr _] [Hp _]. rewrite Hr in Hp. discriminate. Qed.

(** X1.  The verdict is StuckCrashLoop exactly when the pod is Running and
    one of its containers has restarted more than ten times or waits with
    reason CrashLoopBackOff; ten restarts are not enough, and conditions and
    timestamps play no part. *)
Theorem crash_loop_iff (pod : Pod) (now : time.Time) :
  classify pod now = StuckCrashLoop ↔ crashLooping pod.
Proof.
  destruct (classify_in_order pod now)
    as [[Hp Hv] | [(Hnp & Hc & Hv) | [(Hnp & Hnc & Hn & Hv) | (Hnp & Hnc & Hnn & Hv)]]];
    rewrite Hv; split; try discriminate; try done.
  intros Hc. by apply (running_is_not_pending pod now) in Hc.
Qed.

(** X2.  The not-ready rule comes last: the verdict is StuckNotReady exactly
    when the pod is neither Pending for too long nor crash-looping, has no
    Ready=True condition, and has a Ready=False condition held for more than
    ten minutes (exactly ten minutes is not enough). *)
Theorem not_ready_iff (pod : Pod) (now : time.Time) :
  classify pod now = StuckNotReady
  ↔ ¬ pendingTooLong pod now ∧ ¬ crashLooping pod ∧ notReadyTooLong pod now.
Proof.
  destruct (classify_in_order pod now)
    as [[Hp Hv] | [(Hnp & Hc & Hv) | [(Hnp & Hnc & Hn & Hv) | (Hnp & Hnc & Hnn & Hv)]]];
    rewrite Hv; split; try discriminate; try done; tauto.
Qed.

(** X3.  [isPodStuck] answers false exactly when none of the three rules
    applies: not Pending for more than 15 minutes, not crash-looping, and
    not without readiness for more than 10 minutes. *)
Theorem healthy_iff_no_rule (pod : Pod) (now : time.Time) (w : World) :
  (isPodStuck pod now w).1 = Val false
  ↔ ¬ pendingTooLong pod now ∧ ¬ crashLooping pod ∧ ¬ notReadyTooLong pod now.
Proof.
  rewrite isPodStuck_classify.
  destruct (classify_in_order pod now)
    as [[Hp Hv] | [(Hnp & Hc & Hv) | [(Hnp & Hnc & Hn & Hv) | (Hnp & Hnc & Hnn & Hv)]]];
    rewrite Hv; simpl; split; try discriminate; try done; tauto.
Qed.

(** Classification only observes: [isPodStuck] issues no request and
    leaves the store alone; it writes exactly one log line when it answers
    true and none when it answers false. *)
Lemma isPodStuck_only_logs (pod : Pod) (now : time.Time) (w : World) :
  ∃ (stuck : bool) (lines : list LogEntry),
    isPodStuck pod now w = (Val stuck, addLogs lines w)
    ∧ length lines = (if stuck then 1 else 0)%nat
    ∧ requests (isPodStuck pod now w).2 = requests w
    ∧ pods (isPodStuck pod now w).2 = pods w
    ∧ faults (isPodStuck pod now w).2 = faults w.
Proof.
  unfold isPodStuck. destruct (stuckSite pod now) as [[verdict line] |].
  - exists true, [line]. done.
  - exists false, []. done.
Qed.

(** X4.  [isPodReady] holds exactly when some condition has type Ready and
    status True; a pod without conditions is not ready. *)
Theorem isPodReady_iff (pod : Pod) :
  (isPodReady pod = true
   ↔ ∃ c, c ∈ Conditions (pod_Status pod)
          ∧ cond_Type c = PodReady ∧ cond_Status c = ConditionTrue)
  ∧ (Conditions (pod_Status pod) = [] → isPodReady pod = false).
Proof.
  split.
  - unfold isPodReady.
    induction (Conditions (pod_Status pod)) as [| c cs IH]; simpl.
    + split; [discriminate | intros (c & Hc & _); inversion Hc].
    + destruct (String.eqb_spec (cond_Type c) PodReady) as [Ht | Ht];
        destruct (String.eqb_spec (cond_Status c) ConditionTrue) as [Hs | Hs]; simpl.
      1: { split; [intros _ | done]. exists c. split; [left | done]. }
      all: rewrite IH; split;
        [ intros (c' & Hin & H); exists c'; split; [by right | exact H]
        | intros (c' & Hin & Ht' & Hs'); apply elem_of_cons in Hin as [-> | Hin];
          [contradiction | eauto] ].
  - unfold isPodReady. by intros ->.
Qed.

(** Each rule that applies keeps applying as time passes. *)
Lemma healthy_later (pod : Pod) (now later : time.Time) (w' : World) :
  now <= later →
  (isPodStuck pod later w').1 = Val false →
  ∀ w, (isPodStuck pod now w).1 = Val false.
Proof.
  intros Hle Hlater w.
  rewrite isPodStuck_classify in Hlater. rewrite isPodStuck_classify.
  destruct (classify_in_order pod later)
    as [[Hp Hv] | [(Hnp & Hc & Hv) | [(Hnp & Hnc & Hn & Hv) | (Hnp & Hnc & Hnn & Hv)]]];
    rewrite Hv in Hlater; simpl in Hlater; try discriminate.
  destruct (classify_in_order pod now)
    as [[Hp' Hv'] | [(_ & Hc' & Hv') | [(_ & _ & Hn' & Hv') | (_ & _ & _ & Hv')]]];
    rewrite Hv'; simpl; try done; exfalso.
  - apply Hnp. destruct Hp' as [? ?]. split; [done | lia].
  - apply Hnn. destruct Hn' as [Hready (c & Hin & Ht & Hs & Hd)].
    split; [done |]. exists c. repeat split; try done. lia.
Qed.

(** X5.  Time alone never heals a pod: if [isPodStuck] answers true at some
    instant, it answers true for the same pod at every later instant. *)
Theorem stuck_stays_stuck (pod : Pod) (now later : time.Time) (w w' : World) :
  now <= later →
  (isPodStuck pod now w).1 = Val true →
  (isPodStuck pod later w').1 = Val true.
Proof.
  intros Hle Hstuck.
  destruct (isPodStuck_only_logs pod later w') as ([|] & lines & Hrun & _);
    [by rewrite Hrun |].
  exfalso.
  assert ((isPodStuck pod later w').1 = Val false) as Hlater by (by rewrite Hrun).
  rewrite (healthy_later pod now later w' Hle Hlater w) in Hstuck. discriminate.
Qed.

Lemma stuck_stays_stuck_at_lingeringPod :
  (12 * time.Minute <= 40 * time.Minute
   ∧ (isPodStuck lingeringPod (12 * time.Minute) emptyWorld).1 = Val true)
  ∧ (isPodStuck lingeringPod (40 * time.Minute) emptyWorld).1 = Val true.
Proof.
  assert (12 * time.Minute <= 40 * time.Minute) as Hle by (vm_compute; discriminate).
  split; [split; [exact Hle | reflexivity] |].
  exact (stuck_stays_stuck lingeringPod (12 * time.Minute) (40 * time.Minute)
           emptyWorld emptyWorld Hle eq_refl).
Defined.

Lemma isPodReady_iff_at_crashingPod :
  Conditions (pod_Status crashingPod) = [] ∧ isPodReady crashingPod = false.
Proof.
  split; [reflexivity |].
  exact (proj2 (isPodReady_iff crashingPod) eq_refl).
Defined.

End HealerRules.

(** ** The event handler *)

Section HandlerFacts.

Import Healer HealerTerms.

Lemma addLogs_frame (lines : list LogEntry) (w : World) :
  nginxDeployments (addLogs lines w) = nginxDeployments w
  ∧ deployments (addLogs lines w) = deployments w
  ∧ services (addLogs lines w) = services w.
Proof.
  revert w. induction lines as [| l ls IH]; intros w; [done |].
  simpl. destruct (IH (addLog l w)) as (H1 & H2 & H3). by rewrite H1, H2, H3.
Qed.

Lemma clientDeletePod_frame (namespace name : string) (w : World) :
  nginxDeployments (clientDeletePod namespace name w).2 = nginxDeployments w
  ∧ deployments (clientDeletePod namespace name w).2 = deployments w
  ∧ services (clientDeletePod namespace name w).2 = services w
  ∧ faults (clientDeletePod namespace name w).2 = tl (faults w)
  ∧ ∀ key, key ≠ (namespace, name) →
      pods (clientDeletePod namespace name w).2 !! key = pods w !! key.
Proof.
  unfold clientDeletePod, issue, mbind, Prog_bind, mret, Prog_ret, getWorld, modifyWorld.
  destruct (faults w) as [| [e |] fs] eqn:Hf; simpl; rewrite ?Hf; simpl; try done.
  - destruct (pods w !! (namespace, name)) eqn:Hp; simpl; rewrite ?Hf; try done.
    repeat split; try done. intros key Hkey. by apply lookup_delete_ne.
  - destruct (pods w !! (namespace, name)) eqn:Hp; simpl; try done.
    repeat split; try done. intros key Hkey. by apply lookup_delete_ne.
Qed.

(** Everything [healPod] does, in one statement. *)
Lemma healPod_effect (pod : Pod) (w : World) :
  ∃ err w1,
    healPod pod w = (Val err, w1)
    ∧ requests w1
      = requests w ++ (if skipsHealing pod then [] else [deleteRequest pod])
    ∧ faults w1 = (if skipsHealing pod then faults w else tl (faults w))
    ∧ err = (if skipsHealing pod then None
             else match hd None (faults w) with
                  | Some e => Some e
                  | None => match pods w !! podKey pod with
                            | Some _ => None
                            | None => Some ErrNotFound
                            end
                  end)
    ∧ pods w1 = (if skipsHealing pod then pods w
                 else match err with
                      | Some _ => pods w
                      | None => delete (podKey pod) (pods w)
                      end)
    ∧ (∀ key, key ≠ podKey pod → pods w1 !! key = pods w !! key)
    ∧ nginxDeployments w1 = nginxDeployments w
    ∧ deployments w1 = deployments w
    ∧ services w1 = services w.
Proof.
  destruct (skipsHealing pod) eqn:Hskip.
  - rewrite (healPod_skip pod w Hskip). eexists _, _. split; [reflexivity |].
    destruct (addLogs_frame (attemptLine pod :: switchLines pod) w) as (H1 & H2 & H3).
    rewrite requests_addLogs, faults_addLogs, pods_addLogs, app_nil_r.
    repeat split; done.
  - destruct (healPod_delete pod w Hskip) as (err & w1 & Hdel & Heal).
    rewrite Heal. exists err, (addLog (outcomeLine pod err) w1).
    split; [reflexivity |].
    destruct (clientDeletePod_spec (Namespace (pod_Meta pod)) (Name (pod_Meta pod))
                (addLogs (attemptLine pod :: switchLines pod) w))
      as (err' & w1' & Hdel' & Hreq & _ & Hpods & Herr).
    rewrite Hdel in Hdel'. injection Hdel' as <- <-.
    pose proof (clientDeletePod_frame (Namespace (pod_Meta pod)) (Name (pod_Meta pod))
                  (addLogs (attemptLine pod :: switchLines pod) w)) as Hframe.
    rewrite Hdel in Hframe. cbn [snd] in Hframe.
    destruct Hframe as (Hnd & Hdep & Hsvc & Hfl & Hother).
    destruct (addLogs_frame (attemptLine pod :: switchLines pod) w) as (H1 & H2 & H3).
    rewrite requests_addLogs in Hreq. rewrite faults_addLogs in Hfl, Herr.
    rewrite pods_addLogs in Hpods, Herr.
    change (match pods w !! (Namespace (pod_Meta pod), Name (pod_Meta pod)) with
            | Some _ => None
            | None => Some ErrNotFound
            end)
      with (match pods w !! podKey pod with
            | Some _ => @None Error
            | None => Some ErrNotFound
            end) in Herr.
    simpl. unfold podKey.
    split; [exact Hreq |]. split; [exact Hfl |]. split; [exact Herr |].
    split; [exact Hpods |]. split.
    { intros key Hkey. rewrite (Hother key Hkey). by rewrite pods_addLogs. }
    rewrite H1 in Hnd. rewrite H2 in Hdep. rewrite H3 in Hsvc. done.
Qed.

Lemma not_excluded_tests (pod : Pod) :
  ¬ excluded pod →
  String.eqb (Namespace (pod_Meta pod)) "kube-system" = false
  ∧ hasIgnoreAnnotation pod = false.
Proof.
  intros Hnot. split.
  - destruct (String.eqb_spec (Namespace (pod_Meta pod)) "kube-system"); [| done].
    exfalso. apply Hnot. by left.
  - unfold hasIgnoreAnnotation.
    destruct (Annotations (pod_Meta pod)) as [annotations |] eqn:Hann; [| done].
    destruct (annotations !! ignoreKey) as [value |] eqn:Hkey; [| done].
    exfalso. apply Hnot. right. eauto.
Qed.

(** [handlePod] on a pod that passes the two filters. *)
Lemma handlePod_run (pod : Pod) (now : time.Time) (w : World) :
  ¬ excluded pod →
  handlePod pod now w =
    match stuckSite pod now with
    | None => (Val tt, w)
    | Some (_, line) =>
        match healPod pod (addLog line w) with
        | (Val (Some e), w1) => (Val tt, addLog (errorLine pod e) w1)
        | (Val None, w1) => (Val tt, w1)
        | (Panic msg, w1) => (Panic msg, w1)
        end
    end.
Proof.
  intros Hnot. destruct (not_excluded_tests pod Hnot) as [Hns Hignore].
  unfold handlePod. rewrite Hns, Hignore.
  unfold isPodStuck, mbind, Prog_bind.
  destruct (stuckSite pod now) as [[verdict line] |]; [| done].
  unfold modifyWorld. simpl.
  destruct (healPod pod (addLog line w)) as [[[e |] | msg] w1]; done.
Qed.

Lemma stuckSite_of_answer (pod : Pod) (now : time.Time) (w : World) (stuck : bool) :
  (isPodStuck pod now w).1 = Val stuck →
  if stuck then ∃ verdict line, stuckSite pod now = Some (verdict, line)
  else stuckSite pod now = None.
Proof.
  unfold isPodStuck. destruct (stuckSite pod now) as [[verdict line] |]; simpl.
  - intros [= <-]. eauto.
  - by intros [= <-].
Qed.

(** The state [handlePod] leaves behind when the pod is stuck. *)
Lemma handlePod_stuck_effect (pod : Pod) (now : time.Time) (w : World) :
  ¬ excluded pod →
  (isPodStuck pod now w).1 = Val true →
  ∃ err line w1 w',
    healPod pod (addLog line w) = (Val err, w1)
    ∧ handlePod pod now w = (Val tt, w')
    ∧ requests w' = requests w1 ∧ pods w' = pods w1 ∧ faults w' = faults w1
    ∧ logs w' = logs w1 ++ match err with Some e => [errorLine pod e] | None => [] end.
Proof.
  intros Hnot Hstuck.
  destruct (stuckSite_of_answer pod now w true Hstuck) as (verdict & line & Hsite).
  rewrite (handlePod_run pod now w Hnot), Hsite.
  destruct (healPod_effect pod (addLog line w)) as (err & w1 & Heal & _).
  exists err, line, w1.
  destruct err as [e |]; eexists; (split; [exact Heal |]); rewrite Heal;
    (split; [reflexivity |]); simpl; by rewrite ?app_nil_r.
Qed.

(** X6.  A pod for which [isPodStuck] answers false is left alone by
    [handlePod]: no request, no log line, the store as it was. *)
Theorem handlePod_leaves_healthy (pod : Pod) (now : time.Time) (w : World) :
  (isPodStuck pod now w).1 = Val false →
  handlePod pod now w = (Val tt, w).
Proof.
  intros Hhealthy. apply (stuckSite_of_answer pod now w false) in Hhealthy.
  unfold handlePod.
  destruct (String.eqb _ _); [done |].
  destruct (hasIgnoreAnnotation pod); [done |].
  unfold isPodStuck, mbind, Prog_bind. by rewrite Hhealthy.
Qed.

Lemma handlePod_leaves_healthy_at_sample :
  (isPodStuck (samplePod "default" None PodRunning [] []) 0 emptyWorld).1 = Val false
  ∧ handlePod (samplePod "default" None PodRunning [] []) 0 emptyWorld
    = (Val tt, emptyWorld).
Proof.
  split; [reflexivity |].
  exact (handlePod_leaves_healthy (samplePod "default" None PodRunning [] []) 0
           emptyWorld eq_refl).
Defined.

(** X7.  A stuck pod that passes the filters and is not marked
    action=ignore gets exactly one delete call, for that very pod; when the
    store answers the call, the pod is gone from the store afterwards.  With
    action=ignore no request is made and the pod stays. *)
Theorem handlePod_heals_stuck (pod : Pod) (now : time.Time) (w : World) :
  ¬ excluded pod →
  (isPodStuck pod now w).1 = Val true →
  (skipsHealing pod = false →
     requests (handlePod pod now w).2 = requests w ++ [deleteRequest pod]
     ∧ (answered w → pods (handlePod pod now w).2 = delete (podKey pod) (pods w)))
  ∧ (skipsHealing pod = true →
     requests (handlePod pod now w).2 = requests w
     ∧ pods (handlePod pod now w).2 = pods w).
Proof.
  intros Hnot Hstuck.
  destruct (handlePod_stuck_effect pod now w Hnot Hstuck)
    as (err & line & w1 & w' & Heal & Hrun & Hreq & Hpods & _).
  destruct (healPod_effect pod (addLog line w))
    as (err' & w1' & Heal' & Hreq1 & _ & Herr & Hpods1 & _).
  rewrite Heal in Heal'. injection Heal' as <- <-.
  simpl in Hreq1, Herr, Hpods1.
  rewrite Hrun. simpl. rewrite Hreq, Hpods, Hreq1, Hpods1.
  split; intros Hskip; rewrite Hskip in *; simpl.
  - split; [done |]. unfold answered. intros Hans. rewrite Hans in Herr.
    destruct (pods w !! podKey pod) eqn:Hpresent; rewrite Herr; [done |].
    symmetry. by apply delete_id.
  - by rewrite app_nil_r.
Qed.

Lemma handlePod_heals_stuck_at_crashingPod :
  (¬ excluded crashingPod
   ∧ (isPodStuck crashingPod 0 emptyWorld).1 = Val true
   ∧ skipsHealing crashingPod = false)
  ∧ requests (handlePod crashingPod 0 emptyWorld).2
    = requests emptyWorld ++ [deleteRequest crashingPod].
Proof.
  assert (¬ excluded crashingPod) as Hnot.
  { intros [Hns | (annotations & value & Hann & _)]; discriminate. }
  split; [split; [exact Hnot | split; reflexivity] |].
  exact (proj1 (proj1 (handlePod_heals_stuck crashingPod 0 emptyWorld Hnot eq_refl) eq_refl)).
Defined.

Lemma handlePod_cases (pod : Pod) (now : time.Time) (w : World) :
  handlePod pod now w =
    if String.eqb (Namespace (pod_Meta pod)) "kube-system" then (Val tt, w)
    else if hasIgnoreAnnotation pod then (Val tt, w)
    else match stuckSite pod now with
         | None => (Val tt, w)
         | Some (_, line) =>
             match healPod pod (addLog line w) with
             | (Val (Some e), w1) => (Val tt, addLog (errorLine pod e) w1)
             | (Val None, w1) => (Val tt, w1)
             | (Panic msg, w1) => (Panic msg, w1)
             end
         end.
Proof.
  unfold handlePod.
  destruct (String.eqb _ _); [done |].
  destruct (hasIgnoreAnnotation pod); [done |].
  unfold isPodStuck, mbind, Prog_bind.
  destruct (stuckSite pod now) as [[verdict line] |]; [| done].
  unfold modifyWorld. simpl.
  destruct (healPod pod (addLog line w)) as [[[e |] | msg] w1]; done.
Qed.

(** X8.  Whatever the pod, the time and the store, [handlePod] returns
    normally, issues at most one request, which is the delete call for the
    pod it was given, and touches nothing else: every other pod and every
    NginxDeployment, Deployment and Service are as before. *)
Theorem handlePod_footprint (pod : Pod) (now : time.Time) (w : World) :
  (handlePod pod now w).1 = Val tt
  ∧ (requests (handlePod pod now w).2 = requests w
     ∨ requests (handlePod pod now w).2 = requests w ++ [deleteRequest pod])
  ∧ (∀ key, key ≠ podKey pod → pods (handlePod pod now w).2 !! key = pods w !! key)
  ∧ nginxDeployments (handlePod pod now w).2 = nginxDeployments w
  ∧ deployments (handlePod pod now w).2 = deployments w
  ∧ services (handlePod pod now w).2 = services w.
Proof.
  rewrite handlePod_cases.
  destruct (String.eqb _ _); [by repeat split; try left |].
  destruct (hasIgnoreAnnotation pod); [by repeat split; try left |].
  destruct (stuckSite pod now) as [[verdict line] |]; [| by repeat split; try left].
  destruct (healPod_effect pod (addLog line w))
    as (err & w1 & Heal & Hreq & _ & _ & _ & Hother & Hnd & Hdep & Hsvc).
  rewrite Heal.
  assert (requests w1 = requests w ∨ requests w1 = requests w ++ [deleteRequest pod]) as Hreq'.
  { rewrite Hreq. simpl. destruct (skipsHealing pod); [left; by rewrite app_nil_r | by right]. }
  destruct err as [e |]; simpl; repeat split; done.
Qed.

Lemma stuck_again (pod : Pod) (now later : time.Time) (w w' : World) :
  now <= later →
  (isPodStuck pod now w).1 = Val true →
  (isPodStuck pod later w').1 = Val true.
Proof.
  intros Hle Hstuck.
  destruct (isPodStuck_only_logs pod later w') as ([|] & lines & Hrun & _);
    [by rewrite Hrun |].
  assert ((isPodStuck pod later w').1 = Val false) as Hlater by (by rewrite Hrun).
  rewrite (healthy_later pod now later w' Hle Hlater w) in Hstuck. discriminate.
Qed.

(** X9.  The same stuck pod delivered twice to a store that answers: the
    first delivery deletes it; the second issues a second delete call, gets
    not-found, logs it as an error, and leaves the store as the first left
    it. *)
Theorem handlePod_twice (pod : Pod) (now later : time.Time) (w : World) :
  faults w = [] →
  ¬ excluded pod →
  skipsHealing pod = false →
  (isPodStuck pod now w).1 = Val true →
  now <= later →
  let w1 := (handlePod pod now w).2 in
  let w2 := (handlePod pod later w1).2 in
  pods w1 = delete (podKey pod) (pods w)
  ∧ pods w2 = pods w1
  ∧ requests w2 = requests w ++ [deleteRequest pod; deleteRequest pod]
  ∧ last (logs w2) = Some (errorLine pod ErrNotFound).
Proof.
  intros Hfree Hnot Hskip Hstuck Hle w1 w2.
  assert ((isPodStuck pod later w1).1 = Val true) as Hstuck'
    by exact (stuck_again pod now later w w1 Hle Hstuck).
  destruct (handlePod_stuck_effect pod now w Hnot Hstuck)
    as (err & line & v1 & w1' & Heal & Hrun & Hreq & Hpods & Hfl & _).
  destruct (healPod_effect pod (addLog line w))
    as (err' & v1' & Heal' & Hreq1 & Hfl1 & Herr & Hpods1 & _).
  rewrite Heal in Heal'. injection Heal' as <- <-.
  rewrite Hskip in *. simpl in Hreq1, Hfl1, Herr. rewrite Hfree in Herr, Hfl1. simpl in Herr.
  assert (w1 = w1') as Hw1 by (subst w1; by rewrite Hrun). clearbody w1. subst w1'.
  assert (pods w1 = delete (podKey pod) (pods w)) as Hgone.
  { rewrite Hpods, Hpods1. simpl.
    destruct (pods w !! podKey pod) eqn:Hpresent; rewrite Herr; [done |].
    symmetry. by apply delete_id. }
  destruct (handlePod_stuck_effect pod later w1 Hnot Hstuck')
    as (err2 & line2 & v2 & w2' & Heal2 & Hrun2 & Hreq2 & Hpods2 & _ & Hlogs2).
  destruct (healPod_effect pod (addLog line2 w1))
    as (err2' & v2' & Heal2' & Hreq3 & _ & Herr2 & Hpods3 & _).
  rewrite Heal2 in Heal2'. injection Heal2' as <- <-.
  rewrite Hskip in *. simpl in Hreq3, Herr2, Hpods3.
  rewrite Hfl, Hfl1 in Herr2. simpl in Herr2.
  rewrite Hgone, lookup_delete_eq in Herr2. subst err2.
  assert (w2 = w2') as Hw2 by (subst w2; by rewrite Hrun2). clearbody w2. subst w2'.
  split; [exact Hgone |]. split; [by rewrite Hpods2, Hpods3 |]. split.
  - rewrite Hreq2, Hreq3, Hreq, Hreq1. by rewrite <- app_assoc.
  - rewrite Hlogs2. by rewrite last_snoc.
Qed.

Lemma handlePod_twice_at_crashingPod :
  (faults (storedWorld crashingPod) = []
   ∧ ¬ excluded crashingPod
   ∧ skipsHealing crashingPod = false
   ∧ (isPodStuck crashingPod 0 (storedWorld crashingPod)).1 = Val true
   ∧ 0 <= 30 * time.Second)
  ∧ requests (handlePod crashingPod (30 * time.Second)
                (handlePod crashingPod 0 (storedWorld crashingPod)).2).2
    = requests (storedWorld crashingPod)
      ++ [deleteRequest crashingPod; deleteRequest crashingPod].
Proof.
  assert (¬ excluded crashingPod) as Hnot.
  { intros [Hns | (annotations & value & Hann & _)]; discriminate. }
  assert (0 <= 30 * time.Second) as Hle by (vm_compute; discriminate).
  split; [repeat split; first [assumption | reflexivity] |].
  destruct (handlePod_twice crashingPod 0 (30 * time.Second) (storedWorld crashingPod)
              eq_refl Hnot eq_refl eq_refl Hle) as (_ & _ & Hreq & _).
  exact Hreq.
Defined.

End HandlerFacts.

(** ** More on the controller *)

Section ReconcileFacts.

Import Controller ControllerTerms.

(** [Reconcile], step by step. *)
Lemma Reconcile_steps (r : NginxDeploymentReconciler) (key : string * string) (w : World) :
  Reconcile r key w =
    match clientGetNginxDeployment key w with
    | (Val (inl err), w1) =>
        if IsNotFound err
        then (Val None, addLog (noticeLine "NginxDeployment resource not found - deleted") w1)
        else (Val (Some err), addLog (failureLine "Failed to get NginxDeployment" err) w1)
    | (Val (inr nginxDeploy), w1) =>
        match reconcileDeployment r (setDefaults nginxDeploy) w1 with
        | (Val (Some e), w2) =>
            (Val (Some e), addLog (failureLine "Failed to reconcile Deployment" e) w2)
        | (Val None, w2) =>
            match reconcileService r (setDefaults nginxDeploy) w2 with
            | (Val (Some e), w3) =>
                (Val (Some e), addLog (failureLine "Failed to reconcile Service" e) w3)
            | (Val None, w3) =>
                match updateStatus r (setDefaults nginxDeploy) w3 with
                | (Val (_, Some e), w4) =>
                    (Val (Some e), addLog (failureLine "Failed to update status" e) w4)
                | (Val (_, None), w4) =>
                    (Val None, addLog (noticeLine "Successfully reconciled NginxDeployment") w4)
                | (Panic msg, w4) => (Panic msg, w4)
                end
            | (Panic msg, w3) => (Panic msg, w3)
            end
        | (Panic msg, w2) => (Panic msg, w2)
        end
    | (Panic msg, w1) => (Panic msg, w1)
    end.
Proof.
  unfold Reconcile. unfold mbind at 1, Prog_bind at 1.
  destruct (clientGetNginxDeployment key w) as [[[err | nginxDeploy] | msg] w1]; [| | done].
  { by destruct (IsNotFound err). }
  cbv zeta. unfold mbind at 1, Prog_bind at 1.
  destruct (reconcileDeployment r (setDefaults nginxDeploy) w1) as [[[e |] | msg] w2];
    [done | | done].
  unfold mbind at 1, Prog_bind at 1.
  destruct (reconcileService r (setDefaults nginxDeploy) w2) as [[[e |] | msg] w3];
    [done | | done].
  unfold mbind at 1, Prog_bind at 1.
  by destruct (updateStatus r (setDefaults nginxDeploy) w3) as [[[nd' [e |]] | msg] w4].
Qed.

(** The comparison never changes the world. *)
Lemma needsUpdate_pure (foundDeploy deployment : Deployment) (w : World) :
  ∃ res, needsUpdate foundDeploy deployment w = (res, w).
Proof.
  unfold needsUpdate, derefReplicas, firstImage, mbind, Prog_bind, mret, Prog_ret, panic.
  destruct (Replicas (dep_Spec foundDeploy)); [| eauto].
  destruct (Replicas (dep_Spec deployment)); [| eauto].
  destruct (negb _); [eauto |].
  destruct (Containers (tmpl_Spec (Template (dep_Spec foundDeploy)))); [eauto |].
  destruct (Containers (tmpl_Spec (Template (dep_Spec deployment)))); eauto.
Qed.

(** What a logged write to the Deployment table does. *)
Lemma create_deployment_after_log
    (d : Deployment) (format : string) (args : list LogArg) (w : World) :
  ∃ err w',
    (logf Info format args ;; clientCreateDeployment d) w = (Val err, w')
    ∧ requests w' = requests w ++ [ReqCreateDeployment d]
    ∧ faults w' = tl (faults w)
    ∧ (services w' = services w ∧ nginxDeployments w' = nginxDeployments w
       ∧ pods w' = pods w)
    ∧ deployments w' = match err with
                       | Some _ => deployments w
                       | None => <[keyOf (dep_Meta d) := d]> (deployments w)
                       end
    ∧ (faults w = [] → deployments w !! keyOf (dep_Meta d) = None → err = None).
Proof.
  unfold logf, modifyWorld, mbind at 1, Prog_bind at 1.
  unfold clientCreateDeployment, mbind, Prog_bind. rewrite issue_spec.
  set (w0 := addLog _ w).
  pose proof (served_requests (ReqCreateDeployment d) w0) as Hreq.
  pose proof (served_faults (ReqCreateDeployment d) w0) as Hfl.
  destruct (served_store (ReqCreateDeployment d) w0) as (Hpod & Hnd & Hdep & Hsvc & _).
  change (hd None (faults w0)) with (hd None (faults w)).
  destruct (hd None (faults w)) as [e |] eqn:Hhd.
  { eexists _, _. split; [reflexivity |]. do 4 (split; [done |]).
    intros Hfree. rewrite Hfree in Hhd. discriminate. }
  unfold getWorld. rewrite Hdep.
  change (deployments w0) with (deployments w).
  destruct (deployments w !! keyOf (dep_Meta d)) eqn:Hold.
  - eexists _, _. split; [reflexivity |]. do 4 (split; [done |]). intros _ [=].
  - eexists _, _. split; [reflexivity |]. simpl.
    rewrite Hreq, Hfl, Hsvc, Hnd, Hpod, Hdep. done.
Qed.

Lemma create_service_after_log
    (s : Service) (format : string) (args : list LogArg) (w : World) :
  ∃ err w',
    (logf Info format args ;; clientCreateService s) w = (Val err, w')
    ∧ requests w' = requests w ++ [ReqCreateService s]
    ∧ faults w' = tl (faults w)
    ∧ (deployments w' = deployments w ∧ nginxDeployments w' = nginxDeployments w
       ∧ pods w' = pods w)
    ∧ services w' = match err with
                    | Some _ => services w
                    | None => <[keyOf (svc_Meta s) := s]> (services w)
                    end
    ∧ (faults w = [] → services w !! keyOf (svc_Meta s) = None → err = None).
Proof.
  unfold logf, modifyWorld, mbind at 1, Prog_bind at 1.
  unfold clientCreateService, mbind, Prog_bind. rewrite issue_spec.
  set (w0 := addLog _ w).
  pose proof (served_requests (ReqCreateService s) w0) as Hreq.
  pose proof (served_faults (ReqCreateService s) w0) as Hfl.
  destruct (served_store (ReqCreateService s) w0) as (Hpod & Hnd & Hdep & Hsvc & _).
  change (hd None (faults w0)) with (hd None (faults w)).
  destruct (hd None (faults w)) as [e |] eqn:Hhd.
  { eexists _, _. split; [reflexivity |]. do 4 (split; [done |]).
    intros Hfree. rewrite Hfree in Hhd. discriminate. }
  unfold getWorld. rewrite Hsvc.
  change (services w0) with (services w).
  destruct (services w !! keyOf (svc_Meta s)) eqn:Hold.
  - eexists _, _. split; [reflexivity |]. do 4 (split; [done |]). intros _ [=].
  - eexists _, _. split; [reflexivity |]. simpl.
    rewrite Hreq, Hfl, Hsvc, Hnd, Hpod, Hdep. done.
Qed.

Lemma update_deployment_after_log
    (d : Deployment) (format : string) (args : list LogArg) (w : World) :
  ∃ err w',
    (logf Info format args ;; clientUpdateDeployment d) w = (Val err, w')
    ∧ requests w' = requests w ++ [ReqUpdateDeployment d]
    ∧ faults w' = tl (faults w)
    ∧ (services w' = services w ∧ nginxDeployments w' = nginxDeployments w
       ∧ pods w' = pods w)
    ∧ (∀ key, key ≠ keyOf (dep_Meta d) → deployments w' !! key = deployments w !! key)
    ∧ (faults w = [] → ∀ old, deployments w !! keyOf (dep_Meta d) = Some old →
       err = None
       ∧ deployments w' = <[keyOf (dep_Meta d) :=
                             {| dep_Meta := dep_Meta d; dep_Spec := dep_Spec d;
                                dep_Status := dep_Status old |}]> (deployments w)).
Proof.
  unfold logf, modifyWorld, mbind at 1, Prog_bind at 1.
  unfold clientUpdateDeployment, mbind, Prog_bind. rewrite issue_spec.
  set (w0 := addLog _ w).
  pose proof (served_requests (ReqUpdateDeployment d) w0) as Hreq.
  pose proof (served_faults (ReqUpdateDeployment d) w0) as Hfl.
  destruct (served_store (ReqUpdateDeployment d) w0) as (Hpod & Hnd & Hdep & Hsvc & _).
  change (hd None (faults w0)) with (hd None (faults w)).
  destruct (hd None (faults w)) as [e |] eqn:Hhd.
  { eexists _, _. split; [reflexivity |]. do 3 (split; [done |]).
    split; [by intros; rewrite Hdep |].
    intros Hfree. rewrite Hfree in Hhd. discriminate. }
  unfold getWorld. rewrite Hdep.
  change (deployments w0) with (deployments w).
  destruct (deployments w !! keyOf (dep_Meta d)) as [old |] eqn:Hold.
  - eexists _, _. split; [reflexivity |]. simpl.
    rewrite Hreq, Hfl, Hsvc, Hnd, Hpod, Hdep.
    do 3 (split; [done |]). split.
    + intros key Hkey. by rewrite lookup_insert_ne.
    + intros _ old' [= <-]. done.
  - eexists _, _. split; [reflexivity |]. do 3 (split; [done |]).
    split; [by intros; rewrite Hdep |]. intros _ old' [=].
Qed.

(** [reconcileDeployment] once the ownership link is set, whatever the store
    answers. *)
Lemma reconcileDeployment_registered
    (r : NginxDeploymentReconciler) (nginxDeploy : NginxDeployment) (kind : string * string)
    (w : World) :
  nginxDeploymentKind (rScheme r) = Some kind →
  let w1 := served (ReqGetDeployment (deploymentKey nginxDeploy)) w in
  let create :=
    (logf Info "Creating Deployment"
       [AStr "name"; AStr (Name (nd_Meta nginxDeploy) +:+ "-deployment")] ;;
     clientCreateDeployment (ownedDeployment kind nginxDeploy)) w1 in
  reconcileDeployment r nginxDeploy w =
    match hd None (faults w) with
    | Some e => if IsNotFound e then create else (Val (Some e), w1)
    | None =>
        match deployments w !! deploymentKey nginxDeploy with
        | None => create
        | Some foundDeploy =>
            match needsUpdate foundDeploy (ownedDeployment kind nginxDeploy) w1 with
            | (Val true, w2) =>
                (logf Info "Updating Deployment"
                   [AStr "name"; AStr (Name (nd_Meta nginxDeploy) +:+ "-deployment")] ;;
                 clientUpdateDeployment (overwritten foundDeploy nginxDeploy)) w2
            | (Val false, w2) => (Val None, w2)
            | (Panic msg, w2) => (Panic msg, w2)
            end
        end
    end.
Proof.
  intros Hkind w1 create. subst w1 create. unfold reconcileDeployment.
  change (dep_Meta (desiredDeployment nginxDeploy))
    with (namedMeta (Name (nd_Meta nginxDeploy) +:+ "-deployment")
            (Namespace (nd_Meta nginxDeploy))).
  rewrite (SetControllerReference_fresh _ _ _ _ Hkind).
  unfold mbind at 1, Prog_bind at 1.
  change (clientGetDeployment _ w) with (clientGetDeployment (deploymentKey nginxDeploy) w).
  rewrite clientGetDeployment_spec.
  destruct (hd None (faults w)) as [e |]; [by destruct (IsNotFound e) |].
  destruct (deployments w !! deploymentKey nginxDeploy) as [foundDeploy |]; [| done].
  unfold mbind at 1, Prog_bind at 1.
  match goal with
  | |- context [needsUpdate foundDeploy ?d ?w0] =>
      change (needsUpdate foundDeploy d w0)
        with (needsUpdate foundDeploy (ownedDeployment kind nginxDeploy) w0);
      destruct (needsUpdate foundDeploy (ownedDeployment kind nginxDeploy) w0)
        as [[[|] | msg] w2]
  end; done.
Qed.

(** *** The steps of a reconciliation against a store that answers *)

Lemma after_read (r : Request) (w : World) :
  faults w = [] → mutating r = false →
  after w (addRequest r w) [r] (nginxDeployments w) (deployments w) (services w).
Proof. intros Hfree _. by repeat split. Qed.

Lemma get_parent_quiet (key : string * string) (nginxDeploy : NginxDeployment) (w : World) :
  faults w = [] →
  nginxDeployments w !! key = Some nginxDeploy →
  clientGetNginxDeployment key w
  = (Val (inr nginxDeploy), addRequest (ReqGetNginxDeployment key) w).
Proof.
  intros Hfree Hparent.
  by rewrite clientGetNginxDeployment_spec, (served_faultFree _ w Hfree), Hfree, Hparent.
Qed.

Lemma workload_step_match
    (r : NginxDeploymentReconciler) (nginxDeploy : NginxDeployment) (kind : string * string)
    (d : Deployment) (w : World) :
  faults w = [] →
  nginxDeploymentKind (rScheme r) = Some kind →
  deployments w !! deploymentKey nginxDeploy = Some d →
  ownedFieldsMatch d nginxDeploy →
  reconcileDeployment r nginxDeploy w
  = (Val None, addRequest (ReqGetDeployment (deploymentKey nginxDeploy)) w).
Proof.
  intros Hfree Hkind Hd Hmatch.
  destruct (reconcileDeployment_found r nginxDeploy kind d w Hkind) as (update & Hiff & Hrec);
    [unfold answered; by rewrite Hfree | exact Hd | exact (converged_admitted d _ Hmatch) |].
  apply Hiff in Hmatch. subst update.
  by rewrite Hrec, (served_faultFree _ w Hfree).
Qed.

Lemma workload_step_create
    (r : NginxDeploymentReconciler) (nginxDeploy : NginxDeployment) (kind : string * string)
    (w : World) :
  faults w = [] →
  nginxDeploymentKind (rScheme r) = Some kind →
  deployments w !! deploymentKey nginxDeploy = None →
  ∃ w',
    reconcileDeployment r nginxDeploy w = (Val None, w')
    ∧ after w w'
        [ReqGetDeployment (deploymentKey nginxDeploy);
         ReqCreateDeployment (ownedDeployment kind nginxDeploy)]
        (nginxDeployments w)
        (<[deploymentKey nginxDeploy := ownedDeployment kind nginxDeploy]> (deployments w))
        (services w).
Proof.
  intros Hfree Hkind Habsent.
  pose proof (reconcileDeployment_registered r nginxDeploy kind w Hkind) as Hrec.
  cbv zeta in Hrec. rewrite Hfree, Habsent, (served_faultFree _ w Hfree) in Hrec.
  cbn [hd] in Hrec.
  destruct (create_deployment_after_log (ownedDeployment kind nginxDeploy)
              "Creating Deployment"
              [AStr "name"; AStr (Name (nd_Meta nginxDeploy) +:+ "-deployment")]
              (addRequest (ReqGetDeployment (deploymentKey nginxDeploy)) w))
    as (err & w' & Hcreate & Hreq & Hfl & (Hsvc & Hnd & Hpod) & Hdep & Hok).
  rewrite Hcreate in Hrec.
  rewrite (Hok Hfree Habsent) in *.
  exists w'. split; [exact Hrec |].
  unfold after. rewrite Hreq, Hfl, Hsvc, Hnd, Hpod, Hdep. simpl. rewrite Hfree.
  by rewrite <- app_assoc.
Qed.

Lemma workload_step_update
    (r : NginxDeploymentReconciler) (nginxDeploy : NginxDeployment) (kind : string * string)
    (d : Deployment) (w : World) :
  faults w = [] →
  nginxDeploymentKind (rScheme r) = Some kind →
  deployments w !! deploymentKey nginxDeploy = Some d →
  keyOf (dep_Meta d) = deploymentKey nginxDeploy →
  admitted d →
  ¬ ownedFieldsMatch d nginxDeploy →
  ∃ w',
    reconcileDeployment r nginxDeploy w = (Val None, w')
    ∧ after w w'
        [ReqGetDeployment (deploymentKey nginxDeploy);
         ReqUpdateDeployment (overwritten d nginxDeploy)]
        (nginxDeployments w)
        (<[deploymentKey nginxDeploy := overwritten d nginxDeploy]> (deployments w))
        (services w).
Proof.
  intros Hfree Hkind Hd Hkey Hadm Hdrift.
  destruct (reconcileDeployment_found r nginxDeploy kind d w Hkind) as (update & Hiff & Hrec);
    [unfold answered; by rewrite Hfree | exact Hd | exact Hadm |].
  destruct update; [| exfalso; apply Hdrift, Hiff; reflexivity].
  rewrite (served_faultFree _ w Hfree) in Hrec.
  destruct (update_deployment_after_log (overwritten d nginxDeploy) "Updating Deployment"
              [AStr "name"; AStr (Name (nd_Meta nginxDeploy) +:+ "-deployment")]
              (addRequest (ReqGetDeployment (deploymentKey nginxDeploy)) w))
    as (err & w' & Hupdate & Hreq & Hfl & (Hsvc & Hnd & Hpod) & _ & Hok).
  rewrite Hupdate in Hrec.
  destruct (Hok Hfree d) as [-> Hdep]; [simpl; by rewrite Hkey |].
  exists w'. split; [exact Hrec |].
  unfold after. rewrite Hreq, Hfl, Hsvc, Hnd, Hpod, Hdep. simpl. rewrite Hfree, Hkey.
  by rewrite <- app_assoc.
Qed.

Lemma endpoint_step_present
    (r : NginxDeploymentReconciler) (nginxDeploy : NginxDeployment) (kind : string * string)
    (s : Service) (w : World) :
  faults w = [] →
  nginxDeploymentKind (rScheme r) = Some kind →
  services w !! serviceKey nginxDeploy = Some s →
  reconcileService r nginxDeploy w
  = (Val None, addRequest (ReqGetService (serviceKey nginxDeploy)) w).
Proof.
  intros Hfree Hkind Hs.
  by rewrite (reconcileService_registered r nginxDeploy kind w Hkind),
       Hfree, Hs, (served_faultFree _ w Hfree).
Qed.

Lemma endpoint_step_create
    (r : NginxDeploymentReconciler) (nginxDeploy : NginxDeployment) (kind : string * string)
    (w : World) :
  faults w = [] →
  nginxDeploymentKind (rScheme r) = Some kind →
  services w !! serviceKey nginxDeploy = None →
  ∃ w',
    reconcileService r nginxDeploy w = (Val None, w')
    ∧ after w w'
        [ReqGetService (serviceKey nginxDeploy);
         ReqCreateService (ownedService kind nginxDeploy)]
        (nginxDeployments w) (deployments w)
        (<[serviceKey nginxDeploy := ownedService kind nginxDeploy]> (services w)).
Proof.
  intros Hfree Hkind Habsent.
  pose proof (reconcileService_registered r nginxDeploy kind w Hkind) as Hrec.
  rewrite Hfree, Habsent, (served_faultFree _ w Hfree) in Hrec. cbn [hd] in Hrec.
  destruct (create_service_after_log (ownedService kind nginxDeploy) "Creating Service"
              [AStr "name"; AStr (Name (nd_Meta nginxDeploy) +:+ "-service")]
              (addRequest (ReqGetService (serviceKey nginxDeploy)) w))
    as (err & w' & Hcreate & Hreq & Hfl & (Hdep & Hnd & Hpod) & Hsvc & Hok).
  rewrite Hcreate in Hrec.
  rewrite (Hok Hfree Habsent) in *.
  exists w'. split; [exact Hrec |].
  unfold after. rewrite Hreq, Hfl, Hsvc, Hnd, Hpod, Hdep. simpl. rewrite Hfree.
  by rewrite <- app_assoc.
Qed.

Lemma clientStatusUpdate_faults (nd : NginxDeployment) (w : World) :
  faults (clientStatusUpdate nd w).2 = tl (faults w).
Proof.
  unfold clientStatusUpdate, mbind, Prog_bind. rewrite issue_spec.
  pose proof (served_faults (ReqUpdateNginxDeploymentStatus nd) w) as Hfl.
  destruct (hd None (faults w)); [done |].
  unfold getWorld. by destruct (nginxDeployments _ !! _).
Qed.

Lemma status_step
    (r : NginxDeploymentReconciler) (nginxDeploy stored : NginxDeployment)
    (d : Deployment) (w : World) :
  faults w = [] →
  deployments w !! deploymentKey nginxDeploy = Some d →
  nginxDeployments w !! keyOf (nd_Meta nginxDeploy) = Some stored →
  ∃ w',
    updateStatus r nginxDeploy w = (Val (projected d nginxDeploy, None), w')
    ∧ after w w'
        [ReqGetDeployment (deploymentKey nginxDeploy);
         ReqUpdateNginxDeploymentStatus (projected d nginxDeploy)]
        (<[keyOf (nd_Meta nginxDeploy) := withStatus stored (projectedStatus d nginxDeploy)]>
           (nginxDeployments w))
        (deployments w) (services w).
Proof.
  intros Hfree Hd Hstored.
  destruct (status_read nginxDeploy d r w) as (err & w' & Hrun & Hupd);
    [unfold answered; by rewrite Hfree | exact Hd |].
  rewrite (served_faultFree _ w Hfree) in Hupd.
  destruct (clientStatusUpdate_spec (projected d nginxDeploy)
              (addRequest (ReqGetDeployment (deploymentKey nginxDeploy)) w))
    as (err' & w'' & Hupd' & Hreq & _ & (Hdep & Hsvc & Hpod) & _ & Hstore).
  pose proof (clientStatusUpdate_faults (projected d nginxDeploy)
                (addRequest (ReqGetDeployment (deploymentKey nginxDeploy)) w)) as Hfl.
  rewrite Hupd in Hupd', Hfl. injection Hupd' as <- <-.
  destruct (Hstore Hfree stored Hstored) as [-> Hmap].
  exists w'. split; [exact Hrun |].
  unfold after. cbn [snd] in Hfl. rewrite Hfl, Hreq, Hdep, Hsvc, Hpod, Hmap. simpl.
  rewrite Hfree. by rewrite <- app_assoc.
Qed.

(** A whole reconciliation whose two child steps succeed. *)
Lemma Reconcile_composed
    (r : NginxDeploymentReconciler) (nginxDeploy : NginxDeployment) (d : Deployment)
    (w w2 w3 : World) (new2 new3 : list Request)
    (workloads : gmap (string * string) Deployment)
    (endpoints2 endpoints3 : gmap (string * string) Service) :
  faults w = [] →
  nginxDeployments w !! keyOf (nd_Meta nginxDeploy) = Some nginxDeploy →
  reconcileDeployment r (setDefaults nginxDeploy)
    (addRequest (ReqGetNginxDeployment (keyOf (nd_Meta nginxDeploy))) w) = (Val None, w2) →
  after (addRequest (ReqGetNginxDeployment (keyOf (nd_Meta nginxDeploy))) w) w2 new2
    (nginxDeployments w) workloads endpoints2 →
  reconcileService r (setDefaults nginxDeploy) w2 = (Val None, w3) →
  after w2 w3 new3 (nginxDeployments w) workloads endpoints3 →
  workloads !! deploymentKey nginxDeploy = Some d →
  ∃ w',
    Reconcile r (keyOf (nd_Meta nginxDeploy)) w = (Val None, w')
    ∧ after w w'
        (ReqGetNginxDeployment (keyOf (nd_Meta nginxDeploy)) :: new2 ++ new3
         ++ [ReqGetDeployment (deploymentKey nginxDeploy);
             ReqUpdateNginxDeploymentStatus (projected d (setDefaults nginxDeploy))])
        (<[keyOf (nd_Meta nginxDeploy) :=
             withStatus nginxDeploy (projectedStatus d (setDefaults nginxDeploy))]>
           (nginxDeployments w))
        workloads endpoints3.
Proof.
  intros Hfree Hparent Hrun2 (Hf2 & Hr2 & Hn2 & Hd2 & Hs2 & Hp2)
    Hrun3 (Hf3 & Hr3 & Hn3 & Hd3 & Hs3 & Hp3) Hd.
  destruct (status_step r (setDefaults nginxDeploy) nginxDeploy d w3 Hf3)
    as (w4 & Hrun4 & (Hf4 & Hr4 & Hn4 & Hd4 & Hs4 & Hp4)).
  { rewrite Hd3. exact Hd. }
  { rewrite Hn3. exact Hparent. }
  eexists. split.
  { rewrite Reconcile_steps, (get_parent_quiet _ _ _ Hfree Hparent), Hrun2, Hrun3, Hrun4.
    reflexivity. }
  unfold after. simpl.
  rewrite Hf4, Hr4, Hr3, Hr2, Hn4, Hn3, Hd4, Hd3, Hs4, Hs3, Hp4, Hp3, Hp2. simpl.
  repeat split; try done.
  rewrite <- !app_assoc. reflexivity.
Qed.

(** The status a freshly created workload projects: nothing is available
    yet. *)
Lemma projected_fresh (kind : string * string) (nginxDeploy : NginxDeployment) :
  projectedStatus (ownedDeployment kind nginxDeploy) nginxDeploy
  = {| st_AvailableReplicas := 0;
       st_Status := if 0 =? spec_Replicas (nd_Spec nginxDeploy) then "Ready"
                    else "Available: 0/" +:+ pretty (spec_Replicas (nd_Spec nginxDeploy)) |}.
Proof. reflexivity. Qed.

(** Reconciling a parent without children, as one run. *)
Lemma fresh_run
    (r : NginxDeploymentReconciler) (kind : string * string)
    (nginxDeploy : NginxDeployment) (w : World) :
  faults w = [] →
  nginxDeploymentKind (rScheme r) = Some kind →
  nginxDeployments w !! keyOf (nd_Meta nginxDeploy) = Some nginxDeploy →
  deployments w !! deploymentKey nginxDeploy = None →
  services w !! serviceKey nginxDeploy = None →
  let compiled := setDefaults nginxDeploy in
  ∃ w',
    Reconcile r (keyOf (nd_Meta nginxDeploy)) w = (Val None, w')
    ∧ after w w'
        [ReqGetNginxDeployment (keyOf (nd_Meta nginxDeploy));
         ReqGetDeployment (deploymentKey nginxDeploy);
         ReqCreateDeployment (ownedDeployment kind compiled);
         ReqGetService (serviceKey nginxDeploy);
         ReqCreateService (ownedService kind compiled);
         ReqGetDeployment (deploymentKey nginxDeploy);
         ReqUpdateNginxDeploymentStatus
           (projected (ownedDeployment kind compiled) compiled)]
        (<[keyOf (nd_Meta nginxDeploy) :=
             withStatus nginxDeploy
               (projectedStatus (ownedDeployment kind compiled) compiled)]>
           (nginxDeployments w))
        (<[deploymentKey nginxDeploy := ownedDeployment kind compiled]> (deployments w))
        (<[serviceKey nginxDeploy := ownedService kind compiled]> (services w)).
Proof.
  intros Hfree Hkind Hparent Hnodep Hnosvc compiled.
  destruct (workload_step_create r compiled kind
              (addRequest (ReqGetNginxDeployment (keyOf (nd_Meta nginxDeploy))) w)
              Hfree Hkind Hnodep) as (w2 & Hrun2 & Hafter2).
  destruct (endpoint_step_create r compiled kind w2) as (w3 & Hrun3 & Hafter3).
  { apply Hafter2. }
  { exact Hkind. }
  { destruct Hafter2 as (_ & _ & _ & _ & Hs2 & _). rewrite Hs2. exact Hnosvc. }
  destruct Hafter2 as (Hf2 & Hr2 & Hn2 & Hd2 & Hs2 & Hp2).
  destruct Hafter3 as (Hf3 & Hr3 & Hn3 & Hd3 & Hs3 & Hp3).
  rewrite Hn2 in Hn3. rewrite Hd2 in Hd3. rewrite Hs2 in Hs3.
  destruct (Reconcile_composed r nginxDeploy (ownedDeployment kind compiled) w w2 w3
              _ _ _ _ _ Hfree Hparent Hrun2
              (conj Hf2 (conj Hr2 (conj Hn2 (conj Hd2 (conj Hs2 Hp2)))))
              Hrun3
              (conj Hf3 (conj Hr3 (conj Hn3 (conj Hd3 (conj Hs3 Hp3))))))
    as (w' & Hrun & Hafter).
  { apply lookup_insert_eq. }
  exists w'. split; [exact Hrun | exact Hafter].
Qed.

(** X10.  A parent whose two children do not exist yet, against a store
    that answers: [Reconcile] succeeds with exactly one create of the
    workload and one create of the endpoint, both compiled from the
    defaulted Spec and owned by the parent, and then writes the status: no
    replica available, so "Available: 0/N" (or "Ready" when N is 0). *)
Theorem reconcile_creates_both_children
    (r : NginxDeploymentReconciler) (kind : string * string)
    (nginxDeploy : NginxDeployment) (w : World) :
  faults w = [] →
  nginxDeploymentKind (rScheme r) = Some kind →
  nginxDeployments w !! keyOf (nd_Meta nginxDeploy) = Some nginxDeploy →
  deployments w !! deploymentKey nginxDeploy = None →
  services w !! serviceKey nginxDeploy = None →
  let compiled := setDefaults nginxDeploy in
  let replicas := spec_Replicas (nd_Spec nginxDeploy) in
  (Reconcile r (keyOf (nd_Meta nginxDeploy)) w).1 = Val None
  ∧ after w (Reconcile r (keyOf (nd_Meta nginxDeploy)) w).2
      [ReqGetNginxDeployment (keyOf (nd_Meta nginxDeploy));
       ReqGetDeployment (deploymentKey nginxDeploy);
       ReqCreateDeployment (ownedDeployment kind compiled);
       ReqGetService (serviceKey nginxDeploy);
       ReqCreateService (ownedService kind compiled);
       ReqGetDeployment (deploymentKey nginxDeploy);
       ReqUpdateNginxDeploymentStatus
         (projected (ownedDeployment kind compiled) compiled)]
      (<[keyOf (nd_Meta nginxDeploy) :=
           withStatus nginxDeploy
             {| st_AvailableReplicas := 0;
                st_Status := if 0 =? replicas then "Ready"
                             else "Available: 0/" +:+ pretty replicas |}]>
         (nginxDeployments w))
      (<[deploymentKey nginxDeploy := ownedDeployment kind compiled]> (deployments w))
      (<[serviceKey nginxDeploy := ownedService kind compiled]> (services w)).
Proof.
  intros Hfree Hkind Hparent Hnodep Hnosvc compiled replicas.
  destruct (fresh_run r kind nginxDeploy w Hfree Hkind Hparent Hnodep Hnosvc)
    as (w' & Hrun & Hafter).
  rewrite Hrun. split; [reflexivity |]. exact Hafter.
Qed.

Lemma reconcile_creates_both_children_at_sample :
  (faults freshWorld = []
   ∧ nginxDeploymentKind (rScheme operator) = Some ("web.example.com/v1", "NginxDeployment")
   ∧ nginxDeployments freshWorld !! keyOf (nd_Meta site) = Some site
   ∧ deployments freshWorld !! deploymentKey site = None
   ∧ services freshWorld !! serviceKey site = None)
  ∧ (Reconcile operator (keyOf (nd_Meta site)) freshWorld).1 = Val None.
Proof.
  split; [repeat split |].
  exact (proj1 (reconcile_creates_both_children operator
                  ("web.example.com/v1", "NginxDeployment") site freshWorld
                  eq_refl eq_refl eq_refl eq_refl eq_refl)).
Defined.

(** Reconciling a parent whose children match, as one run. *)
Lemma matching_run
    (r : NginxDeploymentReconciler) (nginxDeploy : NginxDeployment)
    (d : Deployment) (s : Service) (w : World) :
  faults w = [] →
  is_Some (nginxDeploymentKind (rScheme r)) →
  nginxDeployments w !! keyOf (nd_Meta nginxDeploy) = Some nginxDeploy →
  deployments w !! deploymentKey nginxDeploy = Some d →
  services w !! serviceKey nginxDeploy = Some s →
  ownedFieldsMatch d (setDefaults nginxDeploy) →
  ∃ w',
    Reconcile r (keyOf (nd_Meta nginxDeploy)) w = (Val None, w')
    ∧ after w w'
        [ReqGetNginxDeployment (keyOf (nd_Meta nginxDeploy));
         ReqGetDeployment (deploymentKey nginxDeploy);
         ReqGetService (serviceKey nginxDeploy);
         ReqGetDeployment (deploymentKey nginxDeploy);
         ReqUpdateNginxDeploymentStatus (projected d (setDefaults nginxDeploy))]
        (<[keyOf (nd_Meta nginxDeploy) :=
             withStatus nginxDeploy (projectedStatus d (setDefaults nginxDeploy))]>
           (nginxDeployments w))
        (deployments w) (services w).
Proof.
  intros Hfree [kind Hkind] Hparent Hd Hs Hmatch.
  set (w1 := addRequest (ReqGetNginxDeployment (keyOf (nd_Meta nginxDeploy))) w).
  pose proof (workload_step_match r (setDefaults nginxDeploy) kind d w1 Hfree Hkind Hd Hmatch)
    as Hrun2.
  set (w2 := addRequest (ReqGetDeployment (deploymentKey (setDefaults nginxDeploy))) w1)
    in Hrun2.
  pose proof (endpoint_step_present r (setDefaults nginxDeploy) kind s w2 Hfree Hkind Hs)
    as Hrun3.
  destruct (Reconcile_composed r nginxDeploy d w w2
              (addRequest (ReqGetService (serviceKey (setDefaults nginxDeploy))) w2)
              [ReqGetDeployment (deploymentKey nginxDeploy)]
              [ReqGetService (serviceKey nginxDeploy)]
              (deployments w) (services w) (services w) Hfree Hparent Hrun2)
    as (w' & Hrun & Hafter); [by repeat split | exact Hrun3 | by repeat split | exact Hd |].
  exists w'. split; [exact Hrun | exact Hafter].
Qed.

(** X11.  Children that are present and agree with the defaulted Spec on
    replica count and image are left exactly as they are, whether or not the
    replicas are available yet: [Reconcile] makes four reads and one status
    update, whose status string is "Ready" or "Available: X/Y" according to
    what the workload reports. *)
Theorem reconcile_leaves_matching_children
    (r : NginxDeploymentReconciler) (nginxDeploy : NginxDeployment)
    (d : Deployment) (s : Service) (w : World) :
  faults w = [] →
  is_Some (nginxDeploymentKind (rScheme r)) →
  nginxDeployments w !! keyOf (nd_Meta nginxDeploy) = Some nginxDeploy →
  deployments w !! deploymentKey nginxDeploy = Some d →
  services w !! serviceKey nginxDeploy = Some s →
  ownedFieldsMatch d (setDefaults nginxDeploy) →
  (Reconcile r (keyOf (nd_Meta nginxDeploy)) w).1 = Val None
  ∧ after w (Reconcile r (keyOf (nd_Meta nginxDeploy)) w).2
      [ReqGetNginxDeployment (keyOf (nd_Meta nginxDeploy));
       ReqGetDeployment (deploymentKey nginxDeploy);
       ReqGetService (serviceKey nginxDeploy);
       ReqGetDeployment (deploymentKey nginxDeploy);
       ReqUpdateNginxDeploymentStatus (projected d (setDefaults nginxDeploy))]
      (<[keyOf (nd_Meta nginxDeploy) :=
           withStatus nginxDeploy (projectedStatus d (setDefaults nginxDeploy))]>
         (nginxDeployments w))
      (deployments w) (services w).
Proof.
  intros Hfree Hkind Hparent Hd Hs Hmatch.
  destruct (matching_run r nginxDeploy d s w Hfree Hkind Hparent Hd Hs Hmatch)
    as (w' & Hrun & Hafter).
  rewrite Hrun. split; [reflexivity | exact Hafter].
Qed.

Lemma reconcile_leaves_matching_children_at_sample :
  (faults (worldWith (siteDeployment 1)) = []
   ∧ is_Some (nginxDeploymentKind (rScheme operator))
   ∧ ownedFieldsMatch (siteDeployment 1) (setDefaults site))
  ∧ after (worldWith (siteDeployment 1))
      (Reconcile operator (keyOf (nd_Meta site)) (worldWith (siteDeployment 1))).2
      [ReqGetNginxDeployment (keyOf (nd_Meta site));
       ReqGetDeployment (deploymentKey site);
       ReqGetService (serviceKey site);
       ReqGetDeployment (deploymentKey site);
       ReqUpdateNginxDeploymentStatus (projected (siteDeployment 1) (setDefaults site))]
      (<[keyOf (nd_Meta site) :=
           withStatus site (projectedStatus (siteDeployment 1) (setDefaults site))]>
         (nginxDeployments (worldWith (siteDeployment 1))))
      (deployments (worldWith (siteDeployment 1)))
      (services (worldWith (siteDeployment 1))).
Proof.
  assert (is_Some (nginxDeploymentKind (rScheme operator))) as Hkind
    by (eexists; reflexivity).
  assert (ownedFieldsMatch (siteDeployment 1) (setDefaults site)) as Hmatch
    by (split; reflexivity).
  split; [split; [reflexivity | split; assumption] |].
  exact (proj2 (reconcile_leaves_matching_children operator site (siteDeployment 1)
                  (desiredService site) (worldWith (siteDeployment 1))
                  eq_refl Hkind eq_refl eq_refl eq_refl Hmatch)).
Defined.

(** X12.  Drift is repaired in one pass.  A stored workload that differs
    from the defaulted Spec in replica count or image gets exactly one
    update; afterwards the store holds it with the compiled spec (its
    metadata and status kept), so that it agrees with the Spec again, and
    the Service is not written. *)
Theorem reconcile_repairs_drift
    (r : NginxDeploymentReconciler) (nginxDeploy : NginxDeployment)
    (d : Deployment) (s : Service) (w : World) :
  faults w = [] →
  is_Some (nginxDeploymentKind (rScheme r)) →
  nginxDeployments w !! keyOf (nd_Meta nginxDeploy) = Some nginxDeploy →
  deployments w !! deploymentKey nginxDeploy = Some d →
  keyOf (dep_Meta d) = deploymentKey nginxDeploy →
  admitted d →
  services w !! serviceKey nginxDeploy = Some s →
  ¬ ownedFieldsMatch d (setDefaults nginxDeploy) →
  let repaired := overwritten d (setDefaults nginxDeploy) in
  (Reconcile r (keyOf (nd_Meta nginxDeploy)) w).1 = Val None
  ∧ after w (Reconcile r (keyOf (nd_Meta nginxDeploy)) w).2
      [ReqGetNginxDeployment (keyOf (nd_Meta nginxDeploy));
       ReqGetDeployment (deploymentKey nginxDeploy);
       ReqUpdateDeployment repaired;
       ReqGetService (serviceKey nginxDeploy);
       ReqGetDeployment (deploymentKey nginxDeploy);
       ReqUpdateNginxDeploymentStatus (projected repaired (setDefaults nginxDeploy))]
      (<[keyOf (nd_Meta nginxDeploy) :=
           withStatus nginxDeploy (projectedStatus d (setDefaults nginxDeploy))]>
         (nginxDeployments w))
      (<[deploymentKey nginxDeploy := repaired]> (deployments w))
      (services w)
  ∧ ownedFieldsMatch repaired (setDefaults nginxDeploy).
Proof.
  intros Hfree [kind Hkind] Hparent Hd Hkey Hadm Hs Hdrift repaired.
  set (w1 := addRequest (ReqGetNginxDeployment (keyOf (nd_Meta nginxDeploy))) w).
  destruct (workload_step_update r (setDefaults nginxDeploy) kind d w1
              Hfree Hkind Hd Hkey Hadm Hdrift) as (w2 & Hrun2 & Hafter2).
  pose proof Hafter2 as (Hf2 & _ & _ & _ & Hs2 & _).
  pose proof (endpoint_step_present r (setDefaults nginxDeploy) kind s w2 Hf2 Hkind) as Hrun3.
  rewrite Hs2 in Hrun3. specialize (Hrun3 Hs).
  destruct (Reconcile_composed r nginxDeploy repaired w w2
              (addRequest (ReqGetService (serviceKey (setDefaults nginxDeploy))) w2)
              _ [ReqGetService (serviceKey nginxDeploy)]
              _ _ (services w) Hfree Hparent Hrun2 Hafter2 Hrun3)
    as (w' & Hrun & Hafter).
  { destruct Hafter2 as (_ & Hr2 & Hn2 & Hd2 & _ & Hp2). by repeat split. }
  { apply lookup_insert_eq. }
  rewrite Hrun. split; [reflexivity |]. split; [exact Hafter |].
  split; reflexivity.
Qed.

Lemma reconcile_repairs_drift_at_sample :
  (faults (worldWith driftedDeployment) = []
   ∧ is_Some (nginxDeploymentKind (rScheme operator))
   ∧ keyOf (dep_Meta driftedDeployment) = deploymentKey site
   ∧ admitted driftedDeployment
   ∧ ¬ ownedFieldsMatch driftedDeployment (setDefaults site))
  ∧ deployments (Reconcile operator (keyOf (nd_Meta site)) (worldWith driftedDeployment)).2
    = <[deploymentKey site := overwritten driftedDeployment (setDefaults site)]>
        (deployments (worldWith driftedDeployment)).
Proof.
  assert (is_Some (nginxDeploymentKind (rScheme operator))) as Hkind
    by (eexists; reflexivity).
  assert (admitted driftedDeployment) as Hadm
    by (split; [eexists; reflexivity | discriminate]).
  assert (¬ ownedFieldsMatch driftedDeployment (setDefaults site)) as Hdrift
    by (intros [Hreplicas _]; discriminate Hreplicas).
  split; [repeat split; first [assumption | reflexivity | apply Hadm] |].
  destruct (reconcile_repairs_drift operator site driftedDeployment (desiredService site)
              (worldWith driftedDeployment) eq_refl Hkind eq_refl eq_refl eq_refl Hadm
              eq_refl Hdrift) as (_ & (_ & _ & _ & Hdep & _) & _).
  exact Hdep.
Defined.

(** X13.  Reconciliation reaches a fixed point in one pass.  After a
    parent without children has been reconciled, reconciling it again reads
    four times and rewrites the same status: no child is created or
    updated, and parents, workloads and endpoints in the store are exactly
    as the first pass left them. *)
Theorem reconcile_twice_is_stable
    (r : NginxDeploymentReconciler) (kind : string * string)
    (nginxDeploy : NginxDeployment) (w : World) :
  faults w = [] →
  nginxDeploymentKind (rScheme r) = Some kind →
  nginxDeployments w !! keyOf (nd_Meta nginxDeploy) = Some nginxDeploy →
  deployments w !! deploymentKey nginxDeploy = None →
  services w !! serviceKey nginxDeploy = None →
  let key := keyOf (nd_Meta nginxDeploy) in
  let w1 := (Reconcile r key w).2 in
  let w2 := (Reconcile r key w1).2 in
  (Reconcile r key w1).1 = Val None
  ∧ (∃ submitted,
       requests w2
       = requests w1 ++ [ReqGetNginxDeployment key;
                         ReqGetDeployment (deploymentKey nginxDeploy);
                         ReqGetService (serviceKey nginxDeploy);
                         ReqGetDeployment (deploymentKey nginxDeploy);
                         ReqUpdateNginxDeploymentStatus submitted])
  ∧ nginxDeployments w2 = nginxDeployments w1
  ∧ deployments w2 = deployments w1
  ∧ services w2 = services w1.
Proof.
  intros Hfree Hkind Hparent Hnodep Hnosvc key w1 w2. subst w2 w1 key.
  destruct (fresh_run r kind nginxDeploy w Hfree Hkind Hparent Hnodep Hnosvc)
    as (v1 & Hrun1 & (Hf1 & _ & Hn1 & Hd1 & Hs1 & _)).
  rewrite Hrun1. cbn [fst snd]. clear Hrun1.
  set (compiled := setDefaults nginxDeploy) in *.
  set (stored := withStatus nginxDeploy
                   (projectedStatus (ownedDeployment kind compiled) compiled)) in *.
  destruct (matching_run r stored (ownedDeployment kind compiled) (ownedService kind compiled) v1)
    as (v2 & Hrun2 & (_ & Hr2 & Hn2 & Hd2 & Hs2 & _)).
  { exact Hf1. }
  { eauto. }
  { rewrite Hn1. apply lookup_insert_eq. }
  { rewrite Hd1. apply lookup_insert_eq. }
  { rewrite Hs1. apply lookup_insert_eq. }
  { split; reflexivity. }
  change (keyOf (nd_Meta stored)) with (keyOf (nd_Meta nginxDeploy)) in Hrun2.
  rewrite Hrun2. cbn [fst snd]. split; [reflexivity |]. split; [eexists; exact Hr2 |].
  split; [| split; [exact Hd2 | exact Hs2]].
  rewrite Hn2, Hn1. apply insert_insert_eq.
Qed.

Lemma reconcile_twice_is_stable_at_sample :
  (faults freshWorld = []
   ∧ nginxDeploymentKind (rScheme operator) = Some ("web.example.com/v1", "NginxDeployment")
   ∧ nginxDeployments freshWorld !! keyOf (nd_Meta site) = Some site
   ∧ deployments freshWorld !! deploymentKey site = None
   ∧ services freshWorld !! serviceKey site = None)
  ∧ deployments (Reconcile operator (keyOf (nd_Meta site))
                   (Reconcile operator (keyOf (nd_Meta site)) freshWorld).2).2
    = deployments (Reconcile operator (keyOf (nd_Meta site)) freshWorld).2.
Proof.
  split; [repeat split |].
  destruct (reconcile_twice_is_stable operator ("web.example.com/v1", "NginxDeployment")
              site freshWorld eq_refl eq_refl eq_refl eq_refl eq_refl)
    as (_ & _ & _ & Hdep & _).
  exact Hdep.
Defined.

(** *** When a reconciliation stops early *)

(** X14.  A parent that the store no longer holds: [Reconcile] returns nil
    after the one read, and requests and writes nothing else. *)
Theorem reconcile_absent_parent
    (r : NginxDeploymentReconciler) (key : string * string) (w : World) :
  answered w →
  nginxDeployments w !! key = None →
  (Reconcile r key w).1 = Val None
  ∧ requests (Reconcile r key w).2 = requests w ++ [ReqGetNginxDeployment key]
  ∧ sameStore w (Reconcile r key w).2.
Proof.
  intros Hans Habsent. unfold answered in Hans.
  rewrite Reconcile_steps, clientGetNginxDeployment_spec, Hans, Habsent. simpl.
  destruct (served_store (ReqGetNginxDeployment key) w) as (H1 & H2 & H3 & H4 & _).
  split; [done |]. split; [apply served_requests | by repeat split].
Qed.

Lemma reconcile_absent_parent_at_sample :
  (answered emptyWorld ∧ nginxDeployments emptyWorld !! keyOf (nd_Meta site) = None)
  ∧ (Reconcile operator (keyOf (nd_Meta site)) emptyWorld).1 = Val None.
Proof.
  split; [split; reflexivity |].
  exact (proj1 (reconcile_absent_parent operator (keyOf (nd_Meta site)) emptyWorld
                  eq_refl eq_refl)).
Defined.

(** X15.  A read of the parent that fails with anything but not-found:
    [Reconcile] returns that very error after the one read, and requests
    and writes nothing else. *)
Theorem reconcile_parent_read_error
    (r : NginxDeploymentReconciler) (key : string * string) (e : Error) (w : World) :
  hd None (faults w) = Some e →
  IsNotFound e = false →
  (Reconcile r key w).1 = Val (Some e)
  ∧ requests (Reconcile r key w).2 = requests w ++ [ReqGetNginxDeployment key]
  ∧ sameStore w (Reconcile r key w).2.
Proof.
  intros Hfault Hother.
  rewrite Reconcile_steps, clientGetNginxDeployment_spec, Hfault, Hother. simpl.
  destruct (served_store (ReqGetNginxDeployment key) w) as (H1 & H2 & H3 & H4 & _).
  split; [done |]. split; [apply served_requests | by repeat split].
Qed.

Lemma reconcile_parent_read_error_at_sample :
  (hd None (faults (setFaults [Some ErrConflict] convergedWorld)) = Some ErrConflict
   ∧ IsNotFound ErrConflict = false)
  ∧ (Reconcile operator (keyOf (nd_Meta site))
       (setFaults [Some ErrConflict] convergedWorld)).1 = Val (Some ErrConflict).
Proof.
  split; [split; reflexivity |].
  exact (proj1 (reconcile_parent_read_error operator (keyOf (nd_Meta site)) ErrConflict
                  (setFaults [Some ErrConflict] convergedWorld) eq_refl eq_refl)).
Defined.

Lemma reconcileDeployment_unregistered
    (r : NginxDeploymentReconciler) (nginxDeploy : NginxDeployment) (w : World) :
  nginxDeploymentKind (rScheme r) = None →
  ∃ e, reconcileDeployment r nginxDeploy w = (Val (Some e), w).
Proof.
  intros Hkind.
  destruct (SetControllerReference_unregistered nginxDeploy
              (Name (nd_Meta nginxDeploy) +:+ "-deployment") (rScheme r) Hkind) as [e He].
  exists e. unfold reconcileDeployment.
  change (dep_Meta (desiredDeployment nginxDeploy))
    with (namedMeta (Name (nd_Meta nginxDeploy) +:+ "-deployment")
            (Namespace (nd_Meta nginxDeploy))).
  by rewrite He.
Qed.

(** X16.  When the scheme does not know the parent's kind, the ownership
    link cannot be set: [Reconcile] fails right after reading the parent,
    before any child is even read, and writes nothing. *)
Theorem reconcile_unregistered_kind
    (r : NginxDeploymentReconciler) (nginxDeploy : NginxDeployment) (w : World) :
  nginxDeploymentKind (rScheme r) = None →
  answered w →
  nginxDeployments w !! keyOf (nd_Meta nginxDeploy) = Some nginxDeploy →
  (∃ e, (Reconcile r (keyOf (nd_Meta nginxDeploy)) w).1 = Val (Some e))
  ∧ requests (Reconcile r (keyOf (nd_Meta nginxDeploy)) w).2
    = requests w ++ [ReqGetNginxDeployment (keyOf (nd_Meta nginxDeploy))]
  ∧ sameStore w (Reconcile r (keyOf (nd_Meta nginxDeploy)) w).2.
Proof.
  intros Hkind Hans Hparent. unfold answered in Hans.
  rewrite Reconcile_steps, clientGetNginxDeployment_spec, Hans, Hparent.
  destruct (reconcileDeployment_unregistered r (setDefaults nginxDeploy)
              (served (ReqGetNginxDeployment (keyOf (nd_Meta nginxDeploy))) w) Hkind)
    as [e He].
  rewrite He. simpl.
  destruct (served_store (ReqGetNginxDeployment (keyOf (nd_Meta nginxDeploy))) w)
    as (H1 & H2 & H3 & H4 & _).
  split; [eauto |]. split; [apply served_requests | by repeat split].
Qed.

Lemma reconcile_unregistered_kind_at_sample :
  (nginxDeploymentKind (rScheme {| rScheme := {| nginxDeploymentKind := None |} |}) = None
   ∧ answered freshWorld
   ∧ nginxDeployments freshWorld !! keyOf (nd_Meta site) = Some site)
  ∧ requests (Reconcile {| rScheme := {| nginxDeploymentKind := None |} |}
                (keyOf (nd_Meta site)) freshWorld).2
    = requests freshWorld ++ [ReqGetNginxDeployment (keyOf (nd_Meta site))].
Proof.
  split; [repeat split |].
  exact (proj1 (proj2 (reconcile_unregistered_kind
                         {| rScheme := {| nginxDeploymentKind := None |} |}
                         site freshWorld eq_refl eq_refl eq_refl))).
Defined.

(** X17.  A read of the workload child that fails with anything but
    not-found stops the reconciliation: [Reconcile] returns that error, the
    Service and the status are not looked at, and nothing is written. *)
Theorem reconcile_child_read_error
    (r : NginxDeploymentReconciler) (nginxDeploy : NginxDeployment)
    (e : Error) (rest : list error) (w : World) :
  is_Some (nginxDeploymentKind (rScheme r)) →
  faults w = None :: Some e :: rest →
  IsNotFound e = false →
  nginxDeployments w !! keyOf (nd_Meta nginxDeploy) = Some nginxDeploy →
  (Reconcile r (keyOf (nd_Meta nginxDeploy)) w).1 = Val (Some e)
  ∧ requests (Reconcile r (keyOf (nd_Meta nginxDeploy)) w).2
    = requests w ++ [ReqGetNginxDeployment (keyOf (nd_Meta nginxDeploy));
                     ReqGetDeployment (deploymentKey nginxDeploy)]
  ∧ sameStore w (Reconcile r (keyOf (nd_Meta nginxDeploy)) w).2.
Proof.
  intros [kind Hkind] Hfaults Hother Hparent.
  rewrite Reconcile_steps, clientGetNginxDeployment_spec, Hfaults. cbn [hd].
  rewrite Hparent.
  set (w1 := served (ReqGetNginxDeployment (keyOf (nd_Meta nginxDeploy))) w).
  assert (faults w1 = Some e :: rest) as Hf1.
  { subst w1. by rewrite served_faults, Hfaults. }
  pose proof (reconcileDeployment_registered r (setDefaults nginxDeploy) kind w1 Hkind)
    as Hrec.
  cbv zeta in Hrec. rewrite Hf1 in Hrec. cbn [hd] in Hrec. rewrite Hother in Hrec.
  rewrite Hrec. cbn [fst snd].
  destruct (served_store (ReqGetNginxDeployment (keyOf (nd_Meta nginxDeploy))) w)
    as (H1 & H2 & H3 & H4 & _).
  destruct (served_store (ReqGetDeployment (deploymentKey (setDefaults nginxDeploy))) w1)
    as (G1 & G2 & G3 & G4 & _).
  split; [done |]. split.
  - simpl. rewrite served_requests. subst w1. rewrite served_requests.
    by rewrite <- app_assoc.
  - unfold sameStore. simpl. rewrite G1, G2, G3, G4. subst w1. by repeat split.
Qed.

Lemma reconcile_child_read_error_at_sample :
  (is_Some (nginxDeploymentKind (rScheme operator))
   ∧ faults (setFaults [None; Some ErrConflict] convergedWorld) = [None; Some ErrConflict]
   ∧ IsNotFound ErrConflict = false)
  ∧ (Reconcile operator (keyOf (nd_Meta site))
       (setFaults [None; Some ErrConflict] convergedWorld)).1 = Val (Some ErrConflict).
Proof.
  assert (is_Some (nginxDeploymentKind (rScheme operator))) as Hkind
    by (eexists; reflexivity).
  split; [split; [exact Hkind | split; reflexivity] |].
  exact (proj1 (reconcile_child_read_error operator site ErrConflict []
                  (setFaults [None; Some ErrConflict] convergedWorld)
                  Hkind eq_refl eq_refl eq_refl)).
Defined.

(** *** What the reconciler can write at all *)

Lemma atMostWrites_app (a b : nat) (new1 new2 : list Request) :
  atMostWrites a new1 → atMostWrites b new2 → atMostWrites (a + b) (new1 ++ new2).
Proof.
  intros [Hd1 Hw1] [Hd2 Hw2]. unfold atMostWrites.
  rewrite !List.filter_app, Hd1, Hd2, length_app. split; [done | lia].
Qed.

Lemma atMostWrites_weaken (a b : nat) (new : list Request) :
  (a <= b)%nat → atMostWrites a new → atMostWrites b new.
Proof. intros Hle [Hd Hw]. split; [done | lia]. Qed.

(** Every path of [reconcileDeployment]: at most one write, which is a
    create or an update carrying the compiled spec. *)
Lemma reconcileDeployment_shape
    (r : NginxDeploymentReconciler) (nginxDeploy : NginxDeployment) (w : World) :
  ∃ new,
    requests (reconcileDeployment r nginxDeploy w).2 = requests w ++ new
    ∧ (pods (reconcileDeployment r nginxDeploy w).2 = pods w
       ∧ nginxDeployments (reconcileDeployment r nginxDeploy w).2 = nginxDeployments w
       ∧ services (reconcileDeployment r nginxDeploy w).2 = services w)
    ∧ (new = []
       ∨ new = [ReqGetDeployment (deploymentKey nginxDeploy)]
       ∨ ∃ d, dep_Spec d = dep_Spec (desiredDeployment nginxDeploy)
              ∧ (new = [ReqGetDeployment (deploymentKey nginxDeploy); ReqCreateDeployment d]
                 ∨ new = [ReqGetDeployment (deploymentKey nginxDeploy);
                          ReqUpdateDeployment d])).
Proof.
  destruct (nginxDeploymentKind (rScheme r)) as [kind |] eqn:Hkind.
  2: { destruct (reconcileDeployment_unregistered r nginxDeploy w Hkind) as [e He].
       rewrite He. exists []. rewrite app_nil_r. by repeat split; try left. }
  rewrite (reconcileDeployment_registered r nginxDeploy kind w Hkind). cbv zeta.
  set (w1 := served (ReqGetDeployment (deploymentKey nginxDeploy)) w).
  pose proof (served_requests (ReqGetDeployment (deploymentKey nginxDeploy)) w) as Hget.
  destruct (served_store (ReqGetDeployment (deploymentKey nginxDeploy)) w)
    as (Hpod & Hnd & _ & Hsvc & _).
  fold w1 in Hget, Hpod, Hnd, Hsvc.
  set (create := (logf Info "Creating Deployment"
                    [AStr "name"; AStr (Name (nd_Meta nginxDeploy) +:+ "-deployment")] ;;
                  clientCreateDeployment (ownedDeployment kind nginxDeploy)) w1).
  assert (∃ new,
            requests create.2 = requests w ++ new
            ∧ (pods create.2 = pods w ∧ nginxDeployments create.2 = nginxDeployments w
               ∧ services create.2 = services w)
            ∧ (new = [] ∨ new = [ReqGetDeployment (deploymentKey nginxDeploy)]
               ∨ ∃ d, dep_Spec d = dep_Spec (desiredDeployment nginxDeploy)
                      ∧ (new = [ReqGetDeployment (deploymentKey nginxDeploy);
                                ReqCreateDeployment d]
                         ∨ new = [ReqGetDeployment (deploymentKey nginxDeploy);
                                  ReqUpdateDeployment d]))) as Hcreate.
  { subst create.
    destruct (create_deployment_after_log (ownedDeployment kind nginxDeploy)
                "Creating Deployment"
                [AStr "name"; AStr (Name (nd_Meta nginxDeploy) +:+ "-deployment")] w1)
      as (err & w' & Hc & Hreq & _ & (Hs' & Hn' & Hp') & _).
    rewrite Hc. cbn [snd]. eexists. rewrite Hreq, Hget, <- app_assoc, Hs', Hn', Hp'.
    split; [reflexivity |]. split; [done |]. right. right. eexists. split; [| by left]. done. }
  clearbody create.
  destruct (hd None (faults w)) as [e |].
  { destruct (IsNotFound e); [exact Hcreate |].
    eexists. split; [exact Hget |]. split; [done | by right; left]. }
  destruct (deployments w !! deploymentKey nginxDeploy) as [foundDeploy |]; [| exact Hcreate].
  destruct (needsUpdate_pure foundDeploy (ownedDeployment kind nginxDeploy) w1)
    as [res Hneeds].
  rewrite Hneeds. destruct res as [[|] | msg].
  - destruct (update_deployment_after_log (overwritten foundDeploy nginxDeploy)
                "Updating Deployment"
                [AStr "name"; AStr (Name (nd_Meta nginxDeploy) +:+ "-deployment")] w1)
      as (err & w' & Hu & Hreq & _ & (Hs' & Hn' & Hp') & _).
    rewrite Hu. cbn [snd]. eexists. rewrite Hreq, Hget, <- app_assoc, Hs', Hn', Hp'.
    split; [reflexivity |]. split; [done |]. right. right. eexists. split; [| by right]. done.
  - eexists. split; [exact Hget |]. split; [done | by right; left].
  - eexists. split; [exact Hget |]. split; [done | by right; left].
Qed.

(** X18.  Whatever the store holds and answers, [reconcileDeployment] makes
    at most one write; that write is a create or an update of a Deployment
    whose spec is exactly the one compiled from the parent; pods, parents
    and Services are never touched. *)
Theorem workload_writes_compiled_spec
    (r : NginxDeploymentReconciler) (nginxDeploy : NginxDeployment) (w : World) :
  ∃ new,
    requests (reconcileDeployment r nginxDeploy w).2 = requests w ++ new
    ∧ (List.filter mutating new = []
       ∨ ∃ d, dep_Spec d = dep_Spec (desiredDeployment nginxDeploy)
              ∧ (List.filter mutating new = [ReqCreateDeployment d]
                 ∨ List.filter mutating new = [ReqUpdateDeployment d]))
    ∧ pods (reconcileDeployment r nginxDeploy w).2 = pods w
    ∧ nginxDeployments (reconcileDeployment r nginxDeploy w).2 = nginxDeployments w
    ∧ services (reconcileDeployment r nginxDeploy w).2 = services w.
Proof.
  destruct (reconcileDeployment_shape r nginxDeploy w)
    as (new & Hreq & (Hp & Hn & Hs) & Hshape).
  exists new. split; [exact Hreq |]. split; [| done].
  destruct Hshape as [-> | [-> | (d & Hspec & [-> | ->])]].
  - by left.
  - by left.
  - right. exists d. split; [exact Hspec | by left].
  - right. exists d. split; [exact Hspec | by right].
Qed.

Lemma reconcileDeployment_quiet
    (r : NginxDeploymentReconciler) (nginxDeploy : NginxDeployment) (w : World) :
  ∃ new,
    requests (reconcileDeployment r nginxDeploy w).2 = requests w ++ new
    ∧ atMostWrites 1 new
    ∧ pods (reconcileDeployment r nginxDeploy w).2 = pods w.
Proof.
  destruct (reconcileDeployment_shape r nginxDeploy w)
    as (new & Hreq & (Hp & _) & Hshape).
  exists new. split; [exact Hreq |]. split; [| exact Hp].
  destruct Hshape as [-> | [-> | (d & _ & [-> | ->])]]; split; simpl; first [done | lia].
Qed.

Lemma reconcileService_quiet
    (r : NginxDeploymentReconciler) (nginxDeploy : NginxDeployment) (w : World) :
  ∃ new,
    requests (reconcileService r nginxDeploy w).2 = requests w ++ new
    ∧ atMostWrites 1 new
    ∧ pods (reconcileService r nginxDeploy w).2 = pods w.
Proof.
  destruct (nginxDeploymentKind (rScheme r)) as [kind |] eqn:Hkind.
  2: { destruct (SetControllerReference_unregistered nginxDeploy
                   (Name (nd_Meta nginxDeploy) +:+ "-service") (rScheme r) Hkind) as [e He].
       assert (reconcileService r nginxDeploy w = (Val (Some e), w)) as ->.
       { unfold reconcileService.
         change (svc_Meta (desiredService nginxDeploy))
           with (namedMeta (Name (nd_Meta nginxDeploy) +:+ "-service")
                   (Namespace (nd_Meta nginxDeploy))).
         by rewrite He. }
       exists []. rewrite app_nil_r. repeat split; simpl; first [done | lia]. }
  rewrite (reconcileService_registered r nginxDeploy kind w Hkind).
  set (w1 := served (ReqGetService (serviceKey nginxDeploy)) w).
  pose proof (served_requests (ReqGetService (serviceKey nginxDeploy)) w) as Hget.
  destruct (served_store (ReqGetService (serviceKey nginxDeploy)) w) as (Hpod & _).
  fold w1 in Hget, Hpod.
  set (create := (logf Info "Creating Service"
                    [AStr "name"; AStr (Name (nd_Meta nginxDeploy) +:+ "-service")] ;;
                  clientCreateService (ownedService kind nginxDeploy)) w1).
  assert (∃ new, requests create.2 = requests w ++ new ∧ atMostWrites 1 new
                 ∧ pods create.2 = pods w) as Hcreate.
  { subst create.
    destruct (create_service_after_log (ownedService kind nginxDeploy) "Creating Service"
                [AStr "name"; AStr (Name (nd_Meta nginxDeploy) +:+ "-service")] w1)
      as (err & w' & Hc & Hreq & _ & (_ & _ & Hp') & _).
    rewrite Hc. cbn [snd]. eexists. rewrite Hreq, Hget, <- app_assoc, Hp'.
    split; [reflexivity |]. split; [| done]. split; simpl; first [done | lia]. }
  clearbody create.
  assert (atMostWrites 1 [ReqGetService (serviceKey nginxDeploy)]) as Hquiet
    by (split; simpl; first [done | lia]).
  destruct (hd None (faults w)) as [e |].
  { destruct (IsNotFound e); [exact Hcreate |]. eexists. split; [exact Hget | done]. }
  destruct (services w !! serviceKey nginxDeploy); [| exact Hcreate].
  eexists. split; [exact Hget | done].
Qed.

Lemma updateStatus_steps
    (r : NginxDeploymentReconciler) (nginxDeploy : NginxDeployment) (w : World) :
  updateStatus r nginxDeploy w =
    match hd None (faults w), deployments w !! deploymentKey nginxDeploy with
    | Some e, _ =>
        (Val (nginxDeploy, Some e), served (ReqGetDeployment (deploymentKey nginxDeploy)) w)
    | None, None =>
        (Val (nginxDeploy, Some ErrNotFound),
         served (ReqGetDeployment (deploymentKey nginxDeploy)) w)
    | None, Some d =>
        match clientStatusUpdate (projected d nginxDeploy)
                (served (ReqGetDeployment (deploymentKey nginxDeploy)) w) with
        | (Val err, w') => (Val (projected d nginxDeploy, err), w')
        | (Panic msg, w') => (Panic msg, w')
        end
    end.
Proof.
  unfold updateStatus. unfold mbind at 1, Prog_bind at 1.
  change (clientGetDeployment _ w) with (clientGetDeployment (deploymentKey nginxDeploy) w).
  rewrite clientGetDeployment_spec.
  destruct (hd None (faults w)); [done |].
  destruct (deployments w !! deploymentKey nginxDeploy) as [d |]; [| done].
  unfold mbind, Prog_bind.
  change (clientStatusUpdate _ _)
    with (clientStatusUpdate (projected d nginxDeploy)
            (served (ReqGetDeployment (deploymentKey nginxDeploy)) w)).
  by destruct (clientStatusUpdate _ _) as [[err | msg] w'].
Qed.

Lemma updateStatus_quiet
    (r : NginxDeploymentReconciler) (nginxDeploy : NginxDeployment) (w : World) :
  ∃ new,
    requests (updateStatus r nginxDeploy w).2 = requests w ++ new
    ∧ atMostWrites 1 new
    ∧ pods (updateStatus r nginxDeploy w).2 = pods w.
Proof.
  rewrite updateStatus_steps.
  set (w1 := served (ReqGetDeployment (deploymentKey nginxDeploy)) w).
  pose proof (served_requests (ReqGetDeployment (deploymentKey nginxDeploy)) w) as Hget.
  destruct (served_store (ReqGetDeployment (deploymentKey nginxDeploy)) w) as (Hpod & _).
  fold w1 in Hget, Hpod.
  assert (atMostWrites 1 [ReqGetDeployment (deploymentKey nginxDeploy)]) as Hquiet
    by (split; simpl; first [done | lia]).
  destruct (hd None (faults w)).
  { exists [ReqGetDeployment (deploymentKey nginxDeploy)]. done. }
  destruct (deployments w !! deploymentKey nginxDeploy) as [d |].
  2: { exists [ReqGetDeployment (deploymentKey nginxDeploy)]. done. }
  destruct (clientStatusUpdate_spec (projected d nginxDeploy) w1)
    as (err & w' & Hu & Hreq & _ & (_ & _ & Hp') & _).
  rewrite Hu. cbn [snd].
  exists [ReqGetDeployment (deploymentKey nginxDeploy);
          ReqUpdateNginxDeploymentStatus (projected d nginxDeploy)].
  rewrite Hreq, Hget, <- app_assoc, Hp'. split; [done |]. split; [| done].
  split; simpl; first [done | lia].
Qed.

(** X19.  Whatever the store holds and answers, [Reconcile] never issues a
    delete, never touches a pod, and makes at most three writes: one for
    the workload, one for the endpoint, one for the status. *)
Theorem reconcile_never_deletes
    (r : NginxDeploymentReconciler) (key : string * string) (w : World) :
  ∃ new,
    requests (Reconcile r key w).2 = requests w ++ new
    ∧ List.filter isDelete new = []
    ∧ (length (List.filter mutating new) <= 3)%nat
    ∧ pods (Reconcile r key w).2 = pods w.
Proof.
  cut (∃ new, requests (Reconcile r key w).2 = requests w ++ new
              ∧ atMostWrites 3 new ∧ pods (Reconcile r key w).2 = pods w).
  { intros (new & Hreq & [Hd Hw] & Hp). exists new. done. }
  rewrite Reconcile_steps, clientGetNginxDeployment_spec.
  set (w1 := served (ReqGetNginxDeployment key) w).
  pose proof (served_requests (ReqGetNginxDeployment key) w) as Hget.
  destruct (served_store (ReqGetNginxDeployment key) w) as (Hpod & _).
  fold w1 in Hget, Hpod.
  assert (atMostWrites 0 [ReqGetNginxDeployment key]) as Hquiet
    by (split; simpl; first [done | lia]).
  destruct (match hd None (faults w) with
            | Some e => inl e
            | None => match nginxDeployments w !! key with
                      | Some o => inr o
                      | None => inl ErrNotFound
                      end
            end) as [e | nginxDeploy].
  { exists [ReqGetNginxDeployment key].
    destruct (IsNotFound e); simpl;
      (split; [exact Hget | split; [| exact Hpod]]);
      (apply (atMostWrites_weaken 0); [lia | exact Hquiet]). }
  destruct (reconcileDeployment_quiet r (setDefaults nginxDeploy) w1)
    as (new2 & Hr2 & Ha2 & Hp2).
  destruct (reconcileDeployment r (setDefaults nginxDeploy) w1) as [res2 w2].
  cbn [snd] in Hr2, Hp2.
  pose proof (atMostWrites_app 0 1 _ _ Hquiet Ha2) as Ha12.
  assert (requests w2 = requests w ++ [ReqGetNginxDeployment key] ++ new2) as Hr12
    by (by rewrite Hr2, Hget, <- app_assoc).
  assert (pods w2 = pods w) as Hp12 by (by rewrite Hp2).
  destruct res2 as [[e |] | msg];
    [ eexists; split; [exact Hr12 |];
      split; [apply (atMostWrites_weaken 1); [lia | exact Ha12] | exact Hp12]
    |
    | eexists; split; [exact Hr12 |];
      split; [apply (atMostWrites_weaken 1); [lia | exact Ha12] | exact Hp12] ].
  destruct (reconcileService_quiet r (setDefaults nginxDeploy) w2)
    as (new3 & Hr3 & Ha3 & Hp3).
  destruct (reconcileService r (setDefaults nginxDeploy) w2) as [res3 w3].
  cbn [snd] in Hr3, Hp3.
  pose proof (atMostWrites_app 1 1 _ _ Ha12 Ha3) as Ha123.
  assert (requests w3 = requests w ++ ([ReqGetNginxDeployment key] ++ new2) ++ new3) as Hr123
    by (by rewrite Hr3, Hr12, <- !app_assoc).
  assert (pods w3 = pods w) as Hp123 by (by rewrite Hp3).
  destruct res3 as [[e |] | msg];
    [ eexists; split; [exact Hr123 |];
      split; [apply (atMostWrites_weaken 2); [lia | exact Ha123] | exact Hp123]
    |
    | eexists; split; [exact Hr123 |];
      split; [apply (atMostWrites_weaken 2); [lia | exact Ha123] | exact Hp123] ].
  destruct (updateStatus_quiet r (setDefaults nginxDeploy) w3)
    as (new4 & Hr4 & Ha4 & Hp4).
  destruct (updateStatus r (setDefaults nginxDeploy) w3) as [res4 w4].
  cbn [snd] in Hr4, Hp4.
  pose proof (atMostWrites_app 2 1 _ _ Ha123 Ha4) as Ha1234.
  assert (requests w4
          = requests w ++ (([ReqGetNginxDeployment key] ++ new2) ++ new3) ++ new4) as Hr1234
    by (by rewrite Hr4, Hr123, <- !app_assoc).
  assert (pods w4 = pods w) as Hp1234 by (by rewrite Hp4).
  destruct res4 as [[nd' [e |]] | msg];
    eexists; (split; [exact Hr1234 |]); (split; [exact Ha1234 | exact Hp1234]).
Qed.

(** *** Defaults, names and the compiled children *)

(** X20.  Default filling: an empty image becomes "nginx:latest" and a
    zero port becomes 80, anything else is kept; the replica count, the
    metadata and the status are never changed; the result has a non-empty
    image and a non-zero port, and filling again changes nothing. *)
Theorem setDefaults_fills_once (nginxDeploy : NginxDeployment) :
  setDefaults (setDefaults nginxDeploy) = setDefaults nginxDeploy
  ∧ spec_Image (nd_Spec (setDefaults nginxDeploy)) ≠ ""
  ∧ spec_Port (nd_Spec (setDefaults nginxDeploy)) ≠ 0
  ∧ (spec_Image (nd_Spec nginxDeploy) = "" →
     spec_Image (nd_Spec (setDefaults nginxDeploy)) = "nginx:latest")
  ∧ (spec_Image (nd_Spec nginxDeploy) ≠ "" →
     spec_Image (nd_Spec (setDefaults nginxDeploy)) = spec_Image (nd_Spec nginxDeploy))
  ∧ (spec_Port (nd_Spec nginxDeploy) = 0 →
     spec_Port (nd_Spec (setDefaults nginxDeploy)) = 80)
  ∧ (spec_Port (nd_Spec nginxDeploy) ≠ 0 →
     spec_Port (nd_Spec (setDefaults nginxDeploy)) = spec_Port (nd_Spec nginxDeploy))
  ∧ spec_Replicas (nd_Spec (setDefaults nginxDeploy)) = spec_Replicas (nd_Spec nginxDeploy)
  ∧ nd_Meta (setDefaults nginxDeploy) = nd_Meta nginxDeploy
  ∧ nd_Status (setDefaults nginxDeploy) = nd_Status nginxDeploy.
Proof.
  unfold setDefaults. simpl.
  destruct (String.eqb_spec (spec_Image (nd_Spec nginxDeploy)) "") as [Hi | Hi];
    destruct (Z.eqb_spec (spec_Port (nd_Spec nginxDeploy)) 0) as [Hp | Hp]; simpl.
  - repeat split; try done.
  - destruct (Z.eqb_spec (spec_Port (nd_Spec nginxDeploy)) 0); [done |].
    repeat split; try done.
  - destruct (String.eqb_spec (spec_Image (nd_Spec nginxDeploy)) ""); [done |].
    repeat split; try done.
  - destruct (String.eqb_spec (spec_Image (nd_Spec nginxDeploy)) ""); [done |].
    destruct (Z.eqb_spec (spec_Port (nd_Spec nginxDeploy)) 0); [done |].
    repeat split; try done.
Qed.

Lemma setDefaults_fills_once_at_site :
  (spec_Image (nd_Spec site) ≠ "" ∧ spec_Port (nd_Spec site) ≠ 0)
  ∧ spec_Image (nd_Spec (setDefaults site)) = spec_Image (nd_Spec site)
  ∧ spec_Port (nd_Spec (setDefaults site)) = spec_Port (nd_Spec site).
Proof.
  assert (spec_Image (nd_Spec site) ≠ "") as Hi by discriminate.
  assert (spec_Port (nd_Spec site) ≠ 0) as Hp by discriminate.
  split; [exact (conj Hi Hp) |].
  destruct (setDefaults_fills_once site) as (_ & _ & _ & _ & Himage & _ & Hport & _).
  exact (conj (Himage Hi) (Hport Hp)).
Defined.

Lemma length_append (a b : string) :
  String.length (a +:+ b) = (String.length a + String.length b)%nat.
Proof.
  induction a as [| c a IH]; [done |].
  change (String c a +:+ b) with (String c (a +:+ b)). simpl. by rewrite IH.
Qed.

Lemma append_suffix_inj (a b suffix : string) :
  a +:+ suffix = b +:+ suffix → a = b.
Proof.
  revert b. induction a as [| x a IH]; intros [| y b] Heq; [done | | |].
  - apply (f_equal String.length) in Heq.
    change (String y b +:+ suffix) with (String y (b +:+ suffix)) in Heq.
    change ("" +:+ suffix) with suffix in Heq.
    simpl in Heq. rewrite length_append in Heq. lia.
  - apply (f_equal String.length) in Heq.
    change (String x a +:+ suffix) with (String x (a +:+ suffix)) in Heq.
    change ("" +:+ suffix) with suffix in Heq.
    simpl in Heq. rewrite length_append in Heq. lia.
  - change (String x (a +:+ suffix) = String y (b +:+ suffix)) in Heq.
    injection Heq as -> Heq. by rewrite (IH b Heq).
Qed.

(** X21.  The child names identify the parent: two parents have the same
    workload key, or the same endpoint key, exactly when they have the same
    namespace and name.  Distinct parents never share a child. *)
Theorem child_keys_identify_parent (nginxDeploy other : NginxDeployment) :
  (deploymentKey nginxDeploy = deploymentKey other
   ↔ keyOf (nd_Meta nginxDeploy) = keyOf (nd_Meta other))
  ∧ (serviceKey nginxDeploy = serviceKey other
     ↔ keyOf (nd_Meta nginxDeploy) = keyOf (nd_Meta other)).
Proof.
  unfold deploymentKey, serviceKey, keyOf.
  split; split; intros [= Hns Hname].
  - apply append_suffix_inj in Hname. by rewrite Hns, Hname.
  - by rewrite Hns, Hname.
  - apply append_suffix_inj in Hname. by rewrite Hns, Hname.
  - by rewrite Hns, Hname.
Qed.

Lemma setDefaults_port_nonzero (nginxDeploy : NginxDeployment) :
  (if spec_Port (nd_Spec nginxDeploy) =? 0 then 80 else spec_Port (nd_Spec nginxDeploy)) ≠ 0.
Proof. by destruct (Z.eqb_spec (spec_Port (nd_Spec nginxDeploy)) 0). Qed.

(** X22.  The two children compiled by [Reconcile] fit together: the
    endpoint selects exactly the labels the workload puts on its pods and
    selects itself by; it forwards its port to the port the single
    container exposes, which both probes query and which is never 0 after
    default filling; both children live in the parent's namespace. *)
Theorem endpoint_routes_to_workload (nginxDeploy : NginxDeployment) :
  let compiled := setDefaults nginxDeploy in
  let workload := dep_Spec (desiredDeployment compiled) in
  let endpoint := svc_Spec (desiredService compiled) in
  let port := spec_Port (nd_Spec compiled) in
  svc_Selector endpoint = Labels (tmpl_Meta (Template workload))
  ∧ Selector workload = Some {| MatchLabels := svc_Selector endpoint |}
  ∧ svc_Selector endpoint !! "app" = Some (Name (nd_Meta nginxDeploy))
  ∧ svc_Ports endpoint = [ {| sp_Port := port; sp_TargetPort := IntVal port |} ]
  ∧ (∃ c, Containers (tmpl_Spec (Template workload)) = [c]
          ∧ c_Image c = spec_Image (nd_Spec compiled)
          ∧ c_Ports c = [ {| cp_ContainerPort := port |} ]
          ∧ (http_Port <$> (LivenessProbe c ≫= HTTPGet)) = Some (IntVal port)
          ∧ (http_Port <$> (ReadinessProbe c ≫= HTTPGet)) = Some (IntVal port))
  ∧ port ≠ 0
  ∧ Namespace (dep_Meta (desiredDeployment compiled)) = Namespace (nd_Meta nginxDeploy)
  ∧ Namespace (svc_Meta (desiredService compiled)) = Namespace (nd_Meta nginxDeploy).
Proof.
  intros compiled workload endpoint port.
  pose proof (setDefaults_port_nonzero nginxDeploy) as Hport.
  subst compiled workload endpoint port. simpl.
  split; [done |]. split; [done |]. split; [apply lookup_singleton_eq |].
  split; [done |]. split; [eexists; by repeat split |].
  split; [exact Hport | done].
Qed.

End ReconcileFacts.
